(** * SMAC3: the SMBO main loop (smac/smbo/smbo.py)

    A shallow embedding of class [SMBO]: construction ([__init__]),
    [run_initial_design], [run], [choose_next] and the two candidate
    generators [_get_next_by_random_search] and [_get_next_by_local_search].

    Python floats are modelled by rationals ([Q]): the code under study only
    compares, multiplies and truncates them.  External collaborators (the
    configuration-space library, numpy's generator, the surrogate model, the
    acquisition function, local search, the target-algorithm executor, the
    intensifier and the budget statistics) are the fields of the class
    [Env]; what the code relies on about them is collected in
    [EnvContracts]. *)

From Stdlib Require Import ZArith QArith Qround String Bool Lia List.
From Stdlib Require Import Permutation Sorted Lqa.
Import ListNotations.
Close Scope Q_scope.
Open Scope nat_scope.

Set Implicit Arguments.

(* ================================================================= *)
(** ** Python values and control flow *)

Definition float := Q.

(** [smac.tae.execute_ta_run.StatusType] *)
Inductive StatusType := SUCCESS | TIMEOUT | CRASHED | ABORT | MEMOUT.

Definition StatusType_eqb (a b : StatusType) : bool :=
  match a, b with
  | SUCCESS, SUCCESS | TIMEOUT, TIMEOUT | CRASHED, CRASHED
  | ABORT, ABORT | MEMOUT, MEMOUT => true
  | _, _ => false
  end.

(** Exceptions that the modelled code raises or lets through. *)
Inductive Exn :=
| TypeError (msg : string)
| ValueError
| IndexError
| AttributeError (attr : string)
| UnknownConfigError
| DuplicateRunError.

(** How a call ends: it returns, raises, or leaves the process through
    [sys.exit].  The state reached is kept in all three cases. *)
Inductive Outcome (S A : Type) :=
| Returns (a : A) (s : S)
| Raises (e : Exn) (s : S)
| Exits (code : Z) (s : S).

Arguments Returns {S A} a s.
Arguments Raises {S A} e s.
Arguments Exits {S A} code s.

Definition M (S A : Type) := S -> Outcome S A.

Definition ret {S A} (a : A) : M S A := fun s => Returns a s.

Definition bind {S A B} (m : M S A) (k : A -> M S B) : M S B :=
  fun s =>
    match m s with
    | Returns a s' => k a s'
    | Raises e s' => Raises e s'
    | Exits c s' => Exits c s'
    end.

Definition raise {S A} (e : Exn) : M S A := fun s => Raises e s.
Definition sys_exit {S A} (code : Z) : M S A := fun s => Exits code s.
Definition get {S} : M S S := fun s => Returns s s.
Definition put {S} (s : S) : M S unit := fun _ => Returns tt s.
Definition gets {S A} (f : S -> A) : M S A := fun s => Returns (f s) s.
Definition modify {S} (f : S -> S) : M S unit := fun s => Returns tt (f s).

Declare Scope py_scope.
Delimit Scope py_scope with py.
Notation "x <- m ;; k" := (bind m (fun x => k))
  (at level 61, m at next level, right associativity) : py_scope.
Notation "' p <- m ;; k" := (bind m (fun x => let p := x in k))
  (at level 61, p pattern, m at next level, right associativity) : py_scope.
Notation "m ;;; k" := (bind m (fun _ => k))
  (at level 61, right associativity) : py_scope.

(** [x or y] on two values, given the truth value of the first. *)
Definition py_or {A} (truth : A -> bool) (x y : A) : A :=
  if truth x then x else y.

(** Normalisation of a Python list index: negative indices count from the
    end; [None] stands for IndexError. *)
Definition norm_index (len : nat) (i : Z) : option nat :=
  if (i <? 0)%Z
  then if (i + Z.of_nat len <? 0)%Z then None
       else Some (Z.to_nat (i + Z.of_nat len))
  else if (i <? Z.of_nat len)%Z then Some (Z.to_nat i) else None.

(** [l[i]] for a Python list. *)
Definition py_index {A} (l : list A) (i : Z) : option A :=
  match norm_index (length l) i with
  | Some k => nth_error l k
  | None => None
  end.

(** [l[i] = v] with [0 <= i < len(l)]; the list is returned unchanged
    when [i] is out of range (callers check the range first). *)
Fixpoint set_item {A} (l : list A) (i : nat) (v : A) : list A :=
  match l, i with
  | [], _ => []
  | _ :: t, O => v :: t
  | h :: t, S j => h :: set_item t j v
  end.

(** [max(a, b)] on floats: [b] only when it is the greater. *)
Definition py_max (a b : float) : float :=
  match Qcompare b a with Gt => b | _ => a end.

(** [int(x)] on a float: truncation toward zero.  Applied to a product
    of rationals it truncates the exact product, where the code truncates
    the product rounded to a double; the two can differ by one when the
    exact product lies within rounding distance of an integer. *)
Definition py_int (x : float) : Z := Z.quot (Qnum x) (Z.pos (Qden x)).

(** [dict.get(key, default)] on a dictionary with string keys. *)
Fixpoint dict_get (d : list (string * string)) (k dflt : string) : string :=
  match d with
  | [] => dflt
  | (k', v) :: d' => if String.eqb k k' then v else dict_get d' k dflt
  end.

(** [list(itertools.chain( *zip(a, b)))] *)
Fixpoint chain_zip {A} (a b : list A) : list A :=
  match a, b with
  | x :: a', y :: b' => x :: y :: chain_zip a' b'
  | _, _ => []
  end.

(* ================================================================= *)
(** ** Sorting and shuffling *)

Section Sorting.
Variable A : Type.
Variable le : A -> A -> bool.

(** Stable insertion: [x] goes in front of the first element it is
    [le] to, hence in front of the elements it ties with. *)
Fixpoint insert_stable (x : A) (l : list A) : list A :=
  match l with
  | [] => [x]
  | y :: l' => if le x y then x :: l else y :: insert_stable x l'
  end.

(** A stable sort, ascending for [le]: elements that tie keep the order
    they had in the input. *)
Definition stable_sort (l : list A) : list A :=
  fold_right insert_stable [] l.
End Sorting.

(** [l.sort(reverse=True, key=lambda x: x[0])] on pairs: descending
    by the first component, stable. *)
Definition sort_by_acq_desc {B} (l : list (float * B)) : list (float * B) :=
  stable_sort (fun x y => Qle_bool (fst y) (fst x)) l.

(** The order of [np.lexsort((random, acq))]: [acq] is the primary key,
    [random] the secondary one. *)
Definition lex_le (x y : float * float) : bool :=
  match Qcompare (fst x) (fst y) with
  | Lt => true
  | Eq => Qle_bool (snd x) (snd y)
  | Gt => false
  end.

(** [x[i], x[j] = x[j], x[i]] with [i] a valid position. *)
Definition swap_items {A} (x : list A) (i : nat) (j : Z) : option (list A) :=
  match norm_index (length x) j with
  | Some j' =>
      match nth_error x i, nth_error x j' with
      | Some xi, Some xj => Some (set_item (set_item x i xj) j' xi)
      | _, _ => None
      end
  | None => None
  end.

Section Shuffle.
Variables S A : Type.
(** the [random] argument of [random.shuffle]: a call returning a float *)
Variable random : M S float.

(** [for i in reversed(range(1, len(x))):
       j = int(random() * (i + 1)); x[i], x[j] = x[j], x[i]] *)
Fixpoint shuffle_down (i : nat) (x : list A) : M S (list A) :=
  match i with
  | O => ret x
  | Datatypes.S i' =>
      (r <- random ;;
       let j := py_int (r * inject_Z (Z.of_nat i + 1))%Q in
       match swap_items x i j with
       | Some x' => shuffle_down i' x'
       | None => raise IndexError
       end)%py
  end.

(** [random.shuffle(x, random)] *)
Definition shuffle (x : list A) : M S (list A) :=
  shuffle_down (length x - 1) x.
End Shuffle.

(* ================================================================= *)
(** ** The data model *)

(** The hyperparameter classes that [__init__] tells apart with
    [isinstance]; [OtherHyperparameter] is any other class. *)
Inductive Hyperparameter :=
| CategoricalHyperparameter (choices : list string)
| UniformFloatHyperparameter
| UniformIntegerHyperparameter
| Constant
| OtherHyperparameter (type_name : string).

(** The types that belong to the collaborators. *)
Class Types := {
  RandomState : Type;        (* numpy.random.RandomState *)
  ConfigurationSpace : Type; (* the space and the state of its own sampler *)
  Values : Type;             (* the hyperparameter values of a configuration *)
  Model : Type;              (* RandomForestWithInstances *)
  AdditionalInfo : Type;               (* additional_info of a run *)
  World : Type               (* target algorithm, clock, Stats, Python's random *)
}.

Definition Matrix := list (list float).

Section DataModel.
Context {T : Types}.

(** A configuration and its mutable provenance tag.  The tag is written
    in place by the generators; here it is set on the value that the
    generator returns. *)
Record Configuration := {
  values : Values;
  origin : option string
}.

Definition set_origin (o : string) (c : Configuration) : Configuration :=
  {| values := values c; origin := Some o |}.

Record RunKey := {
  rk_config : Configuration;
  rk_instance : string;
  rk_seed : Z
}.

Record RunValue := {
  rv_cost : float;
  rv_time : float;
  rv_status : StatusType;
  rv_additional_info : AdditionalInfo
}.

(** Modelled from the spec: class RunHistory (smac.runhistory.runhistory)
    is not part of the sources at hand.  A ledger from RunKey to RunValue
    and a memoised aggregate cost per configuration. *)
Record RunHistory := {
  data : list (RunKey * RunValue);
  cost_per_config : list (Configuration * float)
}.

(** shape of [scenario.feature_array], a two-dimensional numpy array *)
Record ndarray := { shape0 : nat; shape1 : nat }.

Record Scenario := {
  cs : ConfigurationSpace;
  feature_array : option ndarray;
  train_insts : list string;
  cutoff : float;
  par_factor : float;
  deterministic : bool;
  run_obj : string;
  instance_specific : list (string * string)
}.

(** The keyword arguments given to [RFRImputator]; its [cs], [rs] and
    [model] arguments are the SMBO object's own attributes. *)
Record RFRImputator := {
  imp_cutoff : float;
  imp_threshold : float;
  change_threshold : float;
  max_iter : nat
}.

(** The keyword arguments given to [RunHistory2EPM]. *)
Record RunHistory2EPM := {
  num_params : nat;
  success_states : list StatusType;
  impute_censored_data : bool;
  impute_state : option (list StatusType);
  imputor : option RFRImputator;
  log_y : bool
}.

(** [smac.smbo.objective]: the two aggregation functions. *)
Inductive Objective := total_cost | average_cost.

(** The keyword arguments given to [Intensifier]. *)
Record Intensifier := {
  inten_instances : list string;
  inten_cutoff : float;
  inten_deterministic : bool;
  run_obj_time : bool;
  inten_instance_specifics : list (string * string)
}.

(** The attributes of an [SMBO] object.  [acquisition_func] and
    [local_search] hold references to [model] and [config_space]; what
    they own beside is the threshold [eta].  [runhistory] is an
    attribute only once [run] has set it. *)
Record SMBO := {
  rng : RandomState;
  scenario : Scenario;
  config_space : ConfigurationSpace;
  types : list N;
  model : Model;
  eta : option float;
  incumbent : option Configuration;
  inten : Intensifier;
  rh2EPM : RunHistory2EPM;
  objective : Objective;
  runhistory : option RunHistory
}.

(** A running process: the SMBO object and everything around it. *)
Record Process := {
  self : SMBO;
  world : World
}.
End DataModel.

(* ================================================================= *)
(** ** The collaborators *)

(** The [rng] argument of [SMBO.__init__]. *)
Inductive RngArg {T : Types} :=
| RngNone
| RngInt (seed : Z)
| RngRandomState (g : RandomState)
| RngOther (type_name : string).

(** What the code calls and does not define.  A call that can change the
    object it is made on returns the new state of that object. *)
Class Env {T : Types} := {
  (* numpy; [RandomState_seed] is read on seeds in [0, 2**32 - 1] only *)
  RandomState_seed : Z -> RandomState;
  np_random_randint : Z -> World -> Z * World;
  rng_randint : Z -> Z -> RandomState -> Z * RandomState;
  rng_rand : RandomState -> float * RandomState;
  log10 : float -> float;
  (* Python's random and time modules *)
  random_randint : Z -> Z -> World -> Z * World;
  time_time : World -> float * World;
  (* ConfigSpace *)
  get_hyperparameters : ConfigurationSpace -> list Hyperparameter;
  get_default_configuration : ConfigurationSpace -> Configuration;
  sample_configuration : ConfigurationSpace -> Configuration * ConfigurationSpace;
  sample_configuration_size :
    nat -> ConfigurationSpace -> list Configuration * ConfigurationSpace;
  (* the exception met when a single Configuration is used as a list of
     configurations, in the scored ([true]) and the unscored branch of the
     random search *)
  single_configuration_error : bool -> Exn;
  impute_inactive_values : Configuration -> Configuration;
  get_array : Configuration -> list float;
  values_eqb : Values -> Values -> bool;
  (* surrogate model, acquisition function (EI), local search *)
  RandomForestWithInstances : list N -> option ndarray -> Z -> Model;
  train : Model -> Matrix -> list float -> Model;
  EI : Model -> option float -> list float -> float;
  maximize : Model -> option float -> ConfigurationSpace -> Configuration ->
             Configuration * float;
  (* StatusType: the truth value of each constant *)
  status_truth : StatusType -> bool;
  (* target-algorithm executor *)
  executor_run : Configuration -> string -> float -> Z -> string -> World ->
                 (StatusType * float * float * AdditionalInfo) * World;
  (* objective functions *)
  objective_call : Objective -> Configuration -> RunHistory ->
                   list (string * Z) -> float;
  (* RFRImputator(rs=self.rng, ...): the generator handed to the
     constructor, as the constructor leaves it *)
  RFRImputator_init : RandomState -> RandomState;
  (* RunHistory2EPM.transform; the imputor refits [model] and draws from [rng] *)
  transform : RunHistory2EPM -> RunHistory -> Model -> RandomState ->
              (Matrix * list float) * Model * RandomState;
  (* Intensifier.intensify: runs the target algorithm, extends the history *)
  intensify : Intensifier -> list Configuration -> option Configuration ->
              RunHistory -> Objective -> float -> World ->
              (Configuration * RunHistory) * World;
  (* Stats *)
  Stats_start_timing : World -> World;
  get_remaing_time_budget : World -> float * World;
  get_remaining_ta_budget : World -> float * World;
  get_remaining_ta_runs : World -> float * World
}.

Definition MAXINT : Z := 2 ^ 31 - 1.

Section RunHistoryOps.
Context {T : Types} {E : Env}.

(** Two configurations are equal iff their values are; the provenance
    tag does not take part. *)
Definition config_eqb (a b : Configuration) : bool :=
  values_eqb (values a) (values b).

Definition runkey_eqb (a b : RunKey) : bool :=
  config_eqb (rk_config a) (rk_config b)
  && String.eqb (rk_instance a) (rk_instance b)
  && Z.eqb (rk_seed a) (rk_seed b).

(** Modelled from the spec: [RunHistory()], defined outside the sources at
    hand, starts with no entries. *)
Definition RunHistory_new : RunHistory :=
  {| data := []; cost_per_config := [] |}.

(** Modelled from the spec: [empty()] is true iff there are no entries. *)
Definition rh_empty (rh : RunHistory) : bool :=
  match data rh with [] => true | _ :: _ => false end.

(** Modelled from the spec: [add] fails with DuplicateRunError if the
    exact RunKey already exists ([None] here), else appends. *)
Definition rh_add (rh : RunHistory) (k : RunKey) (v : RunValue)
  : option RunHistory :=
  if existsb (fun e => runkey_eqb (fst e) k) (data rh) then None
  else Some {| data := data rh ++ [(k, v)];
               cost_per_config := cost_per_config rh |}.

(** Modelled from the spec: [get_runs_for_config] gives the (instance,
    seed) pairs evaluated for the configuration, none if unseen. *)
Definition get_runs_for_config (rh : RunHistory) (c : Configuration)
  : list (string * Z) :=
  map (fun e => (rk_instance (fst e), rk_seed (fst e)))
      (filter (fun e => config_eqb (rk_config (fst e)) c) (data rh)).

(** Modelled from the spec: [update_cost] stores the aggregate. *)
Definition update_cost (rh : RunHistory) (c : Configuration) (v : float)
  : RunHistory :=
  {| data := data rh;
     cost_per_config :=
       (c, v) :: filter (fun e => negb (config_eqb (fst e) c))
                        (cost_per_config rh) |}.

(** Modelled from the spec: [get_cost] fails with UnknownConfigError
    ([None] here) if no aggregate is stored for the configuration. *)
Definition get_cost (rh : RunHistory) (c : Configuration) : option float :=
  match find (fun e => config_eqb (fst e) c) (cost_per_config rh) with
  | Some e => Some (snd e)
  | None => None
  end.

Definition inst_seed_dec (a b : string * Z) : {a = b} + {a <> b}.
Proof. decide equality; [apply Z.eq_dec | apply string_dec]. Defined.

(** [set(l)] on a list of (instance, seed) pairs *)
Definition py_set (l : list (string * Z)) : list (string * Z) :=
  nodup inst_seed_dec l.
End RunHistoryOps.

(* ================================================================= *)
(** ** Class SMBO *)

Section SMBO_methods.
Context {T : Types} {E : Env}.
Local Open Scope py_scope.
Local Open Scope string_scope.

(** *** Attribute updates *)

Definition with_rng (g : RandomState) (s : SMBO) : SMBO :=
  {| rng := g; scenario := scenario s; config_space := config_space s;
     types := types s; model := model s; eta := eta s;
     incumbent := incumbent s; inten := inten s; rh2EPM := rh2EPM s;
     objective := objective s; runhistory := runhistory s |}.

Definition with_config_space (c : ConfigurationSpace) (s : SMBO) : SMBO :=
  {| rng := rng s; scenario := scenario s; config_space := c;
     types := types s; model := model s; eta := eta s;
     incumbent := incumbent s; inten := inten s; rh2EPM := rh2EPM s;
     objective := objective s; runhistory := runhistory s |}.

Definition with_model (m : Model) (s : SMBO) : SMBO :=
  {| rng := rng s; scenario := scenario s; config_space := config_space s;
     types := types s; model := m; eta := eta s;
     incumbent := incumbent s; inten := inten s; rh2EPM := rh2EPM s;
     objective := objective s; runhistory := runhistory s |}.

Definition with_eta (e : option float) (s : SMBO) : SMBO :=
  {| rng := rng s; scenario := scenario s; config_space := config_space s;
     types := types s; model := model s; eta := e;
     incumbent := incumbent s; inten := inten s; rh2EPM := rh2EPM s;
     objective := objective s; runhistory := runhistory s |}.

Definition with_incumbent (c : option Configuration) (s : SMBO) : SMBO :=
  {| rng := rng s; scenario := scenario s; config_space := config_space s;
     types := types s; model := model s; eta := eta s;
     incumbent := c; inten := inten s; rh2EPM := rh2EPM s;
     objective := objective s; runhistory := runhistory s |}.

Definition with_runhistory (rh : option RunHistory) (s : SMBO) : SMBO :=
  {| rng := rng s; scenario := scenario s; config_space := config_space s;
     types := types s; model := model s; eta := eta s;
     incumbent := incumbent s; inten := inten s; rh2EPM := rh2EPM s;
     objective := objective s; runhistory := rh |}.

Definition with_self (s : SMBO) (p : Process) : Process :=
  {| self := s; world := world p |}.

Definition with_world (w : World) (p : Process) : Process :=
  {| self := self p; world := w |}.

(** A method of the SMBO object, run inside the process. *)
Definition on_self {A} (m : M SMBO A) : M Process A :=
  fun p =>
    match m (self p) with
    | Returns a s => Returns a (with_self s p)
    | Raises e s => Raises e (with_self s p)
    | Exits c s => Exits c (with_self s p)
    end.

(** A call into the world around the object. *)
Definition on_world {A} (f : World -> A * World) : M Process A :=
  fun p => let (a, w) := f (world p) in Returns a (with_world w p).

(** *** Calls on the object's generator and configuration space *)

(** [self.rng.rand()] *)
Definition rand : M SMBO float :=
  fun s => let (r, g) := rng_rand (rng s) in Returns r (with_rng g s).

(** [self.rng.rand(n)]: [n] consecutive draws *)
Fixpoint rand_size (n : nat) : M SMBO (list float) :=
  match n with
  | O => ret []
  | S n' => r <- rand ;; rs <- rand_size n' ;; ret (r :: rs)
  end.

(** [self.rng.randint(low, high)]: numpy raises ValueError when
    [low >= high] *)
Definition randint (low high : Z) : M SMBO Z :=
  fun s => if (high <=? low)%Z then Raises ValueError s
           else let (z, g) := rng_randint low high (rng s) in
                Returns z (with_rng g s).

(** [self.config_space.sample_configuration()] *)
Definition sample_one : M SMBO Configuration :=
  fun s => let (c, cs') := sample_configuration (config_space s) in
           Returns c (with_config_space cs' s).

(** [self.config_space.sample_configuration(size=n)] for [n] other than
    1, where the result is a list; with [size=1] the library returns a
    single Configuration, as [sample_one] does *)
Definition sample_size (n : nat) : M SMBO (list Configuration) :=
  fun s => let (l, cs') := sample_configuration_size n (config_space s) in
           Returns l (with_config_space cs' s).

(** *** [__init__] *)

(** The loop over [enumerate(get_hyperparameters())] that fills the
    zero-initialised [types] array.  [len(param.choices)] is below 2^63,
    hence stored in the unsigned array without wrap-around. *)
Fixpoint fill_types {S} (i : nat) (params : list Hyperparameter)
         (types : list N) : M S (list N) :=
  match params with
  | [] => ret types
  | param :: rest =>
      match param with
      | CategoricalHyperparameter choices =>
          let n_cats := N.of_nat (length choices) in
          fill_types (Datatypes.S i) rest (set_item types i n_cats)
      | Constant =>
          fill_types (Datatypes.S i) rest (set_item types i 0%N)
      | UniformFloatHyperparameter | UniformIntegerHyperparameter =>
          fill_types (Datatypes.S i) rest types
      | OtherHyperparameter name =>
          raise (TypeError ("Unknown hyperparameter type " ++ name))
      end
  end.

(** The type vector: one entry per hyperparameter, then one zero per
    column of the instance-feature array. *)
Definition build_types {S} (sc : Scenario) : M S (list N) :=
  let params := get_hyperparameters (cs sc) in
  types <- fill_types 0 params (repeat 0%N (length params)) ;;
  ret (match feature_array sc with
       | Some fa => (types ++ repeat 0%N (shape1 fa))%list
       | None => types
       end).

(** The branch on [scenario.run_obj] that builds [rh2EPM] and picks the
    objective. *)
Definition build_rh2EPM (sc : Scenario) (num_params : nat)
  : RunHistory2EPM * Objective :=
  if String.eqb (run_obj sc) "runtime" then
    let '(cutoff', threshold) :=
      if String.eqb (run_obj sc) "runtime"
      then (log10 (cutoff sc), log10 (cutoff sc * par_factor sc)%Q)
      else (cutoff sc, (cutoff sc * par_factor sc)%Q) in
    let imputor := {| imp_cutoff := cutoff';
                      imp_threshold := threshold;
                      change_threshold := (1 # 100)%Q;
                      max_iter := 10 |} in
    ({| num_params := num_params;
        success_states := [SUCCESS];
        impute_censored_data := true;
        impute_state := Some [TIMEOUT];
        imputor := Some imputor;
        log_y := String.eqb (run_obj sc) "runtime" |},
     total_cost)
  else
    ({| num_params := num_params;
        success_states := [SUCCESS];
        impute_censored_data := false;
        impute_state := None;
        imputor := None;
        log_y := String.eqb (run_obj sc) "runtime" |},
     average_cost).

(** [np.random.RandomState(seed=seed)]: numpy raises ValueError unless
    [0 <= seed <= 2**32 - 1] *)
Definition valid_seed (seed : Z) : bool :=
  ((0 <=? seed) && (seed <=? 2 ^ 32 - 1))%Z.

Definition new_RandomState {S} (seed : Z) : M S RandomState :=
  if valid_seed seed then ret (RandomState_seed seed) else raise ValueError.

(** [SMBO(scenario, rng)]: runs in the world because [rng=None] draws a
    seed from numpy's global generator. *)
Definition SMBO__init__ (sc : Scenario) (rng_arg : RngArg) : M World SMBO :=
  rng0 <- match rng_arg with
          | RngNone =>
              seed <- (fun w => let (z, w') := np_random_randint 10000 w in
                                Returns z w') ;;
              new_RandomState seed
          | RngInt seed => new_RandomState seed
          | RngRandomState g => ret g
          | RngOther name =>
              raise (TypeError ("Unknown type " ++ name ++ " for argument rng"))
          end ;;
  types <- build_types sc ;;
  let (seed, rng1) := rng_randint 0 1234567980 rng0 in
  let model := RandomForestWithInstances types (feature_array sc) seed in
  let inten := {| inten_instances := train_insts sc;
                  inten_cutoff := cutoff sc;
                  inten_deterministic := deterministic sc;
                  run_obj_time := String.eqb (run_obj sc) "runtime";
                  inten_instance_specifics := instance_specific sc |} in
  let num_params := length (get_hyperparameters (cs sc)) in
  let '(rh2EPM, objective) := build_rh2EPM sc num_params in
  (* the imputor is built, with rs=self.rng, in the runtime branch only *)
  let rng2 := if String.eqb (run_obj sc) "runtime"
              then RFRImputator_init rng1 else rng1 in
  ret {| rng := rng2; scenario := sc; config_space := cs sc;
         types := types; model := model; eta := None;
         incumbent := None; inten := inten; rh2EPM := rh2EPM;
         objective := objective; runhistory := None |}.
End SMBO_methods.

Section SMBO_search.
Context {T : Types} {E : Env}.
Local Open Scope py_scope.
Local Open Scope string_scope.

(** One candidate of the scored random search: its acquisition value,
    its random tie-break key and the configuration. *)
Definition Row : Type := (float * float) * Configuration.

(** The rows in the order of [np.lexsort((random, acq_values))].  The
    code sorts the indices [0 .. n-1]; the three sequences have the same
    length, so sorting the rows themselves gives the same order. *)
Definition lexsort_rows (rows : list Row) : list Row :=
  stable_sort (fun x y => lex_le (fst x) (fst y)) rows.

(** The body of [_get_next_by_random_search] when
    [sample_configuration(size=num_points)] returns a list. *)
Definition random_search_on_list (num_points : nat) (_sorted : bool)
  : M SMBO (list (float * Configuration)) :=
  rand_configs <- sample_size num_points ;;
  if _sorted then
    let imputed_rand_configs :=
      map (fun c => get_array (impute_inactive_values c)) rand_configs in
    s <- get ;;
    let acq_values := map (EI (model s) (eta s)) imputed_rand_configs in
    random <- rand_size (length acq_values) ;;
    let rand_configs :=
      map (set_origin "Random Search (sorted)") rand_configs in
    let rows := combine (combine acq_values random) rand_configs in
    (* for ind in indices[::-1] *)
    ret (map (fun r : Row => (fst (fst r), snd r))
             (rev (lexsort_rows rows)))
  else
    ret (map (fun c => (0%Q, set_origin "Random Search" c)) rand_configs).

(** [_get_next_by_random_search(num_points, _sorted)].  With
    [num_points = 1] the sample is a single Configuration, on which the
    code that follows, written for a list, fails. *)
Definition _get_next_by_random_search (num_points : nat) (_sorted : bool)
  : M SMBO (list (float * Configuration)) :=
  if Nat.eqb num_points 1
  then sample_one ;;; raise (single_configuration_error _sorted)
  else random_search_on_list num_points _sorted.

(** The [for i in range(num_points)] loop of the local search.  The
    candidate appended carries the tag of line 357.  The code writes that
    tag in place on the object that [maximize] returns; when that object
    is the incumbent itself, the incumbent's own tag changes too, which
    this value model does not track: here only candidates carry the tag. *)
Fixpoint local_searches (range : list nat)
         (configs_acq : list (float * Configuration))
  : M SMBO (list (float * Configuration)) :=
  match range with
  | [] => ret configs_acq
  | i :: rest =>
      s <- get ;;
      start_point <- match i, incumbent s with
                     | O, Some inc => ret inc
                     | _, _ => sample_one
                     end ;;
      s <- get ;;
      let (configuration, acq_val) :=
        maximize (model s) (eta s) (config_space s) start_point in
      let configuration := set_origin "Local Search" configuration in
      local_searches rest (configs_acq ++ [(acq_val, configuration)])%list
  end.

(** [_get_next_by_local_search(num_points)] *)
Definition _get_next_by_local_search (num_points : nat)
  : M SMBO (list (float * Configuration)) :=
  configs_acq <- local_searches (seq 0 num_points) [] ;;
  (* shuffle for random tie-break *)
  configs_acq <- shuffle rand configs_acq ;;
  ret (sort_by_acq_desc configs_acq).

(** The value bound to [eta]: lines 263-266. *)
Definition incumbent_value : M SMBO float :=
  s <- get ;;
  match runhistory s with
  | None => raise (AttributeError "runhistory")
  | Some rh =>
      if rh_empty rh then ret 0%Q
      else match incumbent s with
           | Some inc =>
               match get_cost rh inc with
               | Some c => ret c
               | None => raise UnknownConfigError
               end
           | None => raise UnknownConfigError
           end
  end.

(** Lines 270-283 of [choose_next]: the three generator calls and the
    merge.  The result is the two lists that are zipped at the end,
    [next_configs_by_acq_value] and [next_configs_by_random_search]. *)
Definition generate_pools
  : M SMBO (list Configuration * list Configuration) :=
  unscored <- _get_next_by_random_search 1010 false ;;
  (* Remove dummy acquisition function value *)
  let next_configs_by_random_search := map snd unscored in
  next_configs_by_random_search_sorted <-
    _get_next_by_random_search 1000 true ;;
  next_configs_by_local_search <- _get_next_by_local_search 10 ;;
  let next_configs_by_acq_value :=
    sort_by_acq_desc (next_configs_by_random_search_sorted
                      ++ next_configs_by_local_search)%list in
  ret (map snd next_configs_by_acq_value, next_configs_by_random_search).

(** [choose_next] up to the two lists that are zipped at its end. *)
Definition choose_next_pools (X : Matrix) (Y : list float)
  : M SMBO (list Configuration * list Configuration) :=
  modify (fun s => with_model (train (model s) X Y) s) ;;;
  v <- incumbent_value ;;
  (* self.acquisition_func.update(model=self.model, eta=incumbent_value) *)
  modify (with_eta (Some v)) ;;;
  generate_pools.

(** [choose_next(X, Y)] *)
Definition choose_next (X : Matrix) (Y : list float)
  : M SMBO (list Configuration) :=
  '(next_configs_by_acq_value, next_configs_by_random_search) <-
    choose_next_pools X Y ;;
  ret (chain_zip next_configs_by_acq_value next_configs_by_random_search).
End SMBO_search.

Section SMBO_run.
Context {T : Types} {E : Env}.
Local Open Scope py_scope.
Local Open Scope string_scope.

(** What the executor reports for one run. *)
Definition RunResult : Type := StatusType * float * float * AdditionalInfo.

(** [run_initial_design()], lines 152-166: the default configuration
    becomes the incumbent and is run on a random instance. *)
Definition initial_run
  : M Process (Configuration * string * Z * RunResult) :=
  s <- gets self ;;
  let default_conf := get_default_configuration (config_space s) in
  on_self (modify (with_incumbent (Some default_conf))) ;;;
  rand_inst_id <-
    on_self (randint 0 (Z.of_nat (length (train_insts (scenario s))))) ;;
  rand_inst <- match py_index (train_insts (scenario s)) rand_inst_id with
               | Some i => ret i
               | None => raise IndexError
               end ;;
  initial_seed <- (if deterministic (scenario s) then ret 0%Z
                   else on_world (random_randint 0 MAXINT)) ;;
  result <-
    on_world (executor_run default_conf rand_inst (cutoff (scenario s))
                initial_seed
                (dict_get (instance_specific (scenario s)) rand_inst "0")) ;;
  ret (default_conf, rand_inst, initial_seed, result).

(** Lines 168-170: [if status in [StatusType.CRASHED or StatusType.ABORT]:
    sys.exit(42)].  The list has one element, the value of the [or]. *)
Definition abort_if_first_run_failed (status : StatusType) : M Process unit :=
  if existsb (StatusType_eqb status) [py_or status_truth CRASHED ABORT]
  then sys_exit 42%Z
  else ret tt.

(** Lines 172-180: the run is added to the run history and the aggregate
    cost of the default configuration is stored. *)
Definition record_initial_run (default_conf : Configuration)
           (rand_inst : string) (initial_seed : Z) (result : RunResult)
  : M Process unit :=
  let '(status, cost, runtime, additional_info) := result in
  s <- gets self ;;
  rh <- match runhistory s with
        | Some rh => ret rh
        | None => raise (AttributeError "runhistory")
        end ;;
  rh <- match rh_add rh {| rk_config := default_conf;
                           rk_instance := rand_inst;
                           rk_seed := initial_seed |}
                        {| rv_cost := cost; rv_time := runtime;
                           rv_status := status;
                           rv_additional_info := additional_info |} with
        | Some rh' => ret rh'
        | None => raise DuplicateRunError
        end ;;
  on_self (modify (with_runhistory (Some rh))) ;;;
  let defaul_inst_seeds := py_set (get_runs_for_config rh default_conf) in
  let default_perf :=
    objective_call (objective s) default_conf rh defaul_inst_seeds in
  on_self (modify (with_runhistory
                     (Some (update_cost rh default_conf default_perf)))).

(** [run_initial_design()] *)
Definition run_initial_design : M Process unit :=
  '(default_conf, rand_inst, initial_seed, result) <- initial_run ;;
  abort_if_first_run_failed (fst (fst (fst result))) ;;;
  record_initial_run default_conf rand_inst initial_seed result.

(** One pass through the body of the main loop up to the test on
    [iteration]: transform, choose_next, intensify. *)
Definition iterate : M Process unit :=
  start_time <- on_world time_time ;;
  s <- gets self ;;
  rh <- match runhistory s with
        | Some rh => ret rh
        | None => raise (AttributeError "runhistory")
        end ;;
  let '(X, Y, model', rng') := transform (rh2EPM s) rh (model s) (rng s) in
  on_self (modify (fun s => with_rng rng' (with_model model' s))) ;;;
  challengers <- on_self (choose_next X Y) ;;
  now <- on_world time_time ;;
  let time_spend := (now - start_time)%Q in
  s <- gets self ;;
  '(inc, rh') <-
    on_world (intensify (inten s) challengers (incumbent s) rh
                (objective s) (py_max (1 # 100)%Q time_spend)) ;;
  on_self (modify (fun s => with_incumbent (Some inc)
                              (with_runhistory (Some rh') s))).

(** [x < 0] on a float *)
Definition negative (x : float) : bool :=
  match Qcompare x 0 with Lt => true | _ => false end.

(** The end of the loop body after [iteration += 1]: the three counters
    are read for the log line and read again, with [or] evaluated left
    to right, for the test.  The result is true when the loop breaks. *)
Definition poll_budget : M Process bool :=
  on_world get_remaing_time_budget ;;;
  on_world get_remaining_ta_budget ;;;
  on_world get_remaining_ta_runs ;;;
  t <- on_world get_remaing_time_budget ;;
  if negative t then ret true else
  b <- on_world get_remaining_ta_budget ;;
  if negative b then ret true else
  r <- on_world get_remaining_ta_runs ;;
  ret (negative r).

(** Why the loop was left. *)
Inductive Break := MaxItersReached | BudgetExhausted.

(** The [while True] loop, with [iteration] as it stands when the body
    is entered.  The result is the value of [iteration] and the [break]
    taken; [None] when [fuel] passes through the body do not suffice. *)
Fixpoint main_loop (fuel : nat) (iteration max_iters : Z) (p : Process)
  : option (Outcome Process (Z * Break)) :=
  match fuel with
  | O => None
  | S fuel' =>
      match iterate p with
      | Returns _ p1 =>
          if (iteration =? max_iters)%Z
          then Some (Returns (iteration, MaxItersReached) p1)
          else
            let iteration := (iteration + 1)%Z in
            match poll_budget p1 with
            | Returns true p2 =>
                Some (Returns (iteration, BudgetExhausted) p2)
            | Returns false p2 => main_loop fuel' iteration max_iters p2
            | Raises e p2 => Some (Raises e p2)
            | Exits c p2 => Some (Exits c p2)
            end
      | Raises e p1 => Some (Raises e p1)
      | Exits c p1 => Some (Exits c p1)
      end
  end.

(** The statements of [run] before the loop. *)
Definition run_prologue : M Process unit :=
  modify (fun p => with_world (Stats_start_timing (world p)) p) ;;;
  on_self (modify (with_runhistory (Some RunHistory_new))) ;;;
  run_initial_design.

(** [run(max_iters)]: returns [self.incumbent]. *)
Definition run (fuel : nat) (max_iters : Z) (p : Process)
  : option (Outcome Process (option Configuration)) :=
  match run_prologue p with
  | Returns _ p1 =>
      match main_loop fuel 1 max_iters p1 with
      | Some (Returns _ p2) => Some (Returns (incumbent (self p2)) p2)
      | Some (Raises e p2) => Some (Raises e p2)
      | Some (Exits c p2) => Some (Exits c p2)
      | None => None
      end
  | Raises e p1 => Some (Raises e p1)
  | Exits c p1 => Some (Exits c p1)
  end.
End SMBO_run.

(* ================================================================= *)
(** ** What the code relies on about its collaborators *)

Class EnvContracts {T : Types} (E : Env) : Prop := {
  (** numpy's [rand] draws from the half-open unit interval *)
  rand_unit : forall g,
    (0 <= fst (rng_rand g))%Q /\ (fst (rng_rand g) < 1)%Q;
  (** numpy's [randint(low, high)] draws from [low, high) *)
  randint_range : forall low high g,
    (low < high)%Z -> (low <= fst (rng_randint low high g) < high)%Z;
  (** [sample_configuration(size=n)] returns a list of [n]
      configurations, for [n] other than 1 *)
  sample_size_length : forall n c,
    n <> 1 -> length (fst (sample_configuration_size n c)) = n;
  (** a configuration equals itself *)
  values_eqb_refl : forall v, values_eqb v v = true;
  (** the incumbent that [intensify] returns has an aggregate cost in the
      history that it leaves *)
  intensify_cost : forall i ch inc rh o tb w,
    get_cost (snd (fst (intensify i ch inc rh o tb w)))
             (fst (fst (intensify i ch inc rh o tb w))) <> None
}.

(* ================================================================= *)
(** ** A small concrete environment

    Used to run the definitions above on concrete inputs. *)

Module Toy.

(** The world: the statuses that the next target-algorithm runs will
    report, a clock, the three budget counters, and a count of the calls
    made to the intensifier. *)
Record ToyWorld := {
  script : list StatusType;
  clock : Z;
  time_budget : Q;
  ta_budget : Q;
  ta_runs : Q;
  intensify_calls : nat
}.

#[export] Instance toy_types : Types := {|
  RandomState := Z;
  ConfigurationSpace := list Hyperparameter * Z;
  Values := Z;
  Model := Z;
  AdditionalInfo := unit;
  World := ToyWorld
|}.

Definition lcg (g : Z) : Z := ((1103515245 * g + 12345) mod 2147483648)%Z.

Definition toy_config (v : Z) : Configuration :=
  {| values := v; origin := None |}.

Definition toy_EI (m : Z) (eta : option float) (row : list float) : float :=
  match row with
  | x :: _ => inject_Z (Qnum x mod 7)
  | [] => 0%Q
  end.

Definition toy_executor_run (c : Configuration) (inst : string)
           (cutoff : float) (seed : Z) (spec : string) (w : ToyWorld)
  : (StatusType * float * float * unit) * ToyWorld :=
  let status := match script w with [] => SUCCESS | st :: _ => st end in
  ((status, 1%Q, 1%Q, tt),
   {| script := tl (script w); clock := (clock w + 1)%Z;
      time_budget := (time_budget w - 1)%Q;
      ta_budget := (ta_budget w - 1)%Q;
      ta_runs := (ta_runs w - 1)%Q;
      intensify_calls := intensify_calls w |}).

Definition toy_tick (w : ToyWorld) : ToyWorld :=
  {| script := script w; clock := (clock w + 1)%Z;
     time_budget := time_budget w; ta_budget := ta_budget w;
     ta_runs := ta_runs w; intensify_calls := intensify_calls w |}.

Definition toy_update_cost (rh : RunHistory) (c : Configuration) (v : float)
  : RunHistory :=
  {| data := data rh;
     cost_per_config :=
       (c, v) :: filter (fun e => negb (Z.eqb (values (fst e)) (values c)))
                        (cost_per_config rh) |}.

(** The first challenger becomes the incumbent; one run is charged. *)
Definition toy_intensify (i : Intensifier) (challengers : list Configuration)
           (inc : option Configuration) (rh : RunHistory) (o : Objective)
           (time_bound : float) (w : ToyWorld)
  : (Configuration * RunHistory) * ToyWorld :=
  let c := match challengers, inc with
           | c :: _, _ => c
           | [], Some c => c
           | [], None => toy_config 0
           end in
  ((c, toy_update_cost rh c 1%Q),
   {| script := script w; clock := (clock w + 1)%Z;
      time_budget := (time_budget w - 1)%Q;
      ta_budget := (ta_budget w - 1)%Q;
      ta_runs := (ta_runs w - 1)%Q;
      intensify_calls := S (intensify_calls w) |}).

#[export] Instance toy_env : Env := {|
  RandomState_seed := fun z => z;
  np_random_randint := fun _ w => (0%Z, w);
  rng_randint := fun low high g =>
    ((if (low <? high)%Z then low + g mod (high - low) else low)%Z, lcg g);
  rng_rand := fun g => (Qmake (g mod 1000) 1000, lcg g);
  log10 := fun x => x;
  random_randint := fun a _ w => (a, w);
  time_time := fun w => (inject_Z (clock w), toy_tick w);
  get_hyperparameters := fun c => fst c;
  get_default_configuration := fun _ => toy_config 0;
  sample_configuration := fun c =>
    (toy_config (snd c), (fst c, (snd c + 1)%Z));
  sample_configuration_size := fun n c =>
    (map (fun i => toy_config (snd c + Z.of_nat i)%Z) (seq 0 n),
     (fst c, (snd c + Z.of_nat n)%Z));
  single_configuration_error := fun _sorted =>
    if _sorted then AttributeError "configuration_space"
    else TypeError "object of type 'Configuration' has no len()";
  impute_inactive_values := fun c => c;
  get_array := fun c => [inject_Z (values c)];
  values_eqb := Z.eqb;
  RandomForestWithInstances := fun _ _ seed => seed;
  train := fun m _ _ => m;
  EI := toy_EI;
  maximize := fun m eta _ start =>
    (start, toy_EI m eta [inject_Z (values start)]);
  status_truth := fun _ => true;
  executor_run := toy_executor_run;
  objective_call := fun _ _ _ _ => 1%Q;
  RFRImputator_init := fun g => g;
  transform := fun _ _ m g => (([], []), m, g);
  intensify := toy_intensify;
  Stats_start_timing := fun w => w;
  get_remaing_time_budget := fun w => (time_budget w, w);
  get_remaining_ta_budget := fun w => (ta_budget w, w);
  get_remaining_ta_runs := fun w => (ta_runs w, w)
|}.

Definition toy_scenario (objective_name : string) : Scenario :=
  {| cs := ([CategoricalHyperparameter ["a"; "b"; "c"]%string;
             UniformFloatHyperparameter; Constant;
             UniformIntegerHyperparameter], 0%Z);
     feature_array := Some {| shape0 := 1; shape1 := 2 |};
     train_insts := ["inst1"%string];
     cutoff := 10%Q;
     par_factor := 10%Q;
     deterministic := true;
     run_obj := objective_name;
     instance_specific := [] |}.

(** A world whose first target-algorithm run reports [st], with the
    three budget counters at [budget]. *)
Definition toy_world (st : StatusType) (budget : Q) : ToyWorld :=
  {| script := [st]; clock := 0%Z; time_budget := budget;
     ta_budget := budget; ta_runs := budget; intensify_calls := 0 |}.

(** The SMBO object that [SMBO(toy_scenario "quality", rng=seed)] builds,
    written out. *)
Definition toy_smbo (seed sampler : Z) : SMBO :=
  let sc := toy_scenario "quality" in
  {| rng := lcg seed; scenario := sc;
     config_space := (fst (cs sc), sampler);
     types := [3; 0; 0; 0; 0; 0]%N;
     model := (seed mod 1234567980)%Z;
     eta := None; incumbent := None;
     inten := {| inten_instances := train_insts sc;
                 inten_cutoff := cutoff sc;
                 inten_deterministic := true;
                 run_obj_time := false;
                 inten_instance_specifics := [] |};
     rh2EPM := {| num_params := 4; success_states := [SUCCESS];
                  impute_censored_data := false; impute_state := None;
                  imputor := None; log_y := false |};
     objective := average_cost;
     runhistory := None |}.

Definition toy_process (st : StatusType) (budget : Q) : Process :=
  {| self := toy_smbo 1 0; world := toy_world st budget |}.

(** An object on which [choose_next] can be called: a fresh run history
    is attached. *)
Definition toy_searching (sampler : Z) : SMBO :=
  with_runhistory (Some RunHistory_new) (toy_smbo 1 sampler).

(** A run history with one successful run of the default configuration,
    whose aggregate cost is 7/2. *)
Definition toy_history : RunHistory :=
  {| data := [({| rk_config := toy_config 0; rk_instance := "inst1";
                  rk_seed := 0 |},
               {| rv_cost := (7 # 2)%Q; rv_time := 1%Q;
                  rv_status := SUCCESS; rv_additional_info := tt |})];
     cost_per_config := [(toy_config 0, (7 # 2)%Q)] |}.

(** An object in the state of the main loop: the default configuration
    is the incumbent and has been run once. *)
Definition toy_tuned : SMBO :=
  with_incumbent (Some (toy_config 0))
    (with_runhistory (Some toy_history) (toy_smbo 1 0)).

(** The process as [run] has it when it calls [run_initial_design]. *)
Definition toy_started (st : StatusType) (budget : Q) : Process :=
  {| self := toy_searching 0; world := toy_world st budget |}.

(** An object whose run history is not empty and that has no incumbent. *)
Definition toy_orphan : SMBO :=
  with_runhistory (Some toy_history) (toy_smbo 1 0).

(** The process of [toy_process] on a scenario that lists no training
    instance. *)
Definition toy_no_instance (st : StatusType) (budget : Q) : Process :=
  let s := toy_smbo 1 0 in
  let sc := scenario s in
  {| self :=
       {| rng := rng s;
          scenario := {| cs := cs sc; feature_array := feature_array sc;
                         train_insts := []; cutoff := cutoff sc;
                         par_factor := par_factor sc;
                         deterministic := deterministic sc;
                         run_obj := run_obj sc;
                         instance_specific := instance_specific sc |};
          config_space := config_space s; types := types s;
          model := model s; eta := eta s; incumbent := incumbent s;
          inten := inten s; rh2EPM := rh2EPM s; objective := objective s;
          runhistory := runhistory s |};
     world := toy_world st budget |}.

End Toy.


(* ================================================================= *)
(** ** Vocabulary of the statements *)

(** The entry of the type vector for one hyperparameter: the number of
    choices of a categorical one, zero for the others. *)
Definition type_entry (p : Hyperparameter) : N :=
  match p with
  | CategoricalHyperparameter choices => N.of_nat (length choices)
  | _ => 0%N
  end.

(** The hyperparameter classes that [__init__] accepts. *)
Definition supported (p : Hyperparameter) : bool :=
  match p with
  | OtherHyperparameter _ => false
  | _ => true
  end.

Section Vocabulary.
Context {T : Types} {E : Env}.

(** Number of instance-feature dimensions of a scenario. *)
Definition feature_dims (sc : Scenario) : nat :=
  match feature_array sc with
  | Some fa => shape1 fa
  | None => 0
  end.

(** [frame s s']: the two objects differ at most in the state of the
    generator [rng] and of the configuration space's sampler. *)
Definition frame (s s' : SMBO) : Prop :=
  scenario s' = scenario s /\ types s' = types s /\ model s' = model s /\
  eta s' = eta s /\ incumbent s' = incumbent s /\ inten s' = inten s /\
  rh2EPM s' = rh2EPM s /\ objective s' = objective s /\
  runhistory s' = runhistory s.

(** [returns_framed m P s]: from [s], [m] returns a result that
    satisfies [P], in a state that [frame] relates to [s]. *)
Definition returns_framed {A} (m : M SMBO A) (P : A -> Prop) (s : SMBO)
  : Prop :=
  exists a s', m s = Returns a s' /\ P a /\ frame s s'.

(** [agree s t]: the two objects hold the same generator state, sampler
    state, surrogate model, threshold, incumbent and run history. *)
Definition agree (s t : SMBO) : Prop :=
  rng s = rng t /\ config_space s = config_space t /\ model s = model t /\
  eta s = eta t /\ incumbent s = incumbent t /\ runhistory s = runhistory t.

(** Two outcomes with the same result, reached in agreeing states. *)
Definition agree_outcomes {A} (o1 o2 : Outcome SMBO A) : Prop :=
  match o1, o2 with
  | Returns a s, Returns b t => a = b /\ agree s t
  | Raises e s, Raises e' t => e = e' /\ agree s t
  | Exits c s, Exits c' t => c = c' /\ agree s t
  | _, _ => False
  end.

(** Two outcomes of the same kind with the same result; when both are
    returns, the states reached agree. *)
Definition same_result {A} (o1 o2 : Outcome SMBO A) : Prop :=
  match o1, o2 with
  | Returns a s, Returns b t => a = b /\ agree s t
  | Raises e _, Raises e' _ => e = e'
  | Exits c _, Exits c' _ => c = c'
  | _, _ => False
  end.

(** A method whose outcome depends on nothing but what [agree] compares. *)
Definition respects {A} (m : M SMBO A) : Prop :=
  forall s t, agree s t -> agree_outcomes (m s) (m t).

(** The object has a run history in which its incumbent has an aggregate
    cost: the state in which the main loop works. *)
Definition ready (s : SMBO) : Prop :=
  exists rh inc, runhistory s = Some rh /\ incumbent s = Some inc /\
                 get_cost rh inc <> None.

(** [rounds k p p']: from [p], [k] passes through the whole loop body,
    each ending with a budget test that lets the loop go on, lead to [p']. *)
Inductive rounds : nat -> Process -> Process -> Prop :=
| rounds_O : forall p, rounds 0 p p
| rounds_S : forall k p p1 p2 p3,
    rounds k p p1 ->
    iterate p1 = Returns tt p2 ->
    poll_budget p2 = Returns false p3 ->
    rounds (S k) p p3.

(** What the budget test of lines 233-240 observes in world [w].  The
    three counters are read once for the log line; then they are read
    again from left to right, and one of them is below zero, a counter
    being read only when the ones before it are not below zero. *)
Definition a_counter_is_negative (w : World) : Prop :=
  let w1 := snd (get_remaing_time_budget w) in
  let w2 := snd (get_remaining_ta_budget w1) in
  let w3 := snd (get_remaining_ta_runs w2) in
  let t := get_remaing_time_budget w3 in
  let b := get_remaining_ta_budget (snd t) in
  let r := get_remaining_ta_runs (snd b) in
  (fst t < 0 \/
   (0 <= fst t /\ fst b < 0) \/
   (0 <= fst t /\ 0 <= fst b /\ fst r < 0))%Q.

(** [passes k p p']: from [p], [k] passes through the whole loop body
    lead to [p']; after each of them the budget test observed no counter
    below zero and let the loop go on. *)
Inductive passes : nat -> Process -> Process -> Prop :=
| passes_O : forall p, passes 0 p p
| passes_S : forall k p p1 p2 p3,
    passes k p p1 ->
    iterate p1 = Returns tt p2 ->
    ~ a_counter_is_negative (world p2) ->
    poll_budget p2 = Returns false p3 ->
    passes (S k) p p3.

(** The state in which a call ends, however it ends. *)
Definition final_state {S A} (o : Outcome S A) : S :=
  match o with
  | Returns _ s => s
  | Raises _ s => s
  | Exits _ s => s
  end.

(** A method that, however it ends, changes at most the generator and the
    sampler of the object. *)
Definition keeps_frame {A} (m : M SMBO A) : Prop :=
  forall s, frame s (final_state (m s)).

(** The provenance tags that the three generators write. *)
Definition tagged (o : string) (c : Configuration) : Prop :=
  origin c = Some o.

(** The candidates whose acquisition value ties with [k]. *)
Definition ties_with {B} (k : float) (l : list (float * B))
  : list (float * B) :=
  filter (fun x => Qeq_bool (fst x) k) l.

(** The process with the run history, the incumbent and the threshold of
    its SMBO object replaced: what an earlier call may have left behind. *)
Definition left_behind (h : option RunHistory) (inc : option Configuration)
           (e : option float) (p : Process) : Process :=
  with_self (with_eta e (with_incumbent inc (with_runhistory h (self p)))) p.

(** The same outcome, in the state changed by [f]. *)
Definition map_state {S A} (f : S -> S) (o : Outcome S A) : Outcome S A :=
  match o with
  | Returns a s => Returns a (f s)
  | Raises e s => Raises e (f s)
  | Exits c s => Exits c (f s)
  end.

(** The process with the threshold of its SMBO object replaced. *)
Definition set_eta (e : option float) (p : Process) : Process :=
  with_self (with_eta e (self p)) p.

(** A call that neither reads nor writes the threshold. *)
Definition forgets_eta {A} (m : M Process A) : Prop :=
  forall e p, m (set_eta e p) = map_state (set_eta e) (m p).

(** Two calls of [run] that end alike: both return the same incumbent in
    the same state, or both raise the same exception, or both leave the
    process with the same code, or both need more fuel. *)
Definition same_run
           (o1 o2 : option (Outcome Process (option Configuration))) : Prop :=
  match o1, o2 with
  | Some (Returns a q), Some (Returns b q') => a = b /\ q = q'
  | Some (Raises e _), Some (Raises e' _) => e = e'
  | Some (Exits c _), Some (Exits c' _) => c = c'
  | None, None => True
  | _, _ => False
  end.

(** [advances n s s']: the generator of [s'] is the generator of [s]
    after [n] draws of [self.rng.rand()]. *)
Definition advances (n : nat) (s s' : SMBO) : Prop :=
  exists rs t, rand_size n s = Returns rs t /\ rng s' = rng t.

(** What lines 50-58 make of the [rng] argument: a generator, a seed
    that numpy refuses, or a type that the constructor refuses.  With
    [rng=None] the seed is the one numpy's global generator draws. *)
Inductive RngCheck := RngAccepted | RngBadSeed | RngBadType.

Definition rng_check (rng_arg : RngArg) (w : World) : RngCheck :=
  match rng_arg with
  | RngNone =>
      if valid_seed (fst (np_random_randint 10000 w))
      then RngAccepted else RngBadSeed
  | RngInt seed => if valid_seed seed then RngAccepted else RngBadSeed
  | RngRandomState _ => RngAccepted
  | RngOther _ => RngBadType
  end.

(** The runs and the aggregate costs of a run history by the values of
    the configurations, their provenance tags left out. *)
Definition untagged_runs (rh : RunHistory)
  : list (Values * string * Z * RunValue) :=
  map (fun e => (values (rk_config (fst e)), rk_instance (fst e),
                 rk_seed (fst e), snd e))
      (data rh).

Definition untagged_costs (rh : RunHistory) : list (Values * float) :=
  map (fun e => (values (fst e), snd e)) (cost_per_config rh).

(** The challengers that a call returned, none if it did not return. *)
Definition challengers_of {S} (o : Outcome S (list Configuration))
  : list Configuration :=
  match o with
  | Returns l _ => l
  | _ => []
  end.
End Vocabulary.

(* ================================================================= *)
(** ** Facts about lists, sorting and shuffling *)


Section SortingFacts.
Variable A : Type.
Variable le : A -> A -> bool.

Lemma insert_stable_perm (x : A) (l : list A) :
  Permutation (insert_stable le x l) (x :: l).
Proof.
  induction l as [|y l IH]; simpl.
  - apply Permutation_refl.
  - destruct (le x y).
    + apply Permutation_refl.
    + eapply perm_trans; [apply perm_skip, IH | apply perm_swap].
Qed.

Lemma stable_sort_perm (l : list A) : Permutation (stable_sort le l) l.
Proof.
  induction l as [|x l IH]; simpl.
  - constructor.
  - eapply perm_trans; [apply insert_stable_perm | now apply perm_skip].
Qed.

Lemma stable_sort_length (l : list A) :
  length (stable_sort le l) = length l.
Proof. apply Permutation_length, stable_sort_perm. Qed.

Hypothesis le_total : forall x y, le x y = false -> le y x = true.
Hypothesis le_trans :
  forall x y z, le x y = true -> le y z = true -> le x z = true.

Lemma insert_stable_sorted (x : A) (l : list A) :
  StronglySorted (fun a b => le a b = true) l ->
  StronglySorted (fun a b => le a b = true) (insert_stable le x l).
Proof.
  induction 1 as [|y l Hs IH Hy]; simpl.
  - repeat constructor.
  - destruct (le x y) eqn:Hxy.
    + constructor; [now constructor|].
      constructor; [exact Hxy|].
      eapply Forall_impl; [|exact Hy].
      intros z Hz. now apply le_trans with y.
    + constructor; [exact IH|].
      eapply Permutation_Forall.
      * apply Permutation_sym, insert_stable_perm.
      * constructor; [now apply le_total | exact Hy].
Qed.

Lemma stable_sort_sorted (l : list A) :
  StronglySorted (fun a b => le a b = true) (stable_sort le l).
Proof.
  induction l as [|x l IH]; simpl.
  - constructor.
  - now apply insert_stable_sorted.
Qed.
End SortingFacts.

Lemma lex_le_spec (x y : float * float) :
  lex_le x y = true <->
  (fst x < fst y \/ (fst x == fst y /\ snd x <= snd y))%Q.
Proof.
  unfold lex_le.
  destruct (Qcompare (fst x) (fst y)) eqn:C.
  - apply Qeq_alt in C. rewrite Qle_bool_iff. split.
    + intros H. right. now split.
    + intros [H|[_ H]]; [lra | exact H].
  - apply Qlt_alt in C. split; [now left | reflexivity].
  - apply Qgt_alt in C. split; [discriminate|].
    intros [H|[H _]]; lra.
Qed.

Lemma lex_le_total (x y : float * float) :
  lex_le x y = false -> lex_le y x = true.
Proof.
  intros H. apply lex_le_spec.
  destruct (Qlt_le_dec (fst y) (fst x)) as [L|L]; [now left|].
  destruct (Qlt_le_dec (snd y) (snd x)) as [L'|L'].
  - destruct (Qlt_le_dec (fst x) (fst y)) as [L2|L2].
    + assert (lex_le x y = true) by (apply lex_le_spec; now left).
      congruence.
    + right. split; lra.
  - assert (lex_le x y = true); [|congruence].
    apply lex_le_spec.
    destruct (Qlt_le_dec (fst x) (fst y)) as [L2|L2]; [now left|].
    right. split; lra.
Qed.

Lemma lex_le_trans (x y z : float * float) :
  lex_le x y = true -> lex_le y z = true -> lex_le x z = true.
Proof.
  rewrite !lex_le_spec.
  intros [H1|[H1 H1']] [H2|[H2 H2']].
  - left; lra.
  - left; lra.
  - left; lra.
  - right; split; lra.
Qed.

Lemma acq_desc_total {B} (x y : float * B) :
  Qle_bool (fst y) (fst x) = false -> Qle_bool (fst x) (fst y) = true.
Proof.
  intros H. apply Qle_bool_iff.
  destruct (Qlt_le_dec (fst y) (fst x)) as [L|L]; [|exact L].
  apply Qlt_le_weak in L. apply Qle_bool_iff in L. congruence.
Qed.

Lemma sort_by_acq_desc_perm {B} (l : list (float * B)) :
  Permutation (sort_by_acq_desc l) l.
Proof. apply stable_sort_perm. Qed.

Lemma StronglySorted_weaken {A} (R R' : A -> A -> Prop) (l : list A) :
  (forall a b, R a b -> R' a b) ->
  StronglySorted R l -> StronglySorted R' l.
Proof.
  intros HR. induction 1 as [|x l Hs IH Hx]; constructor.
  - exact IH.
  - eapply Forall_impl; [|exact Hx]. intros b. apply HR.
Qed.

Lemma sort_by_acq_desc_sorted {B} (l : list (float * B)) :
  StronglySorted (fun a b => (fst b <= fst a)%Q) (sort_by_acq_desc l).
Proof.
  unfold sort_by_acq_desc.
  eapply StronglySorted_weaken;
    [|apply stable_sort_sorted].
  - intros a b H. now apply Qle_bool_iff.
  - intros x y. apply acq_desc_total.
  - intros x y z H1 H2. rewrite Qle_bool_iff in *. lra.
Qed.

Lemma lexsort_rows_sorted {T : Types} (rows : list Row) :
  StronglySorted (fun a b => lex_le (fst a) (fst b) = true)
                 (lexsort_rows rows).
Proof.
  unfold lexsort_rows.
  apply stable_sort_sorted with (le := fun x y : Row => lex_le (fst x) (fst y)).
  - intros x y. apply lex_le_total.
  - intros x y z. apply lex_le_trans.
Qed.

(** Reversing an ascending list gives a descending one. *)
Lemma StronglySorted_rev {A} (R : A -> A -> Prop) (l : list A) :
  StronglySorted R l -> StronglySorted (fun a b => R b a) (rev l).
Proof.
  induction 1 as [|x l Hs IH Hx]; simpl.
  - constructor.
  - clear Hs. revert IH. generalize (rev_involutive l).
    assert (Hx' : Forall (R x) (rev l)).
    { apply Forall_forall. intros y Hy. apply in_rev in Hy.
      rewrite Forall_forall in Hx. now apply Hx. }
    clear Hx. intros _. revert Hx'.
    generalize (rev l) as m. clear l.
    induction m as [|y m IHm]; simpl; intros Hx' Hm.
    + repeat constructor.
    + inversion Hx'; subst. inversion Hm; subst.
      constructor; [now apply IHm|].
      apply Forall_app. split; [assumption|].
      now repeat constructor.
Qed.

Section ChainZip.
Variable A : Type.

Lemma chain_zip_length (a b : list A) :
  length (chain_zip a b) = 2 * Nat.min (length a) (length b).
Proof.
  revert b. induction a as [|x a IH]; intros [|y b]; simpl; try reflexivity.
  rewrite IH. lia.
Qed.

Lemma chain_zip_even (a b : list A) (i : nat) :
  i < Nat.min (length a) (length b) ->
  nth_error (chain_zip a b) (2 * i) = nth_error a i.
Proof.
  revert b i.
  induction a as [|x a IH]; intros [|y b] i H; simpl in H; try lia.
  destruct i as [|i]; [reflexivity|].
  replace (2 * S i) with (S (S (2 * i))) by lia.
  cbn [chain_zip nth_error]. apply IH. lia.
Qed.

Lemma chain_zip_odd (a b : list A) (i : nat) :
  i < Nat.min (length a) (length b) ->
  nth_error (chain_zip a b) (2 * i + 1) = nth_error b i.
Proof.
  revert b i.
  induction a as [|x a IH]; intros [|y b] i H; simpl in H; try lia.
  destruct i as [|i]; [reflexivity|].
  replace (2 * S i + 1) with (S (S (2 * i + 1))) by lia.
  cbn [chain_zip nth_error]. apply IH. lia.
Qed.
End ChainZip.

(** The index that [random.shuffle] computes lies in [0, i] when the draw
    lies in the unit interval. *)
Lemma py_int_unit (r : float) (n : Z) :
  (0 <= r)%Q -> (r < 1)%Q -> (0 < n)%Z ->
  (0 <= py_int (r * inject_Z n)%Q < n)%Z.
Proof.
  destruct r as [a b]. unfold Qle, Qlt, py_int. simpl.
  intros Ha Hb Hn.
  rewrite Z.mul_1_r in Ha, Hb.
  rewrite Pos.mul_1_r.
  split.
  - apply Z.quot_pos; nia.
  - apply Z.quot_lt_upper_bound; nia.
Qed.

Lemma set_item_length {A} (l : list A) (i : nat) (v : A) :
  length (set_item l i v) = length l.
Proof.
  revert i. induction l as [|h t IH]; intros [|i]; simpl; auto.
Qed.

Lemma swap_items_in_range {A} (x : list A) (i : nat) (j : Z) :
  i < length x -> (0 <= j < Z.of_nat (length x))%Z ->
  exists x', swap_items x i j = Some x' /\ length x' = length x.
Proof.
  intros Hi Hj. unfold swap_items, norm_index.
  destruct (j <? 0)%Z eqn:J0; [apply Z.ltb_lt in J0; lia|].
  destruct (j <? Z.of_nat (length x))%Z eqn:J1;
    [|apply Z.ltb_ge in J1; lia].
  destruct (nth_error x i) as [xi|] eqn:Ni;
    [|apply nth_error_None in Ni; lia].
  destruct (nth_error x (Z.to_nat j)) as [xj|] eqn:Nj;
    [|apply nth_error_None in Nj; lia].
  eexists. split; [reflexivity|].
  now rewrite !set_item_length.
Qed.

Section Frames.
Context {T : Types} {E : Env}.

Lemma frame_refl (s : SMBO) : frame s s.
Proof. unfold frame. tauto. Qed.

Lemma frame_trans (s1 s2 s3 : SMBO) :
  frame s1 s2 -> frame s2 s3 -> frame s1 s3.
Proof.
  unfold frame. intros H1 H2.
  decompose [and] H1; decompose [and] H2; repeat split; congruence.
Qed.

Lemma frame_with_rng (g : RandomState) (s : SMBO) : frame s (with_rng g s).
Proof. unfold frame; simpl; tauto. Qed.

Lemma frame_with_config_space (c : ConfigurationSpace) (s : SMBO) :
  frame s (with_config_space c s).
Proof. unfold frame; simpl; tauto. Qed.

Lemma returns_framed_bind {A B} (m : M SMBO A) (k : A -> M SMBO B)
      (P : A -> Prop) (Q : B -> Prop) (s : SMBO) :
  returns_framed m P s ->
  (forall a s', P a -> frame s s' -> returns_framed (k a) Q s') ->
  returns_framed (bind m k) Q s.
Proof.
  intros (a & s1 & Hm & Pa & F1) Hk.
  destruct (Hk a s1 Pa F1) as (b & s2 & Hk' & Qb & F2).
  exists b, s2. unfold bind. rewrite Hm.
  split; [exact Hk'|]. split; [exact Qb|].
  now apply frame_trans with s1.
Qed.

Lemma returns_framed_ret {A} (a : A) (P : A -> Prop) (s : SMBO) :
  P a -> returns_framed (ret a) P s.
Proof.
  intros. exists a, s. split; [reflexivity|]. split; [assumption|].
  apply frame_refl.
Qed.

Lemma returns_framed_get {A} (k : SMBO -> M SMBO A) (Q : A -> Prop)
      (s : SMBO) :
  returns_framed (k s) Q s -> returns_framed (bind get k) Q s.
Proof. unfold returns_framed, bind, get. auto. Qed.

Lemma rand_framed `{!EnvContracts E} (s : SMBO) :
  returns_framed rand (fun r => (0 <= r)%Q /\ (r < 1)%Q) s.
Proof.
  unfold returns_framed, rand.
  pose proof (rand_unit (rng s)) as H.
  destruct (rng_rand (rng s)) as [r g]. simpl in H.
  exists r, (with_rng g s).
  split; [reflexivity|]. split; [exact H|]. apply frame_with_rng.
Qed.

Lemma rand_size_framed `{!EnvContracts E} (n : nat) (s : SMBO) :
  returns_framed (rand_size n) (fun l => length l = n) s.
Proof.
  revert s. induction n as [|n IH]; intros s; simpl.
  - now apply returns_framed_ret.
  - eapply returns_framed_bind; [apply rand_framed|].
    intros r s1 _ _.
    eapply returns_framed_bind; [apply IH|].
    intros l s2 Hl _. apply returns_framed_ret. simpl. now rewrite Hl.
Qed.

Lemma sample_one_framed (s : SMBO) :
  returns_framed sample_one (fun _ => True) s.
Proof.
  unfold returns_framed, sample_one.
  destruct (sample_configuration (config_space s)) as [c cs'].
  exists c, (with_config_space cs' s).
  split; [reflexivity|]. split; [exact I|]. apply frame_with_config_space.
Qed.

Lemma sample_size_framed `{!EnvContracts E} (n : nat) (s : SMBO) :
  n <> 1 ->
  returns_framed (sample_size n) (fun l => length l = n) s.
Proof.
  intros Hn. unfold returns_framed, sample_size.
  pose proof (sample_size_length (config_space s) Hn) as H.
  destruct (sample_configuration_size n (config_space s)) as [l cs'].
  exists l, (with_config_space cs' s).
  split; [reflexivity|]. split; [exact H|]. apply frame_with_config_space.
Qed.

Lemma shuffle_down_framed `{!EnvContracts E} {A} (i : nat) (x : list A)
      (s : SMBO) :
  i < length x ->
  returns_framed (shuffle_down rand i x) (fun x' => length x' = length x) s.
Proof.
  revert x s. induction i as [|i IH]; intros x s Hi.
  - now apply returns_framed_ret.
  - cbn [shuffle_down].
    eapply returns_framed_bind; [apply rand_framed|].
    intros r s1 [Hr0 Hr1] _.
    assert (Hj : (0 <= py_int (r * inject_Z (Z.of_nat (S i) + 1))%Q
                  < Z.of_nat (S i) + 1)%Z)
      by (apply py_int_unit; auto; lia).
    destruct (swap_items_in_range x (i := S i)
                (j := py_int (r * inject_Z (Z.of_nat (S i) + 1))%Q))
      as (x' & Hsw & Hlen); [lia | lia |].
    rewrite Hsw.
    destruct (IH x' s1) as (x'' & s2 & Hrun & Hl & F); [lia|].
    exists x'', s2.
    split; [exact Hrun|]. split; [congruence | exact F].
Qed.

Lemma shuffle_framed `{!EnvContracts E} {A} (x : list A) (s : SMBO) :
  returns_framed (shuffle rand x) (fun x' => length x' = length x) s.
Proof.
  unfold shuffle. destruct x as [|a x].
  - now apply returns_framed_ret.
  - apply shuffle_down_framed. simpl. lia.
Qed.
End Frames.

(* ================================================================= *)
(** ** The candidate generators *)

Section Generators.
Context {T : Types} {E : Env} `{!EnvContracts E}.

Lemma frame_model (s s' : SMBO) : frame s s' -> model s' = model s.
Proof. unfold frame. tauto. Qed.

Lemma frame_eta (s s' : SMBO) : frame s s' -> eta s' = eta s.
Proof. unfold frame. tauto. Qed.

Lemma frame_incumbent (s s' : SMBO) :
  frame s s' -> incumbent s' = incumbent s.
Proof. unfold frame. tauto. Qed.

Lemma frame_runhistory (s s' : SMBO) :
  frame s s' -> runhistory s' = runhistory s.
Proof. unfold frame. tauto. Qed.

(** Away from [num_points = 1] the sample is a list. *)
Lemma random_search_eq (n : nat) (_sorted : bool) :
  n <> 1 ->
  _get_next_by_random_search n _sorted = random_search_on_list n _sorted.
Proof.
  intros Hn. unfold _get_next_by_random_search.
  destruct (Nat.eqb_spec n 1) as [e|_]; [contradiction | reflexivity].
Qed.

(** The unscored random search returns [num_points] configurations, each
    with the dummy acquisition value 0. *)
Lemma random_search_unsorted (n : nat) (s : SMBO) :
  n <> 1 ->
  returns_framed (_get_next_by_random_search n false)
                 (fun l => length l = n) s.
Proof.
  intros Hn. rewrite (random_search_eq _ Hn). unfold random_search_on_list.
  eapply returns_framed_bind; [apply sample_size_framed; exact Hn|].
  intros l s1 Hl _. apply returns_framed_ret.
  now rewrite length_map.
Qed.

(** The scored random search, step by step: [n] configurations are
    sampled, scored with the acquisition function as it is bound, [n]
    tie-break keys are drawn from [self.rng], and the rows come back in
    the reverse of the lexsort order. *)
Lemma random_search_sorted (n : nat) (s : SMBO) :
  n <> 1 ->
  exists rand_configs s1 random s2,
    sample_size n s = Returns rand_configs s1 /\
    rand_size n s1 = Returns random s2 /\
    length rand_configs = n /\ length random = n /\ frame s s2 /\
    _get_next_by_random_search n true s =
    Returns
      (map (fun r : Row => (fst (fst r), snd r))
         (rev (lexsort_rows
                 (combine
                    (combine
                       (map (fun c => EI (model s) (eta s)
                                         (get_array (impute_inactive_values c)))
                            rand_configs)
                       random)
                    (map (set_origin "Random Search (sorted)") rand_configs)))))
      s2.
Proof.
  intros Hn.
  destruct (sample_size_framed s Hn) as (cfgs & s1 & H1 & L1 & F1).
  destruct (rand_size_framed n s1) as (rnd & s2 & H2 & L2 & F2).
  exists cfgs, s1, rnd, s2.
  repeat (split; [assumption|]).
  split; [now apply frame_trans with s1|].
  rewrite (random_search_eq _ Hn).
  unfold random_search_on_list, bind at 1. rewrite H1.
  unfold bind at 1, get at 1. unfold bind at 1.
  rewrite !length_map, L1, H2. unfold ret.
  rewrite (frame_model F1), (frame_eta F1), map_map. reflexivity.
Qed.

Lemma random_search_sorted_length (n : nat) (s : SMBO) :
  n <> 1 ->
  returns_framed (_get_next_by_random_search n true)
                 (fun l => length l = n) s.
Proof.
  intros Hn.
  destruct (random_search_sorted s Hn)
    as (cfgs & s1 & rnd & s2 & _ & _ & L1 & L2 & F & H).
  eexists _, s2. split; [exact H|]. split; [|exact F].
  unfold lexsort_rows.
  rewrite length_map, length_rev, stable_sort_length.
  rewrite !length_combine, !length_map, L1, L2. lia.
Qed.

Lemma local_searches_framed (range : list nat)
      (acc : list (float * Configuration)) (s : SMBO) :
  returns_framed (local_searches range acc)
                 (fun l => length l = length acc + length range) s.
Proof.
  revert acc s. induction range as [|i range IH]; intros acc s.
  - apply returns_framed_ret. simpl. lia.
  - cbn [local_searches].
    apply returns_framed_get.
    eapply returns_framed_bind with (P := fun _ => True).
    + destruct i, (incumbent s);
        try apply sample_one_framed; now apply returns_framed_ret.
    + intros start s1 _ F1.
      apply returns_framed_get.
      destruct (maximize (model s1) (eta s1) (config_space s1) start)
        as [configuration acq_val].
      destruct (IH (acc ++ [(acq_val, set_origin "Local Search" configuration)])
                  s1) as (l & s2 & H & L & F2).
      exists l, s2. split; [exact H|]. split; [|exact F2].
      rewrite L, length_app. simpl. lia.
Qed.

(** The local search returns [num_points] candidates, in descending
    order of their acquisition value. *)
Lemma local_search_framed (n : nat) (s : SMBO) :
  returns_framed (_get_next_by_local_search n)
    (fun l => length l = n /\
              StronglySorted (fun a b => (fst b <= fst a)%Q) l) s.
Proof.
  unfold _get_next_by_local_search.
  eapply returns_framed_bind; [apply local_searches_framed|].
  intros l0 s1 L0 _. simpl in L0. rewrite length_seq in L0.
  eapply returns_framed_bind; [apply shuffle_framed|].
  intros l1 s2 L1 _. apply returns_framed_ret. split.
  - rewrite (Permutation_length (sort_by_acq_desc_perm l1)). congruence.
  - apply sort_by_acq_desc_sorted.
Qed.
End Generators.

(* ================================================================= *)
(** ** [choose_next] *)

Section ChooseNext.
Context {T : Types} {E : Env}.

(** The threshold computation reads the object and leaves it as it is. *)
Lemma incumbent_value_state (s s' : SMBO) (v : float) :
  incumbent_value s = Returns v s' -> s' = s.
Proof.
  unfold incumbent_value, bind, get, ret, raise.
  destruct (runhistory s) as [rh|]; [|discriminate].
  destruct (rh_empty rh); [intros H; now inversion H|].
  destruct (incumbent s) as [inc|]; [|discriminate].
  destruct (get_cost rh inc); [intros H; now inversion H | discriminate].
Qed.

Lemma incumbent_value_empty (s : SMBO) (rh : RunHistory) :
  runhistory s = Some rh -> rh_empty rh = true ->
  incumbent_value s = Returns 0%Q s.
Proof.
  intros H1 H2. unfold incumbent_value, bind, get, ret.
  now rewrite H1, H2.
Qed.

Lemma incumbent_value_cost (s : SMBO) (rh : RunHistory)
      (inc : Configuration) (c : float) :
  runhistory s = Some rh -> rh_empty rh = false ->
  incumbent s = Some inc -> get_cost rh inc = Some c ->
  incumbent_value s = Returns c s.
Proof.
  intros H1 H2 H3 H4. unfold incumbent_value, bind, get, ret.
  now rewrite H1, H2, H3, H4.
Qed.

(** Training the model does not change what the threshold is. *)
Lemma incumbent_value_with_model (s : SMBO) (m : Model) (v : float) :
  incumbent_value s = Returns v s ->
  incumbent_value (with_model m s) = Returns v (with_model m s).
Proof.
  unfold incumbent_value, bind, get, ret, raise. simpl.
  destruct (runhistory s) as [rh|]; [|discriminate].
  destruct (rh_empty rh); [intros H; now inversion H|].
  destruct (incumbent s) as [inc|]; [|discriminate].
  destruct (get_cost rh inc); [intros H; now inversion H | discriminate].
Qed.

(** The state in which the generators of [choose_next] start: the model
    is retrained and the acquisition function is bound to [v]. *)
Lemma choose_next_pools_bound (X : Matrix) (Y : list float) (s : SMBO)
      (v : float) :
  incumbent_value s = Returns v s ->
  choose_next_pools X Y s =
  generate_pools (with_eta (Some v) (with_model (train (model s) X Y) s)).
Proof.
  intros H. unfold choose_next_pools.
  cbv [bind modify].
  now rewrite (incumbent_value_with_model _ H).
Qed.

Context `{!EnvContracts E}.

(** The three generator calls of [choose_next], one after the other. *)
Lemma choose_next_pools_steps (X : Matrix) (Y : list float) (s : SMBO)
      (v : float) :
  incumbent_value s = Returns v s ->
  exists unscored s1 sorted s2 local s3,
    let s0 := with_eta (Some v) (with_model (train (model s) X Y) s) in
    _get_next_by_random_search 1010 false s0 = Returns unscored s1 /\
    _get_next_by_random_search 1000 true s1 = Returns sorted s2 /\
    _get_next_by_local_search 10 s2 = Returns local s3 /\
    length unscored = 1010 /\ length sorted = 1000 /\ length local = 10 /\
    frame s0 s1 /\ frame s0 s3 /\
    choose_next_pools X Y s =
    Returns (map snd (sort_by_acq_desc (sorted ++ local)), map snd unscored) s3.
Proof.
  intros Hv.
  set (s0 := with_eta (Some v) (with_model (train (model s) X Y) s)).
  destruct (random_search_unsorted (n := 1010) s0) as (u & s1 & H1 & L1 & F1);
    [discriminate|].
  destruct (random_search_sorted_length (n := 1000) s1)
    as (so & s2 & H2 & L2 & F2); [discriminate|].
  destruct (local_search_framed 10 s2) as (lo & s3 & H3 & [L3 _] & F3).
  exists u, s1, so, s2, lo, s3. cbv zeta.
  repeat (split; [assumption|]).
  split; [eauto using frame_trans|].
  rewrite (choose_next_pools_bound X Y Hv). fold s0.
  unfold generate_pools.
  unfold bind at 1. rewrite H1.
  unfold bind at 1. rewrite H2.
  unfold bind at 1. rewrite H3. reflexivity.
Qed.

Lemma choose_next_of_pools (X : Matrix) (Y : list float) (s s' : SMBO)
      (by_acq unscored : list Configuration) :
  choose_next_pools X Y s = Returns (by_acq, unscored) s' ->
  choose_next X Y s = Returns (chain_zip by_acq unscored) s'.
Proof. intros H. unfold choose_next, bind. now rewrite H. Qed.
End ChooseNext.

Section ChooseNextClaims.
Context {T : Types} {E : Env} `{!EnvContracts E}.

(** C8.  In a call to [choose_next] on an object whose run history is
    empty, the acquisition function's threshold [eta] is bound to 0.0; on
    an object whose run history is not empty, it is bound to the aggregate
    cost that the run history holds for the incumbent.  The call returns,
    and [eta] still has that value when it does. *)
Theorem choose_next_eta (X : Matrix) (Y : list float) (s : SMBO)
        (rh : RunHistory) :
  runhistory s = Some rh ->
  (rh_empty rh = true ->
   exists challengers s',
     choose_next X Y s = Returns challengers s' /\ eta s' = Some 0%Q) /\
  (forall inc c,
     rh_empty rh = false -> incumbent s = Some inc ->
     get_cost rh inc = Some c ->
     exists challengers s',
       choose_next X Y s = Returns challengers s' /\ eta s' = Some c).
Proof.
  intros Hrh.
  assert (K : forall v, incumbent_value s = Returns v s ->
              exists challengers s',
                choose_next X Y s = Returns challengers s' /\
                eta s' = Some v).
  { intros v Hv.
    destruct (choose_next_pools_steps X Y Hv)
      as (u & s1 & so & s2 & lo & s3 & _ & _ & _ & _ & _ & _ & _ & F & H).
    eexists _, s3. split; [apply choose_next_of_pools; exact H|].
    now rewrite (frame_eta F). }
  split.
  - intros He. apply K. now apply incumbent_value_empty with rh.
  - intros inc c He Hi Hc. apply K.
    now apply incumbent_value_cost with rh inc.
Qed.

(** C10.  When the threshold can be computed, [choose_next] returns
    exactly 2020 configurations: the merge sorted by acquisition value has
    exactly 1010 elements, 1000 from the sorted random search and 10 from
    the local search, and it is zipped with an unscored random pool of
    exactly 1010 configurations. *)
Theorem choose_next_2020 (X : Matrix) (Y : list float) (s : SMBO)
        (v : float) :
  incumbent_value s = Returns v s ->
  exists unscored s1 sorted s2 local s3,
    let s0 := with_eta (Some v) (with_model (train (model s) X Y) s) in
    _get_next_by_random_search 1010 false s0 = Returns unscored s1 /\
    _get_next_by_random_search 1000 true s1 = Returns sorted s2 /\
    _get_next_by_local_search 10 s2 = Returns local s3 /\
    length sorted = 1000 /\ length local = 10 /\
    length (sort_by_acq_desc (sorted ++ local)) = 1010 /\
    length unscored = 1010 /\
    choose_next X Y s =
    Returns (chain_zip (map snd (sort_by_acq_desc (sorted ++ local)))
                       (map snd unscored)) s3 /\
    length (chain_zip (map snd (sort_by_acq_desc (sorted ++ local)))
                      (map snd unscored)) = 2020.
Proof.
  intros Hv.
  destruct (choose_next_pools_steps X Y Hv)
    as (u & s1 & so & s2 & lo & s3 & H1 & H2 & H3 & L1 & L2 & L3 & _ & _ & H).
  exists u, s1, so, s2, lo, s3. cbv zeta.
  assert (Lm : length (sort_by_acq_desc (so ++ lo)) = 1010).
  { rewrite (Permutation_length (sort_by_acq_desc_perm (so ++ lo))).
    rewrite length_app, L2, L3. reflexivity. }
  repeat (split; [assumption|]).
  split; [apply choose_next_of_pools; exact H|].
  rewrite chain_zip_length, !length_map, Lm, L1. reflexivity.
Qed.

(** C2.  When the threshold can be computed, the challengers returned by
    [choose_next] alternate the two pools: the element at index [2 i] is
    the [i]-th element of the merge of the sorted random search and the
    local search, which is in descending order of acquisition value, and
    the element at index [2 i + 1] is the [i]-th element of the unscored
    random pool. *)
Theorem choose_next_alternates (X : Matrix) (Y : list float) (s : SMBO)
        (v : float) :
  incumbent_value s = Returns v s ->
  exists unscored s1 sorted s2 local s3 merged challengers,
    let s0 := with_eta (Some v) (with_model (train (model s) X Y) s) in
    _get_next_by_random_search 1010 false s0 = Returns unscored s1 /\
    _get_next_by_random_search 1000 true s1 = Returns sorted s2 /\
    _get_next_by_local_search 10 s2 = Returns local s3 /\
    Permutation merged (sorted ++ local) /\
    StronglySorted (fun a b => (fst b <= fst a)%Q) merged /\
    choose_next X Y s = Returns challengers s3 /\
    length merged = 1010 /\ length unscored = 1010 /\
    forall i, i < 1010 ->
      nth_error challengers (2 * i) = nth_error (map snd merged) i /\
      nth_error challengers (2 * i + 1) = nth_error (map snd unscored) i.
Proof.
  intros Hv.
  destruct (choose_next_pools_steps X Y Hv)
    as (u & s1 & so & s2 & lo & s3 & H1 & H2 & H3 & L1 & L2 & L3 & _ & _ & H).
  exists u, s1, so, s2, lo, s3, (sort_by_acq_desc (so ++ lo)).
  eexists. cbv zeta.
  assert (Lm : length (sort_by_acq_desc (so ++ lo)) = 1010).
  { rewrite (Permutation_length (sort_by_acq_desc_perm (so ++ lo))).
    rewrite length_app, L2, L3. reflexivity. }
  repeat (split; [assumption|]).
  split; [apply sort_by_acq_desc_perm|].
  split; [apply sort_by_acq_desc_sorted|].
  split; [apply choose_next_of_pools; exact H|].
  repeat (split; [assumption|]).
  intros i Hi. split.
  - apply chain_zip_even. rewrite !length_map, Lm, L1. apply Hi.
  - apply chain_zip_odd. rewrite !length_map, Lm, L1. apply Hi.
Qed.

End ChooseNextClaims.

(* ================================================================= *)
(** ** Construction *)

Lemma set_item_app {A} (done rest : list A) (old v : A) :
  set_item (done ++ old :: rest) (length done) v = done ++ v :: rest.
Proof.
  induction done as [|d done IH]; simpl; [reflexivity|].
  now rewrite IH.
Qed.

Section Construction.
Context {T : Types} {E : Env}.

(** The loop over the hyperparameters writes [type_entry] at each index. *)
Lemma fill_types_supported {S} (params : list Hyperparameter)
      (done : list N) (st : S) :
  forallb supported params = true ->
  fill_types (length done) params (done ++ repeat 0%N (length params)) st =
  Returns (done ++ map type_entry params) st.
Proof.
  revert done. induction params as [|p params IH]; intros done Hs.
  - simpl. now rewrite app_nil_r.
  - simpl in Hs. apply andb_prop in Hs. destruct Hs as [Hp Hs].
    assert (Hnext : forall v,
      fill_types (Datatypes.S (length done)) params
                 (done ++ v :: repeat 0%N (length params)) st =
      Returns (done ++ v :: map type_entry params) st).
    { intros v.
      replace (Datatypes.S (length done)) with (length (done ++ [v]))
        by (rewrite length_app; simpl; lia).
      replace (done ++ v :: repeat 0%N (length params))
        with ((done ++ [v]) ++ repeat 0%N (length params))
        by (now rewrite <- app_assoc).
      rewrite (IH (done ++ [v]) Hs). now rewrite <- app_assoc. }
    destruct p; try discriminate Hp;
      cbn [fill_types length repeat map type_entry];
      rewrite ?set_item_app; apply Hnext.
Qed.

Lemma fill_types_unsupported {S} (params : list Hyperparameter)
      (i : nat) (types : list N) (st : S) :
  forallb supported params = false ->
  exists msg, fill_types i params types st = Raises (TypeError msg) st.
Proof.
  revert i types. induction params as [|p params IH]; intros i types Hs.
  - discriminate.
  - simpl in Hs. destruct p; simpl in Hs; cbn [fill_types];
      try (apply IH; exact Hs).
    eexists. reflexivity.
Qed.

Lemma build_types_supported {S} (sc : Scenario) (st : S) :
  forallb supported (get_hyperparameters (cs sc)) = true ->
  build_types sc st =
  Returns (map type_entry (get_hyperparameters (cs sc))
           ++ repeat 0%N (feature_dims sc)) st.
Proof.
  intros Hs. unfold build_types, bind, feature_dims.
  pose proof (fill_types_supported _ [] st Hs) as F.
  cbn [app length] in F. rewrite F.
  destruct (feature_array sc); unfold ret; [reflexivity|].
  cbn [repeat]. now rewrite app_nil_r.
Qed.

Lemma build_types_unsupported {S} (sc : Scenario) (st : S) :
  forallb supported (get_hyperparameters (cs sc)) = false ->
  exists msg, build_types sc st = Raises (TypeError msg) st.
Proof.
  intros Hs. unfold build_types, bind.
  destruct (fill_types_unsupported _ 0
              (repeat 0%N (length (get_hyperparameters (cs sc)))) st Hs)
    as [msg H].
  exists msg. now rewrite H.
Qed.

(** What a returning construction has built. *)
Lemma SMBO__init__inv (sc : Scenario) (rng_arg : RngArg) (w w' : World)
      (smbo : SMBO) :
  SMBO__init__ sc rng_arg w = Returns smbo w' ->
  forallb supported (get_hyperparameters (cs sc)) = true /\
  types smbo = map type_entry (get_hyperparameters (cs sc))
               ++ repeat 0%N (feature_dims sc) /\
  (rh2EPM smbo, objective smbo) =
  build_rh2EPM sc (length (get_hyperparameters (cs sc))) /\
  scenario smbo = sc /\ config_space smbo = cs sc /\
  incumbent smbo = None /\ runhistory smbo = None /\ eta smbo = None.
Proof.
  unfold SMBO__init__. unfold bind at 1.
  set (pick := match rng_arg with RngNone => _ | _ => _ end).
  destruct (pick w) as [rng0 w0| |]; try discriminate.
  unfold bind at 1.
  destruct (forallb supported (get_hyperparameters (cs sc))) eqn:Hs.
  - rewrite (build_types_supported sc w0 Hs).
    destruct (rng_randint 0 1234567980 rng0) as [seed rng1].
    destruct (build_rh2EPM sc (length (get_hyperparameters (cs sc))))
      as [r o] eqn:Hb.
    unfold ret. intros H. inversion H; subst; simpl.
    repeat split; reflexivity.
  - destruct (build_types_unsupported sc w0 Hs) as [msg H].
    rewrite H. discriminate.
Qed.

(** Construction returns when the generator argument has one of the
    accepted types and every hyperparameter has a known class. *)
Lemma SMBO__init__returns (sc : Scenario) (rng_arg : RngArg) (w : World) :
  forallb supported (get_hyperparameters (cs sc)) = true ->
  rng_check rng_arg w = RngAccepted ->
  exists smbo w', SMBO__init__ sc rng_arg w = Returns smbo w'.
Proof.
  intros Hs Hr. unfold SMBO__init__. unfold bind at 1.
  set (pick := match rng_arg with RngNone => _ | _ => _ end).
  assert (Hp : exists rng0 w0, pick w = Returns rng0 w0).
  { subst pick. revert Hr. unfold rng_check, new_RandomState.
    destruct rng_arg; unfold bind, ret, raise.
    - destruct (np_random_randint 10000 w) as [z w1]. simpl.
      destruct (valid_seed z); [eauto | discriminate].
    - destruct (valid_seed seed); [eauto | discriminate].
    - eauto.
    - discriminate. }
  destruct Hp as (rng0 & w0 & ->).
  unfold bind at 1. rewrite (build_types_supported sc w0 Hs).
  destruct (rng_randint 0 1234567980 rng0) as [seed rng1].
  destruct (build_rh2EPM sc (length (get_hyperparameters (cs sc)))).
  unfold ret. eauto.
Qed.

(** C7.  The type vector of a constructed SMBO object lists, in the
    order in which the configuration space declares its hyperparameters,
    the number of choices for a categorical hyperparameter and 0 for a
    continuous, integer or constant one, followed by one 0 per
    instance-feature dimension; its length is the number of
    hyperparameters plus the number of instance-feature dimensions. *)
Theorem types_vector (sc : Scenario) (rng_arg : RngArg) (w w' : World)
        (smbo : SMBO) :
  SMBO__init__ sc rng_arg w = Returns smbo w' ->
  types smbo = map type_entry (get_hyperparameters (cs sc))
               ++ repeat 0%N (feature_dims sc) /\
  length (types smbo) =
  length (get_hyperparameters (cs sc)) + feature_dims sc.
Proof.
  intros H. apply SMBO__init__inv in H.
  destruct H as (_ & Ht & _). split; [exact Ht|].
  now rewrite Ht, length_app, length_map, repeat_length.
Qed.

(** C6.  A constructed SMBO object imputes censored data if and only if
    the objective is runtime.  In that case the imputor's threshold is
    [log10 (cutoff * par_factor)] and its cutoff [log10 cutoff], timed-out
    runs are the ones imputed, and costs are taken on the log scale.
    Otherwise no imputor and no imputation state are configured.  In both
    cases SUCCESS is the only success state. *)
Theorem imputation_iff_runtime (sc : Scenario) (rng_arg : RngArg)
        (w w' : World) (smbo : SMBO) :
  SMBO__init__ sc rng_arg w = Returns smbo w' ->
  (impute_censored_data (rh2EPM smbo) = true <-> run_obj sc = "runtime"%string)
  /\
  (run_obj sc = "runtime"%string ->
   imputor (rh2EPM smbo) =
   Some {| imp_cutoff := log10 (cutoff sc);
           imp_threshold := log10 (cutoff sc * par_factor sc)%Q;
           change_threshold := (1 # 100)%Q;
           max_iter := 10 |} /\
   impute_state (rh2EPM smbo) = Some [TIMEOUT] /\
   success_states (rh2EPM smbo) = [SUCCESS] /\
   log_y (rh2EPM smbo) = true /\
   objective smbo = total_cost)
  /\
  (run_obj sc <> "runtime"%string ->
   success_states (rh2EPM smbo) = [SUCCESS] /\
   impute_censored_data (rh2EPM smbo) = false /\
   impute_state (rh2EPM smbo) = None /\
   imputor (rh2EPM smbo) = None /\
   log_y (rh2EPM smbo) = false /\
   objective smbo = average_cost).
Proof.
  intros H. apply SMBO__init__inv in H.
  destruct H as (_ & _ & Hb & _).
  unfold build_rh2EPM in Hb.
  destruct (String.eqb (run_obj sc) "runtime") eqn:Hr.
  - injection Hb as Hr2 Ho. rewrite Hr2, Ho. simpl.
    apply String.eqb_eq in Hr.
    split; [tauto|]. split; [|congruence].
    intros _. repeat split; reflexivity.
  - injection Hb as Hr2 Ho. rewrite Hr2, Ho. simpl.
    apply String.eqb_neq in Hr.
    split; [split; [discriminate | contradiction]|].
    split; [contradiction|].
    intros _. repeat split; reflexivity.
Qed.
End Construction.

(* ================================================================= *)
(** ** What [choose_next] depends on *)

Section Determinism.
Context {T : Types} {E : Env}.

Lemma agree_refl (s : SMBO) : agree s s.
Proof. unfold agree. tauto. Qed.

Lemma respects_ret {A} (a : A) : respects (ret a).
Proof. intros s t H. simpl. auto. Qed.

Lemma respects_raise {A} (e : Exn) : respects (raise e : M SMBO A).
Proof. intros s t H. simpl. auto. Qed.

Lemma respects_bind {A B} (m : M SMBO A) (k : A -> M SMBO B) :
  respects m -> (forall a, respects (k a)) -> respects (bind m k).
Proof.
  intros Hm Hk s t Hst. unfold bind.
  specialize (Hm s t Hst).
  destruct (m s) as [a s1|e s1|c s1], (m t) as [b t1|e' t1|c' t1];
    simpl in Hm; try contradiction; destruct Hm as [<- Hst1].
  - now apply Hk.
  - simpl. auto.
  - simpl. auto.
Qed.

Lemma respects_get {A} (k : SMBO -> M SMBO A) :
  (forall s t, agree s t -> agree_outcomes (k s s) (k t t)) ->
  respects (bind get k).
Proof. intros H s t Hst. unfold bind, get. now apply H. Qed.

Lemma respects_rand : respects rand.
Proof.
  intros s t H. unfold rand.
  assert (Hr : rng s = rng t) by (unfold agree in H; tauto).
  rewrite Hr. destruct (rng_rand (rng t)) as [r g]. simpl.
  split; [reflexivity|]. unfold agree in *. simpl. tauto.
Qed.

Lemma respects_rand_size (n : nat) : respects (rand_size n).
Proof.
  induction n as [|n IH]; simpl.
  - apply respects_ret.
  - apply respects_bind; [apply respects_rand|]. intros r.
    apply respects_bind; [exact IH|]. intros rs. apply respects_ret.
Qed.

Lemma respects_sample_one : respects sample_one.
Proof.
  intros s t H. unfold sample_one.
  assert (Hc : config_space s = config_space t) by (unfold agree in H; tauto).
  rewrite Hc. destruct (sample_configuration (config_space t)) as [c cs'].
  simpl. split; [reflexivity|]. unfold agree in *. simpl. tauto.
Qed.

Lemma respects_sample_size (n : nat) : respects (sample_size n).
Proof.
  intros s t H. unfold sample_size.
  assert (Hc : config_space s = config_space t) by (unfold agree in H; tauto).
  rewrite Hc.
  destruct (sample_configuration_size n (config_space t)) as [l cs'].
  simpl. split; [reflexivity|]. unfold agree in *. simpl. tauto.
Qed.

Lemma respects_shuffle {A} (x : list A) : respects (shuffle rand x).
Proof.
  unfold shuffle. generalize (length x - 1) as i. intros i. revert x.
  induction i as [|i IH]; intros x; cbn [shuffle_down].
  - apply respects_ret.
  - apply respects_bind; [apply respects_rand|]. intros r.
    destruct (swap_items x (S i) _); [apply IH | apply respects_raise].
Qed.

Lemma respects_random_search (n : nat) (b : bool) :
  respects (_get_next_by_random_search n b).
Proof.
  unfold _get_next_by_random_search.
  destruct (Nat.eqb n 1).
  { apply respects_bind; [apply respects_sample_one|]. intros c.
    apply respects_raise. }
  unfold random_search_on_list.
  apply respects_bind; [apply respects_sample_size|]. intros cfgs.
  destruct b; [|apply respects_ret].
  apply respects_get. intros s t H.
  assert (Hm : model s = model t) by (unfold agree in H; tauto).
  assert (He : eta s = eta t) by (unfold agree in H; tauto).
  rewrite Hm, He.
  apply respects_bind; [apply respects_rand_size | | exact H].
  intros rnd. apply respects_ret.
Qed.

Lemma respects_local_searches (range : list nat)
      (acc : list (float * Configuration)) :
  respects (local_searches range acc).
Proof.
  revert acc. induction range as [|i range IH]; intros acc;
    cbn [local_searches].
  - apply respects_ret.
  - apply respects_get. intros s t H.
    assert (Hi : incumbent s = incumbent t) by (unfold agree in H; tauto).
    rewrite Hi.
    apply respects_bind; [| | exact H].
    + destruct i, (incumbent t);
        try apply respects_sample_one; apply respects_ret.
    + intros start. apply respects_get. intros s1 t1 H1.
      assert (Hm : model s1 = model t1) by (unfold agree in H1; tauto).
      assert (He : eta s1 = eta t1) by (unfold agree in H1; tauto).
      assert (Hc : config_space s1 = config_space t1)
        by (unfold agree in H1; tauto).
      rewrite Hm, He, Hc.
      destruct (maximize (model t1) (eta t1) (config_space t1) start).
      now apply IH.
Qed.

Lemma respects_local_search (n : nat) :
  respects (_get_next_by_local_search n).
Proof.
  unfold _get_next_by_local_search.
  apply respects_bind; [apply respects_local_searches|]. intros l.
  apply respects_bind; [apply respects_shuffle|]. intros l'.
  apply respects_ret.
Qed.

Lemma respects_incumbent_value : respects incumbent_value.
Proof.
  unfold incumbent_value. apply respects_get. intros s t H.
  assert (Hr : runhistory s = runhistory t) by (unfold agree in H; tauto).
  assert (Hi : incumbent s = incumbent t) by (unfold agree in H; tauto).
  rewrite Hr, Hi.
  destruct (runhistory t) as [rh|]; [|now apply respects_raise].
  destruct (rh_empty rh); [now apply respects_ret|].
  destruct (incumbent t) as [inc|]; [|now apply respects_raise].
  destruct (get_cost rh inc);
    [now apply respects_ret | now apply respects_raise].
Qed.

Lemma respects_generate_pools : respects generate_pools.
Proof.
  unfold generate_pools.
  apply respects_bind; [apply respects_random_search|]. intros u.
  apply respects_bind; [apply respects_random_search|]. intros so.
  apply respects_bind; [apply respects_local_search|]. intros lo.
  apply respects_ret.
Qed.

Lemma agree_same_result {A} (o1 o2 : Outcome SMBO A) :
  agree_outcomes o1 o2 -> same_result o1 o2.
Proof.
  destruct o1, o2; simpl; tauto.
Qed.

(** The outcome of [choose_next] is a function of the generator state,
    the sampler state, the model, the incumbent and the run history. *)
Lemma choose_next_agree (X : Matrix) (Y : list float) (s t : SMBO) :
  rng s = rng t -> config_space s = config_space t -> model s = model t ->
  incumbent s = incumbent t -> runhistory s = runhistory t ->
  same_result (choose_next X Y s) (choose_next X Y t).
Proof.
  intros Hg Hc Hm Hi Hr.
  unfold choose_next, choose_next_pools.
  cbv [bind modify incumbent_value get ret raise]. simpl.
  rewrite Hr, Hi, Hm.
  assert (K : forall v,
    agree (with_eta (Some v) (with_model (train (model t) X Y) s))
          (with_eta (Some v) (with_model (train (model t) X Y) t))).
  { intros v. unfold agree. simpl. tauto. }
  assert (G : forall v,
    same_result
      (bind generate_pools (fun ab => ret (chain_zip (fst ab) (snd ab)))
         (with_eta (Some v) (with_model (train (model t) X Y) s)))
      (bind generate_pools (fun ab => ret (chain_zip (fst ab) (snd ab)))
         (with_eta (Some v) (with_model (train (model t) X Y) t)))).
  { intros v. apply agree_same_result.
    apply respects_bind; [apply respects_generate_pools | | apply K].
    intros ab. apply respects_ret. }
  assert (G' : forall u : SMBO,
    match generate_pools u with
    | Returns a s' => (let '(x, y) := a in fun s0 => Returns (chain_zip x y) s0) s'
    | Raises e s' => Raises e s'
    | Exits c s' => Exits c s'
    end = bind generate_pools (fun ab => ret (chain_zip (fst ab) (snd ab))) u).
  { intros u. unfold bind, ret.
    destruct (generate_pools u) as [[x y] ?| |]; reflexivity. }
  destruct (runhistory t) as [rh|]; [|reflexivity].
  destruct (rh_empty rh); [rewrite !G'; apply G|].
  destruct (incumbent t) as [inc|]; [|reflexivity].
  destruct (get_cost rh inc); [rewrite !G'; apply G | reflexivity].
Qed.
End Determinism.

(* ================================================================= *)
(** ** The initial design and the main loop *)

Section Loop.
Context {T : Types} {E : Env}.

Lemma bind_ret {S A B} (a : A) (k : A -> M S B) (s : S) :
  bind (ret a) k s = k a s.
Proof. reflexivity. Qed.

Lemma bind_gets {S A B} (f : S -> A) (k : A -> M S B) (s : S) :
  bind (gets f) k s = k (f s) s.
Proof. reflexivity. Qed.

Lemma bind_on_world {A B} (f : World -> A * World) (k : A -> M Process B)
      (p : Process) (a : A) (w : World) :
  f (world p) = (a, w) -> bind (on_world f) k p = k a (with_world w p).
Proof. intros H. unfold bind, on_world. now rewrite H. Qed.

Lemma bind_on_self {A B} (m : M SMBO A) (k : A -> M Process B)
      (p : Process) (a : A) (s : SMBO) :
  m (self p) = Returns a s -> bind (on_self m) k p = k a (with_self s p).
Proof. intros H. unfold bind, on_self. now rewrite H. Qed.

Lemma bind_on_self_modify {B} (f : SMBO -> SMBO) (k : unit -> M Process B)
      (p : Process) :
  bind (on_self (modify f)) k p = k tt (with_self (f (self p)) p).
Proof. reflexivity. Qed.

Lemma rounds_cons (k : nat) (p p2 p3 p' : Process) :
  iterate p = Returns tt p2 -> poll_budget p2 = Returns false p3 ->
  rounds k p3 p' -> rounds (S k) p p'.
Proof.
  intros Hi Hp Hr. induction Hr as [q | k q q1 q2 q3 Hr IH Hi' Hp'].
  - eapply rounds_S; [apply rounds_O | exact Hi | exact Hp].
  - eapply rounds_S; [apply IH; assumption | exact Hi' | exact Hp'].
Qed.

(** The budget test returns and leaves the SMBO object as it is. *)
Lemma poll_budget_returns (p : Process) :
  exists b p', poll_budget p = Returns b p' /\ self p' = self p.
Proof.
  unfold poll_budget. cbv [bind on_world ret with_world].
  repeat match goal with
         | |- context [let (_, _) := ?f ?w in _] =>
             destruct (f w) as [? ?]; cbn [self world]
         | |- context [if negative ?x then _ else _] =>
             destruct (negative x)
         end; eauto.
Qed.

Lemma negative_lt (x : float) : negative x = true <-> (x < 0)%Q.
Proof.
  unfold negative. rewrite Qlt_alt.
  destruct (x ?= 0)%Q; split; congruence.
Qed.

Lemma negative_ge (x : float) : negative x = false <-> (0 <= x)%Q.
Proof.
  split.
  - intros H. apply Qnot_lt_le. intros L. apply negative_lt in L. congruence.
  - intros H. destruct (negative x) eqn:N; [|reflexivity].
    apply negative_lt in N. now apply Qle_not_lt in H.
Qed.

(** The budget test breaks the loop exactly when it observes a counter
    below zero. *)
Lemma poll_budget_spec (p p' : Process) (b : bool) :
  poll_budget p = Returns b p' ->
  (b = true <-> a_counter_is_negative (world p)).
Proof.
  unfold poll_budget, a_counter_is_negative.
  cbv [bind on_world ret with_world]. cbv zeta.
  destruct (get_remaing_time_budget (world p)) as [x1 w1];
    cbn [self world fst snd].
  destruct (get_remaining_ta_budget w1) as [x2 w2]; cbn [self world fst snd].
  destruct (get_remaining_ta_runs w2) as [x3 w3]; cbn [self world fst snd].
  destruct (get_remaing_time_budget w3) as [t w4]; cbn [self world fst snd].
  destruct (negative t) eqn:Ht; cbn [self world fst snd].
  { intros H. injection H as <- _. apply negative_lt in Ht. tauto. }
  apply negative_ge in Ht.
  destruct (get_remaining_ta_budget w4) as [c w5]; cbn [self world fst snd].
  destruct (negative c) eqn:Hc; cbn [self world fst snd].
  { intros H. injection H as <- _. apply negative_lt in Hc. tauto. }
  apply negative_ge in Hc.
  destruct (get_remaining_ta_runs w5) as [r w6]; cbn [self world fst snd].
  intros H. injection H as <- _. rewrite negative_lt.
  split; [tauto|].
  intros [L|[[_ L]|[_ [_ L]]]]; [| |exact L].
  - now apply Qle_not_lt in Ht.
  - now apply Qle_not_lt in Hc.
Qed.

Lemma rounds_passes (k : nat) (p p' : Process) :
  rounds k p p' -> passes k p p'.
Proof.
  induction 1 as [q | k q q1 q2 q3 Hr IH Hi Hp].
  - apply passes_O.
  - eapply passes_S; [exact IH | exact Hi | | exact Hp].
    intros N. apply (poll_budget_spec _ Hp) in N. discriminate N.
Qed.

(** The test of line 168 fires for exactly one status: the value of
    [CRASHED or ABORT]. *)
Lemma abort_if_first_run_failed_spec (status : StatusType) (p : Process) :
  abort_if_first_run_failed status p =
  if StatusType_eqb status (py_or status_truth CRASHED ABORT)
  then Exits 42%Z p else Returns tt p.
Proof.
  unfold abort_if_first_run_failed. simpl. rewrite orb_false_r.
  now destruct (StatusType_eqb _ _).
Qed.

(** [run_initial_design] after the first run: the process is left with
    code 42 in the state that the run leaves, nothing being recorded, when
    the status is the value of [CRASHED or ABORT]; the run is recorded
    otherwise. *)
Lemma run_initial_design_outcome (p p1 : Process) (conf : Configuration)
      (inst : string) (seed : Z) (result : RunResult) :
  initial_run p = Returns (conf, inst, seed, result) p1 ->
  run_initial_design p =
  if StatusType_eqb (fst (fst (fst result)))
                    (py_or status_truth CRASHED ABORT)
  then Exits 42%Z p1
  else record_initial_run conf inst seed result p1.
Proof.
  intros H. unfold run_initial_design. unfold bind at 1. rewrite H.
  unfold bind. rewrite abort_if_first_run_failed_spec.
  now destruct (StatusType_eqb _ _).
Qed.

(** Recording the first run in a run history that has no entry yet. *)
Lemma record_initial_run_fresh (conf : Configuration) (inst : string)
      (seed : Z) (status : StatusType) (cost runtime : float)
      (info : AdditionalInfo)
      (p : Process) (rh : RunHistory) :
  runhistory (self p) = Some rh -> data rh = [] ->
  let rh' := {| data := [({| rk_config := conf; rk_instance := inst;
                             rk_seed := seed |},
                          {| rv_cost := cost; rv_time := runtime;
                             rv_status := status;
                             rv_additional_info := info |})];
                cost_per_config := cost_per_config rh |} in
  let perf := objective_call (objective (self p)) conf rh'
                (py_set (get_runs_for_config rh' conf)) in
  record_initial_run conf inst seed (status, cost, runtime, info) p =
  Returns tt (with_self (with_runhistory (Some (update_cost rh' conf perf))
                           (with_runhistory (Some rh') (self p))) p).
Proof.
  intros Hrh Hd. cbv zeta.
  unfold record_initial_run.
  cbv [bind gets ret on_self modify raise]. rewrite Hrh.
  unfold rh_add. rewrite Hd. simpl. reflexivity.
Qed.

Context `{!EnvContracts E}.

(** Every pass through the loop body returns when the object is [ready],
    and leaves it [ready]. *)
Lemma iterate_ready (p : Process) :
  ready (self p) ->
  exists p', iterate p = Returns tt p' /\ ready (self p').
Proof.
  intros (rh & inc & Hrh & Hinc & Hc).
  unfold iterate.
  destruct (time_time (world p)) as [t0 w0] eqn:Ht0.
  rewrite (bind_on_world _ _ p Ht0), bind_gets.
  cbn [self with_world]. rewrite Hrh, bind_ret.
  destruct (transform (rh2EPM (self p)) rh (model (self p)) (rng (self p)))
    as [[[X Y] m'] g'].
  rewrite bind_on_self_modify. cbn [self with_world].
  set (s1 := with_rng g' (with_model m' (self p))).
  assert (Hv : exists v, incumbent_value s1 = Returns v s1).
  { destruct (rh_empty rh) eqn:He.
    - exists 0%Q. now apply incumbent_value_empty with rh.
    - destruct (get_cost rh inc) as [c|] eqn:Hg; [|contradiction].
      exists c. now apply incumbent_value_cost with rh inc. }
  destruct Hv as [v Hv].
  destruct (choose_next_pools_steps X Y Hv)
    as (u & s2 & so & s3 & lo & s4 & _ & _ & _ & _ & _ & _ & _ & F & H).
  apply choose_next_of_pools in H.
  rewrite (bind_on_self _ _ (with_self s1 (with_world w0 p)) H).
  cbn [self world with_self with_world].
  destruct (time_time w0) as [t1 w1] eqn:Ht1.
  erewrite bind_on_world by (cbn [world]; exact Ht1).
  rewrite bind_gets. cbn [self world with_self with_world].
  pose proof (intensify_cost (inten s4)
                (chain_zip (map snd (sort_by_acq_desc (so ++ lo)))
                           (map snd u))
                (incumbent s4) rh (objective s4)
                (py_max (1 # 100)%Q (t1 - t0)%Q) w1) as Hcost.
  destruct (intensify (inten s4) _ (incumbent s4) rh (objective s4)
              (py_max (1 # 100)%Q (t1 - t0)%Q) w1)
    as [[inc' rh'] w2] eqn:Hint.
  cbn [fst snd] in Hcost.
  erewrite bind_on_world by (cbn [world]; exact Hint).
  unfold on_self, modify. cbn [self with_world with_self].
  eexists. split; [reflexivity|].
  exists rh', inc'. cbn. auto.
Qed.
End Loop.

Lemma py_index_in_range {A} (l : list A) (i : Z) :
  (0 <= i < Z.of_nat (length l))%Z -> exists x, py_index l i = Some x.
Proof.
  intros H. unfold py_index, norm_index.
  destruct (i <? 0)%Z eqn:H0; [apply Z.ltb_lt in H0; lia|].
  destruct (i <? Z.of_nat (length l))%Z eqn:H1;
    [|apply Z.ltb_ge in H1; lia].
  destruct (nth_error l (Z.to_nat i)) as [x|] eqn:N; [eauto|].
  apply nth_error_None in N. lia.
Qed.

Section Run.
Context {T : Types} {E : Env} `{!EnvContracts E}.

(** The first run is always made when there is an instance to run on. *)
Lemma initial_run_returns (p : Process) :
  train_insts (scenario (self p)) <> [] ->
  exists inst seed result p1,
    initial_run p =
    Returns (get_default_configuration (config_space (self p)),
             inst, seed, result) p1 /\
    runhistory (self p1) = runhistory (self p) /\
    objective (self p1) = objective (self p) /\
    incumbent (self p1) =
    Some (get_default_configuration (config_space (self p))).
Proof.
  intros Hne. unfold initial_run.
  rewrite bind_gets, bind_on_self_modify.
  set (n := Z.of_nat (length (train_insts (scenario (self p))))).
  assert (Hn : (0 < n)%Z).
  { subst n. destruct (train_insts (scenario (self p))); [contradiction|].
    simpl. lia. }
  set (p0 := with_self _ p).
  pose proof (randint_range (rng (self p0)) Hn) as Hz.
  destruct (rng_randint 0 n (rng (self p0))) as [z g] eqn:Hrand.
  assert (Hrun : randint 0 n (self p0) = Returns z (with_rng g (self p0))).
  { unfold randint. destruct (Z.leb_spec n 0); [lia|]. now rewrite Hrand. }
  rewrite (bind_on_self _ _ p0 Hrun).
  cbn [fst] in Hz.
  destruct (py_index_in_range (train_insts (scenario (self p))) Hz)
    as [inst Hinst].
  rewrite Hinst, bind_ret.
  set (p1 := with_self _ p0).
  assert (Hseed : exists seed p2,
    (forall B (k : Z -> M Process B),
       bind (if deterministic (scenario (self p)) then ret 0%Z
             else on_world (random_randint 0 MAXINT)) k p1 = k seed p2) /\
    self p2 = self p1).
  { destruct (deterministic (scenario (self p))).
    - exists 0%Z, p1. split; [reflexivity | reflexivity].
    - destruct (random_randint 0 MAXINT (world p1)) as [sd w] eqn:Hr.
      exists sd, (with_world w p1). split; [|reflexivity].
      intros B k. now apply bind_on_world. }
  destruct Hseed as (seed & p2 & Hk & Hself). rewrite Hk.
  destruct (executor_run (get_default_configuration (config_space (self p)))
              inst (cutoff (scenario (self p))) seed
              (dict_get (instance_specific (scenario (self p))) inst "0")
              (world p2)) as [result w3] eqn:Hex.
  rewrite (bind_on_world _ _ p2 Hex).
  exists inst, seed, result, (with_world w3 p2).
  split; [reflexivity|].
  cbn [self with_world]. rewrite Hself. subst p1 p0. cbn. auto.
Qed.

(** Without a training instance the first run is not made:
    [self.rng.randint(0, 0)] raises ValueError. *)
Lemma run_prologue_no_instance (p : Process) :
  train_insts (scenario (self p)) = [] ->
  exists p1, run_prologue p = Raises ValueError p1 /\
             runhistory (self p1) = Some RunHistory_new.
Proof.
  intros Hnil. unfold run_prologue, run_initial_design, initial_run.
  unfold bind at 1, modify at 1. rewrite bind_on_self_modify.
  unfold bind at 1. rewrite bind_gets, bind_on_self_modify.
  cbn [self with_self scenario with_runhistory with_world].
  rewrite Hnil. cbn [length Z.of_nat].
  unfold bind at 1, on_self, randint. cbn [Z.leb Z.compare].
  eexists. split; reflexivity.
Qed.

(** The statements of [run] before the loop either leave the process
    with code 42, the fresh run history untouched, or return with the
    object [ready]. *)
Lemma run_prologue_cases (p : Process) :
  train_insts (scenario (self p)) <> [] ->
  (exists p1, run_prologue p = Exits 42%Z p1 /\
              runhistory (self p1) = Some RunHistory_new) \/
  (exists p1, run_prologue p = Returns tt p1 /\ ready (self p1)).
Proof.
  intros Hne.
  set (p0 := with_self (with_runhistory (Some RunHistory_new) (self p))
               (with_world (Stats_start_timing (world p)) p)).
  destruct (initial_run_returns p0)
    as (inst & seed & res & p1 & Hi & Hrh & Ho & Hinc); [exact Hne|].
  destruct res as [[[status cost] runtime] info].
  set (conf := get_default_configuration (config_space (self p0))) in *.
  assert (Hpro : run_prologue p =
                 bind (abort_if_first_run_failed status)
                      (fun _ => record_initial_run conf inst seed
                                  (status, cost, runtime, info)) p1).
  { unfold run_prologue, run_initial_design.
    unfold bind at 1, modify at 1. rewrite bind_on_self_modify.
    change (with_self _ _) with p0.
    unfold bind at 1. rewrite Hi. reflexivity. }
  rewrite Hpro. unfold bind. rewrite abort_if_first_run_failed_spec.
  destruct (StatusType_eqb status (py_or status_truth CRASHED ABORT)).
  - left. exists p1. split; [reflexivity | exact Hrh].
  - right.
    assert (Hrh' : runhistory (self p1) = Some RunHistory_new)
      by (rewrite Hrh; reflexivity).
    pose proof (record_initial_run_fresh conf inst seed status cost runtime
                  info p1 Hrh' eq_refl) as Hrec.
    cbv zeta in Hrec. rewrite Hrec.
    eexists. split; [reflexivity|].
    eexists _, _. cbn [self with_self runhistory incumbent
                       with_runhistory].
    split; [reflexivity|]. split; [exact Hinc|].
    unfold get_cost, update_cost, config_eqb. cbn [cost_per_config find fst].
    rewrite values_eqb_refl. discriminate.
Qed.

(** The loop, entered with [iteration] at most [max_iters] and the object
    [ready], ends: after some passes whose budget test lets it go on, one
    more pass is made, and then either [iteration] has reached
    [max_iters] or the budget test breaks the loop. *)
Lemma main_loop_ends (max_iters : Z) (fuel : nat) :
  forall (iteration : Z) (p : Process),
    ready (self p) ->
    (iteration <= max_iters)%Z ->
    Z.to_nat (max_iters - iteration + 1) <= fuel ->
    exists k pk p_last p_end it br,
      rounds k p pk /\ iterate pk = Returns tt p_last /\
      ((iteration + Z.of_nat k = max_iters /\ p_end = p_last /\
        br = MaxItersReached)%Z \/
       (iteration + Z.of_nat k < max_iters /\
        poll_budget p_last = Returns true p_end /\
        br = BudgetExhausted)%Z) /\
      main_loop fuel iteration max_iters p = Some (Returns (it, br) p_end).
Proof.
  induction fuel as [|fuel IH]; intros iteration p Hr Hle Hf; [lia|].
  destruct (iterate_ready p Hr) as (p1 & Hit & Hr1).
  cbn [main_loop]. rewrite Hit.
  destruct (iteration =? max_iters)%Z eqn:Heq.
  - apply Z.eqb_eq in Heq.
    exists 0, p, p1, p1, iteration, MaxItersReached.
    split; [apply rounds_O|]. split; [exact Hit|].
    split; [left; repeat split; lia | reflexivity].
  - apply Z.eqb_neq in Heq.
    destruct (poll_budget_returns p1) as (b & p2 & Hp & Hs).
    rewrite Hp. destruct b.
    + exists 0, p, p1, p2, (iteration + 1)%Z, BudgetExhausted.
      split; [apply rounds_O|]. split; [exact Hit|].
      split; [right; repeat split; [lia | exact Hp] | reflexivity].
    + destruct (IH (iteration + 1)%Z p2)
        as (k & pk & pl & pe & it & br & Hk & Hi' & Hend & Hm);
        [now rewrite Hs | lia | lia |].
      exists (S k), pk, pl, pe, it, br.
      split; [now apply rounds_cons with p1 p2|].
      split; [exact Hi'|].
      split; [|exact Hm].
      destruct Hend as [(H1 & H2 & H3)|(H1 & H2 & H3)];
        [left | right]; repeat split; try assumption; lia.
Qed.
End Run.

(* ================================================================= *)
(** ** The claims on the initial design and on [run] *)

Section RunClaims.
Context {T : Types} {E : Env}.

(** C1, at the status ABORT.  When the constant [StatusType.CRASHED] is
    true as a Python value, the list tested at line 168 is [[CRASHED]]:
    a first run that the executor reports as ABORT does not leave the
    process; it is added to the run history and [run_initial_design]
    returns. *)
Theorem first_run_abort_is_recorded (p p1 : Process) (conf : Configuration)
        (inst : string) (seed : Z) (cost runtime : float)
        (info : AdditionalInfo)
        (rh : RunHistory) :
  status_truth CRASHED = true ->
  initial_run p = Returns (conf, inst, seed, (ABORT, cost, runtime, info)) p1 ->
  runhistory (self p1) = Some rh -> data rh = [] ->
  exists p2 perf,
    run_initial_design p = Returns tt p2 /\
    runhistory (self p2) =
    Some (update_cost
            {| data := [({| rk_config := conf; rk_instance := inst;
                            rk_seed := seed |},
                         {| rv_cost := cost; rv_time := runtime;
                            rv_status := ABORT;
                            rv_additional_info := info |})];
               cost_per_config := cost_per_config rh |}
            conf perf).
Proof.
  intros Htruth Hrun Hrh Hd.
  unfold run_initial_design. unfold bind at 1. rewrite Hrun.
  cbn [fst]. unfold bind at 1.
  rewrite abort_if_first_run_failed_spec.
  unfold py_or. rewrite Htruth. cbn [StatusType_eqb].
  pose proof (record_initial_run_fresh conf inst seed ABORT cost runtime
                info p1 Hrh Hd) as Hrec.
  cbv zeta in Hrec. rewrite Hrec.
  eexists _, _. split; reflexivity.
Qed.

(** Whatever the truth values of the constants of StatusType are, one of
    CRASHED and ABORT passes the test of line 168. *)
Lemma one_failure_status_passes (p : Process) :
  exists status,
    (status = CRASHED \/ status = ABORT) /\
    abort_if_first_run_failed status p = Returns tt p.
Proof.
  destruct (status_truth CRASHED) eqn:Ht.
  - exists ABORT. split; [now right|].
    rewrite abort_if_first_run_failed_spec. unfold py_or. now rewrite Ht.
  - exists CRASHED. split; [now left|].
    rewrite abort_if_first_run_failed_spec. unfold py_or. now rewrite Ht.
Qed.

Context `{!EnvContracts E}.

(** C3, as the code has it.  For [max_iters >= 1] and collaborators
    that keep their contracts, [run] ends, in one of three ways.  Without
    a training instance the initial design raises ValueError.  With one,
    either the initial design leaves the process with code 42 before the
    loop is entered, or [run] returns the incumbent of the state that it
    reaches, after [k + 1] passes through transform, choose_next and
    intensify: after each of the first [k] the budget test observed no
    counter below zero, and either [k + 1 = max_iters], or
    [k + 1 < max_iters] and the budget test after the last pass observed
    a counter below zero. *)
Theorem run_terminates (fuel : nat) (max_iters : Z) (p : Process) :
  (1 <= max_iters)%Z -> Z.to_nat max_iters <= fuel ->
  (train_insts (scenario (self p)) = [] /\
   exists p1,
     run_prologue p = Raises ValueError p1 /\
     run fuel max_iters p = Some (Raises ValueError p1)) \/
  (train_insts (scenario (self p)) <> [] /\
   ((exists p1,
       run_prologue p = Exits 42%Z p1 /\
       run fuel max_iters p = Some (Exits 42%Z p1)) \/
    (exists p1 k pk p_last p_end,
       run_prologue p = Returns tt p1 /\
       passes k p1 pk /\ iterate pk = Returns tt p_last /\
       ((Z.of_nat (S k) = max_iters /\ p_end = p_last) \/
        ((Z.of_nat (S k) < max_iters)%Z /\
         a_counter_is_negative (world p_last) /\
         poll_budget p_last = Returns true p_end)) /\
       run fuel max_iters p =
       Some (Returns (incumbent (self p_end)) p_end)))).
Proof.
  intros Hmax Hfuel.
  destruct (train_insts (scenario (self p))) as [|i0 insts] eqn:Hinsts.
  { left. split; [reflexivity|].
    destruct (run_prologue_no_instance p Hinsts) as (p1 & Hp & _).
    exists p1. split; [exact Hp|]. unfold run. now rewrite Hp. }
  assert (Hne : train_insts (scenario (self p)) <> [])
    by (rewrite Hinsts; discriminate).
  right. split; [discriminate|].
  destruct (run_prologue_cases p Hne) as [(p1 & Hp & _)|(p1 & Hp & Hr)].
  - left. exists p1. split; [exact Hp|]. unfold run. now rewrite Hp.
  - right.
    destruct (@main_loop_ends T E _ max_iters fuel 1%Z p1 Hr)
      as (k & pk & pl & pe & it & br & Hk & Hi & Hend & Hm); [lia | lia |].
    exists p1, k, pk, pl, pe.
    split; [exact Hp|]. split; [now apply rounds_passes|].
    split; [exact Hi|].
    split.
    + destruct Hend as [(H1 & H2 & _)|(H1 & H2 & _)]; [left | right].
      * split; [lia | exact H2].
      * split; [lia|]. split; [|exact H2].
        now apply (poll_budget_spec _ H2).
    + unfold run. now rewrite Hp, Hm.
Qed.

(** C9, as the code has it.  For [max_iters >= 1], collaborators that
    keep their contracts and whatever the budget counters are when [run]
    is called: unless the initial design ends the call (ValueError when
    there is no training instance, exit code 42 after a failed first
    run), the first thing the loop does is a full pass through transform,
    choose_next and intensify.  The counters are read for the first time
    in the state that this pass leaves, and only if [max_iters > 1]; the
    loop is left then exactly when a counter is observed below zero. *)
Theorem first_pass_before_budget_test (fuel : nat) (max_iters : Z)
        (p : Process) :
  (1 <= max_iters)%Z -> Z.to_nat max_iters <= fuel ->
  (train_insts (scenario (self p)) = [] /\
   exists p1,
     run_prologue p = Raises ValueError p1 /\
     run fuel max_iters p = Some (Raises ValueError p1)) \/
  (train_insts (scenario (self p)) <> [] /\
   ((exists p1,
       run_prologue p = Exits 42%Z p1 /\
       run fuel max_iters p = Some (Exits 42%Z p1)) \/
    (exists p1 p2,
       run_prologue p = Returns tt p1 /\
       iterate p1 = Returns tt p2 /\
       (max_iters = 1%Z ->
        run fuel max_iters p = Some (Returns (incumbent (self p2)) p2)) /\
       ((1 < max_iters)%Z ->
        exists b p3,
          poll_budget p2 = Returns b p3 /\
          (b = true <-> a_counter_is_negative (world p2)) /\
          main_loop fuel 1 max_iters p1 =
          (if b then Some (Returns (2%Z, BudgetExhausted) p3)
           else main_loop (fuel - 1) 2 max_iters p3) /\
          (b = true ->
           run fuel max_iters p =
           Some (Returns (incumbent (self p3)) p3)))))).
Proof.
  intros Hmax Hfuel.
  destruct (train_insts (scenario (self p))) as [|i0 insts] eqn:Hinsts.
  { left. split; [reflexivity|].
    destruct (run_prologue_no_instance p Hinsts) as (p1 & Hp & _).
    exists p1. split; [exact Hp|]. unfold run. now rewrite Hp. }
  assert (Hne : train_insts (scenario (self p)) <> [])
    by (rewrite Hinsts; discriminate).
  right. split; [discriminate|].
  destruct (run_prologue_cases p Hne) as [(p1 & Hp & _)|(p1 & Hp & Hr)].
  - left. exists p1. split; [exact Hp|]. unfold run. now rewrite Hp.
  - right.
    destruct (iterate_ready p1 Hr) as (p2 & Hit & _).
    exists p1, p2. split; [exact Hp|]. split; [exact Hit|].
    destruct fuel as [|fuel]; [lia|].
    split.
    + intros ->. unfold run. rewrite Hp. cbn [main_loop].
      now rewrite Hit.
    + intros Hgt.
      destruct (poll_budget_returns p2) as (b & p3 & Hpoll & _).
      exists b, p3. split; [exact Hpoll|].
      split; [exact (poll_budget_spec _ Hpoll)|].
      assert (Hloop : main_loop (S fuel) 1 max_iters p1 =
                      if b then Some (Returns (2%Z, BudgetExhausted) p3)
                      else main_loop (S fuel - 1) 2 max_iters p3).
      { cbn [main_loop]. rewrite Hit.
        destruct (1 =? max_iters)%Z eqn:Heq;
          [apply Z.eqb_eq in Heq; lia|].
        rewrite Hpoll. replace (S fuel - 1) with fuel by lia.
        now destruct b. }
      split; [exact Hloop|].
      intros ->. unfold run. now rewrite Hp, Hloop.
Qed.

(** C4, as the code has it.  Two calls of [choose_next] with the same
    (X, Y), on objects that have the same generator state, the same
    sampler state of the configuration space, the same surrogate model,
    the same incumbent and the same run history, end alike and return
    identical challenger sequences. *)
Theorem choose_next_same_seed (X : Matrix) (Y : list float) (s t : SMBO) :
  rng s = rng t -> config_space s = config_space t -> model s = model t ->
  incumbent s = incumbent t -> runhistory s = runhistory t ->
  same_result (choose_next X Y s) (choose_next X Y t) /\
  challengers_of (choose_next X Y s) = challengers_of (choose_next X Y t).
Proof.
  intros Hg Hc Hm Hi Hr.
  pose proof (choose_next_agree X Y s t Hg Hc Hm Hi Hr) as H.
  split; [exact H|].
  destruct (choose_next X Y s), (choose_next X Y t);
    simpl in *; try contradiction; try reflexivity.
  tauto.
Qed.
End RunClaims.

(* ================================================================= *)
(** ** The claims on concrete inputs *)

Import Toy.

Lemma toy_contracts : EnvContracts toy_env.
Proof.
  constructor.
  - intros g. cbn [rng_rand toy_env fst].
    pose proof (Z.mod_pos_bound g 1000 eq_refl) as H.
    unfold Qle, Qlt. cbn [Qnum Qden]. lia.
  - intros low high g H. cbn [rng_randint toy_env fst].
    destruct (low <? high)%Z eqn:Hl; [|apply Z.ltb_ge in Hl; lia].
    pose proof (Z.mod_pos_bound g (high - low)). lia.
  - intros n c _. cbn [sample_configuration_size toy_env fst].
    now rewrite length_map, length_seq.
  - intros v. apply Z.eqb_refl.
  - intros i ch inc rh o tb w.
    cbn [intensify toy_env]. unfold toy_intensify. cbn [fst snd].
    unfold get_cost, toy_update_cost, config_eqb.
    cbn [cost_per_config find fst values_eqb toy_env].
    rewrite Z.eqb_refl. discriminate.
Qed.

#[export] Existing Instance toy_contracts.

(** The constructor on the toy scenario builds [toy_smbo 1 0]. *)
Example toy_construction :
  SMBO__init__ (toy_scenario "quality") (RngInt 1) (toy_world SUCCESS 100)
  = Returns (toy_smbo 1 0) (toy_world SUCCESS 100).
Proof. reflexivity. Qed.

Lemma types_vector_witness :
  exists smbo w',
    SMBO__init__ (toy_scenario "quality") (RngInt 1) (toy_world SUCCESS 100)
    = Returns smbo w' /\
    types smbo = [3; 0; 0; 0; 0; 0]%N /\ length (types smbo) = 4 + 2.
Proof.
  exists (toy_smbo 1 0), (toy_world SUCCESS 100).
  split; [reflexivity|].
  exact (types_vector (toy_scenario "quality") (RngInt 1)
           (toy_world SUCCESS 100) eq_refl).
Defined.

Lemma imputation_iff_runtime_witness :
  exists smbo w',
    SMBO__init__ (toy_scenario "runtime") (RngInt 1) (toy_world SUCCESS 100)
    = Returns smbo w' /\
    impute_censored_data (rh2EPM smbo) = true /\
    imputor (rh2EPM smbo) =
    Some {| imp_cutoff := 10%Q; imp_threshold := (10 * 10)%Q;
            change_threshold := (1 # 100)%Q; max_iter := 10 |}.
Proof.
  destruct (SMBO__init__ (toy_scenario "runtime") (RngInt 1)
              (toy_world SUCCESS 100)) as [smbo w'|e w'|c w'] eqn:Hinit;
    [|vm_compute in Hinit; discriminate Hinit..].
  exists smbo, w'. split; [reflexivity|].
  destruct (imputation_iff_runtime (toy_scenario "runtime") (RngInt 1)
              (toy_world SUCCESS 100) Hinit) as (Hiff & Hrun & _).
  split; [now apply Hiff|].
  now destruct (Hrun eq_refl) as (Himp & _).
Defined.

Lemma first_run_abort_is_recorded_witness :
  status_truth CRASHED = true /\
  exists p1,
    initial_run (toy_started ABORT 100) =
    Returns (toy_config 0, "inst1"%string, 0%Z, (ABORT, 1%Q, 1%Q, tt)) p1 /\
    runhistory (self p1) = Some RunHistory_new /\
    exists p2 perf,
      run_initial_design (toy_started ABORT 100) = Returns tt p2 /\
      runhistory (self p2) =
      Some (update_cost
              {| data := [({| rk_config := toy_config 0;
                              rk_instance := "inst1"; rk_seed := 0 |},
                           {| rv_cost := 1%Q; rv_time := 1%Q;
                              rv_status := ABORT;
                              rv_additional_info := tt |})];
                 cost_per_config := [] |}
              (toy_config 0) perf).
Proof.
  split; [reflexivity|].
  eexists. split; [vm_compute; reflexivity|]. split; [reflexivity|].
  eapply first_run_abort_is_recorded with (rh := RunHistory_new);
    [reflexivity | vm_compute; reflexivity | reflexivity | reflexivity].
Defined.

(** The same on [run]: with a first run reported as ABORT the loop is
    entered and [run] returns, while CRASHED leaves the process. *)
Example run_after_abort :
  match run 1 1 (toy_process ABORT 100) with
  | Some (Returns (Some _) p) => intensify_calls (world p) = 1
  | _ => False
  end.
Proof. vm_compute. reflexivity. Qed.

Lemma choose_next_eta_witness :
  (runhistory (toy_searching 0) = Some RunHistory_new /\
   rh_empty RunHistory_new = true /\
   exists challengers s',
     choose_next [] [] (toy_searching 0) = Returns challengers s' /\
     eta s' = Some 0%Q) /\
  (runhistory toy_tuned = Some toy_history /\
   rh_empty toy_history = false /\
   incumbent toy_tuned = Some (toy_config 0) /\
   get_cost toy_history (toy_config 0) = Some (7 # 2)%Q /\
   exists challengers s',
     choose_next [] [] toy_tuned = Returns challengers s' /\
     eta s' = Some (7 # 2)%Q).
Proof.
  split.
  - split; [reflexivity|]. split; [reflexivity|].
    apply (choose_next_eta [] [] (toy_searching 0) eq_refl). reflexivity.
  - repeat (split; [reflexivity|]).
    apply (choose_next_eta [] [] toy_tuned eq_refl) with (toy_config 0);
      reflexivity.
Defined.

Lemma choose_next_2020_witness :
  incumbent_value toy_tuned = Returns (7 # 2)%Q toy_tuned /\
  exists challengers s',
    choose_next [] [] toy_tuned = Returns challengers s' /\
    length challengers = 2020.
Proof.
  assert (Hv : incumbent_value toy_tuned = Returns (7 # 2)%Q toy_tuned)
    by reflexivity.
  split; [exact Hv|].
  destruct (choose_next_2020 [] [] Hv)
    as (u & s1 & so & s2 & lo & s3 & _ & _ & _ & _ & _ & _ & _ & H & L).
  eexists _, s3. split; [exact H | exact L].
Defined.

Lemma choose_next_alternates_witness :
  incumbent_value toy_tuned = Returns (7 # 2)%Q toy_tuned /\
  exists (merged unscored : list (float * Configuration)) challengers s',
    choose_next [] [] toy_tuned = Returns challengers s' /\
    StronglySorted (fun a b => (fst b <= fst a)%Q) merged /\
    nth_error challengers 0 = nth_error (map snd merged) 0 /\
    nth_error challengers 1 = nth_error (map snd unscored) 0 /\
    nth_error challengers 2018 = nth_error (map snd merged) 1009 /\
    nth_error challengers 2019 = nth_error (map snd unscored) 1009.
Proof.
  assert (Hv : incumbent_value toy_tuned = Returns (7 # 2)%Q toy_tuned)
    by reflexivity.
  split; [exact Hv|].
  destruct (choose_next_alternates [] [] Hv)
    as (u & s1 & so & s2 & lo & s3 & m & ch &
        _ & _ & _ & _ & Hs & H & _ & _ & Hi).
  exists m, u, ch, s3. split; [exact H|]. split; [exact Hs|].
  split; [apply (Hi 0); lia|]. split; [apply (Hi 0); lia|].
  split; [apply (Hi 1009); lia | apply (Hi 1009); lia].
Defined.

(** C5 as stated fails: the unscored pool that [choose_next] draws does
    not have 10 configurations (it has 1010). *)
Lemma unscored_pool_is_not_10 :
  ~ (forall pools s',
       choose_next_pools [] [] toy_tuned = Returns pools s' ->
       length (snd pools) = 10).
Proof.
  intros H.
  assert (Hv : incumbent_value toy_tuned = Returns (7 # 2)%Q toy_tuned)
    by reflexivity.
  destruct (choose_next_pools_steps [] [] Hv)
    as (u & s1 & so & s2 & lo & s3 & _ & _ & _ & L & _ & _ & _ & _ & Hp).
  specialize (H _ _ Hp). cbn [snd] in H. rewrite length_map, L in H.
  discriminate H.
Qed.

Lemma choose_next_same_seed_witness :
  let s := toy_searching 0 in
  let t := with_eta (Some 1%Q) (toy_searching 0) in
  rng s = rng t /\ config_space s = config_space t /\ model s = model t /\
  incumbent s = incumbent t /\ runhistory s = runhistory t /\
  eta s <> eta t /\
  challengers_of (choose_next [] [] s) = challengers_of (choose_next [] [] t).
Proof.
  cbv zeta. repeat (split; [reflexivity|]).
  split; [discriminate|].
  apply (choose_next_same_seed [] [] (toy_searching 0)
           (with_eta (Some 1%Q) (toy_searching 0))
           eq_refl eq_refl eq_refl eq_refl eq_refl).
Defined.

(** C4 as stated fails: two objects with the same generator state, the
    same incumbent, the same run history and the same (X, Y), whose
    configuration spaces have sampled a different number of
    configurations before, return different challengers. *)
Lemma same_rng_different_challengers :
  let s := toy_searching 0 in
  let t := toy_searching 5 in
  rng s = rng t /\ incumbent s = incumbent t /\
  runhistory s = runhistory t /\ model s = model t /\
  challengers_of (choose_next [] [] s) <> challengers_of (choose_next [] [] t).
Proof.
  cbv zeta. repeat (split; [reflexivity|]).
  intros H.
  apply (f_equal (fun l => map values (firstn 2 l))) in H.
  vm_compute in H. discriminate H.
Qed.

Lemma run_terminates_witness :
  (1 <= 2)%Z /\ Z.to_nat 2 <= 2 /\
  train_insts (scenario (self (toy_process SUCCESS 100))) <> [] /\
  exists p1 k pk p_last p_end,
    run_prologue (toy_process SUCCESS 100) = Returns tt p1 /\
    passes k p1 pk /\ iterate pk = Returns tt p_last /\
    ((Z.of_nat (S k) = 2%Z /\ p_end = p_last) \/
     ((Z.of_nat (S k) < 2)%Z /\
      a_counter_is_negative (world p_last) /\
      poll_budget p_last = Returns true p_end)) /\
    run 2 2 (toy_process SUCCESS 100) =
    Some (Returns (incumbent (self p_end)) p_end).
Proof.
  split; [lia|]. split; [simpl; lia|]. split; [discriminate|].
  destruct (@run_terminates _ _ _ 2 2%Z (toy_process SUCCESS 100))
    as [[Hnil _]|[_ [(p1 & Hp & _)|H]]];
    [lia | simpl; lia | discriminate Hnil | | exact H].
  vm_compute in Hp. discriminate Hp.
Defined.

(** C3 as stated fails: when the first run is reported as CRASHED,
    [run 3] does not return an incumbent; the process exits with code
    42.  Nor does it return one on a scenario without a training
    instance: the call raises ValueError. *)
Lemma run_exits_when_first_run_crashes :
  (1 <= 3)%Z /\
  (exists p', run 3 3 (toy_process CRASHED 100) = Some (Exits 42%Z p')) /\
  ~ (exists inc p',
       run 3 3 (toy_process CRASHED 100) = Some (Returns inc p')) /\
  (exists p',
     run 3 3 (toy_no_instance SUCCESS 100) = Some (Raises ValueError p')) /\
  ~ (exists inc p',
       run 3 3 (toy_no_instance SUCCESS 100) = Some (Returns inc p')).
Proof.
  split; [lia|]. split; [|split; [|split]].
  - eexists. vm_compute. reflexivity.
  - intros (inc & p' & H). vm_compute in H. discriminate H.
  - eexists. vm_compute. reflexivity.
  - intros (inc & p' & H). vm_compute in H. discriminate H.
Qed.

Lemma first_pass_before_budget_test_witness :
  (1 <= 3)%Z /\ Z.to_nat 3 <= 3 /\
  train_insts (scenario (self (toy_process SUCCESS (-5)))) <> [] /\
  negative (time_budget (world (toy_process SUCCESS (-5)))) = true /\
  exists p1 p2,
    run_prologue (toy_process SUCCESS (-5)) = Returns tt p1 /\
    iterate p1 = Returns tt p2 /\
    exists b p3,
      poll_budget p2 = Returns b p3 /\
      (b = true <-> a_counter_is_negative (world p2)) /\
      (b = true ->
       run 3 3 (toy_process SUCCESS (-5)) =
       Some (Returns (incumbent (self p3)) p3)).
Proof.
  split; [lia|]. split; [simpl; lia|]. split; [discriminate|].
  split; [reflexivity|].
  destruct (@first_pass_before_budget_test _ _ _ 3 3%Z
              (toy_process SUCCESS (-5)))
    as [[Hnil _]|[_ [(p1 & Hp & _)|(p1 & p2 & Hp & Hi & _ & Hgt)]]];
    [lia | simpl; lia | discriminate Hnil | |].
  { vm_compute in Hp. discriminate Hp. }
  exists p1, p2. split; [exact Hp|]. split; [exact Hi|].
  destruct Hgt as (b & p3 & Hb & Hneg & _ & Hrun); [lia|].
  exists b, p3. split; [exact Hb|]. split; [exact Hneg | exact Hrun].
Defined.

(** With the three counters negative from the start, [run 3] makes
    exactly one pass and then stops. *)
Example one_pass_on_negative_budget :
  match run 3 3 (toy_process SUCCESS (-5)) with
  | Some (Returns (Some _) p) => intensify_calls (world p) = 1
  | _ => False
  end.
Proof. vm_compute. reflexivity. Qed.

(** C9 as stated fails: when the first run is reported as CRASHED, no
    pass through the loop body is made at all; nor is one made on a
    scenario without a training instance. *)
Lemma no_pass_when_first_run_crashes :
  (1 <= 3)%Z /\
  (exists p',
     run 3 3 (toy_process CRASHED (-5)) = Some (Exits 42%Z p') /\
     intensify_calls (world p') = 0) /\
  ~ (exists p1 p2,
       run_prologue (toy_process CRASHED (-5)) = Returns tt p1 /\
       iterate p1 = Returns tt p2) /\
  (exists p',
     run 3 3 (toy_no_instance SUCCESS (-5)) = Some (Raises ValueError p') /\
     intensify_calls (world p') = 0) /\
  ~ (exists p1 p2,
       run_prologue (toy_no_instance SUCCESS (-5)) = Returns tt p1 /\
       iterate p1 = Returns tt p2).
Proof.
  split; [lia|]. split; [|split; [|split]].
  - eexists. split; [vm_compute; reflexivity | reflexivity].
  - intros (p1 & p2 & H & _). vm_compute in H. discriminate H.
  - eexists. split; [vm_compute; reflexivity | reflexivity].
  - intros (p1 & p2 & H & _). vm_compute in H. discriminate H.
Qed.

(* ================================================================= *)
(** ** Further properties: sorting is stable, shuffling permutes *)

Section Stability.
Variable A : Type.
Variable le : A -> A -> bool.
Variable p : A -> bool.
(** the elements selected by [p] tie with one another *)
Hypothesis p_ties : forall x y, p x = true -> p y = true -> le x y = true.

Lemma insert_stable_filter (x : A) (l : list A) :
  filter p (insert_stable le x l) =
  if p x then x :: filter p l else filter p l.
Proof.
  induction l as [|y l IH]; simpl.
  - reflexivity.
  - destruct (le x y) eqn:Hxy; simpl.
    + reflexivity.
    + rewrite IH. destruct (p x) eqn:Hx, (p y) eqn:Hy; try reflexivity.
      rewrite (p_ties Hx Hy) in Hxy. discriminate.
Qed.

Lemma stable_sort_filter (l : list A) :
  filter p (stable_sort le l) = filter p l.
Proof.
  induction l as [|x l IH]; simpl.
  - reflexivity.
  - rewrite insert_stable_filter, IH. reflexivity.
Qed.
End Stability.

(** X6.  The sort by acquisition value is stable: the candidates that tie
    with a given value come out in the order in which they went in.  In
    the merge of [choose_next], hence, the tying candidates of the sorted
    random search come first, in the order of their tie-break keys, and
    those of the local search after them. *)
Theorem merge_keeps_tie_order {B} (k : float)
        (sorted local : list (float * B)) :
  ties_with k (sort_by_acq_desc (sorted ++ local)) =
  ties_with k sorted ++ ties_with k local.
Proof.
  unfold ties_with, sort_by_acq_desc.
  rewrite stable_sort_filter.
  - apply filter_app.
  - intros x y Hx Hy. apply Qeq_bool_iff in Hx, Hy.
    apply Qle_bool_iff. rewrite Hx, Hy. apply Qle_refl.
Qed.

Lemma replace_perm {A} (t : list A) (j : nat) (a b : A) :
  nth_error t j = Some b ->
  Permutation (b :: set_item t j a) (a :: t).
Proof.
  revert j. induction t as [|h t IH]; intros [|j] H; simpl in H;
    try discriminate.
  - injection H as ->. simpl. apply perm_swap.
  - simpl. eapply perm_trans; [apply perm_swap|].
    eapply perm_trans; [apply perm_skip, (IH j H)|]. apply perm_swap.
Qed.

Lemma set_item_swap_perm {A} (l : list A) (i j : nat) (a b : A) :
  nth_error l i = Some a -> nth_error l j = Some b ->
  Permutation (set_item (set_item l i b) j a) l.
Proof.
  revert i j. induction l as [|h l IH]; intros [|i] [|j] Hi Hj;
    simpl in Hi, Hj; try discriminate; simpl.
  - injection Hi as ->. apply Permutation_refl.
  - injection Hi as ->. now apply replace_perm.
  - injection Hj as ->. now apply replace_perm.
  - apply perm_skip. now apply IH.
Qed.

Lemma swap_items_perm {A} (x x' : list A) (i : nat) (j : Z) :
  swap_items x i j = Some x' -> Permutation x' x.
Proof.
  unfold swap_items.
  destruct (norm_index (length x) j) as [j'|]; [|discriminate].
  destruct (nth_error x i) as [xi|] eqn:Hi; [|discriminate].
  destruct (nth_error x j') as [xj|] eqn:Hj; [|discriminate].
  intros H. injection H as <-. now apply set_item_swap_perm.
Qed.

Section ShuffleFacts.
Context {T : Types} {E : Env}.

(** A shuffle that returns has permuted the list, and has left the
    object as [i] draws of [self.rng.rand()] leave it. *)
Lemma shuffle_down_perm {A} (i : nat) :
  forall (x x' : list A) (s s' : SMBO),
    shuffle_down rand i x s = Returns x' s' ->
    Permutation x' x /\ exists rs, rand_size i s = Returns rs s'.
Proof.
  induction i as [|i IH]; intros x x' s s' H.
  - cbn in H. injection H as <- <-. split; [apply Permutation_refl|].
    exists []. reflexivity.
  - cbn [shuffle_down rand_size] in *. unfold bind at 1 in H.
    unfold bind at 1. unfold rand at 1 in H. unfold rand at 1.
    destruct (rng_rand (rng s)) as [r g].
    destruct (swap_items x (S i) _) as [x1|] eqn:Hsw; [|discriminate H].
    destruct (IH x1 x' _ s' H) as (Hp & rs & Hrs).
    split.
    + eapply perm_trans; [exact Hp|]. now apply swap_items_perm in Hsw.
    + exists (r :: rs). unfold bind. now rewrite Hrs.
Qed.

Context `{!EnvContracts E}.

(** X7.  [random.shuffle(x, self.rng.rand)] returns a permutation of [x]
    and draws from the generator exactly [len(x) - 1] times: the object is
    left as [self.rng.rand(len(x) - 1)] would leave it. *)
Theorem shuffle_permutes {A} (x : list A) (s : SMBO) :
  exists x' rs s',
    shuffle rand x s = Returns x' s' /\
    Permutation x' x /\
    rand_size (length x - 1) s = Returns rs s'.
Proof.
  destruct (shuffle_framed x s) as (x' & s' & H & _ & _).
  unfold shuffle in H.
  destruct (shuffle_down_perm _ _ _ H) as (Hp & rs & Hrs).
  exists x', rs, s'. unfold shuffle. auto.
Qed.
End ShuffleFacts.

(* ================================================================= *)
(** ** Further properties: what [choose_next] leaves alone *)

Section KeepsFrame.
Context {T : Types} {E : Env}.

Lemma keeps_ret {A} (a : A) : keeps_frame (ret a).
Proof. intros s. apply frame_refl. Qed.

Lemma keeps_raise {A} (e : Exn) : keeps_frame (raise e : M SMBO A).
Proof. intros s. apply frame_refl. Qed.

Lemma keeps_bind {A B} (m : M SMBO A) (k : A -> M SMBO B) :
  keeps_frame m -> (forall a, keeps_frame (k a)) -> keeps_frame (bind m k).
Proof.
  intros Hm Hk s. unfold bind. specialize (Hm s).
  destruct (m s) as [a s1|e s1|c s1]; simpl in *; try exact Hm.
  eapply frame_trans; [exact Hm | apply Hk].
Qed.

Lemma keeps_get {A} (k : SMBO -> M SMBO A) :
  (forall s, keeps_frame (k s)) -> keeps_frame (bind get k).
Proof. intros H s. unfold bind, get. apply H. Qed.

Lemma keeps_rand : keeps_frame rand.
Proof.
  intros s. unfold rand. destruct (rng_rand (rng s)). apply frame_with_rng.
Qed.

Lemma keeps_rand_size (n : nat) : keeps_frame (rand_size n).
Proof.
  induction n as [|n IH]; simpl.
  - apply keeps_ret.
  - apply keeps_bind; [apply keeps_rand|]. intros r.
    apply keeps_bind; [exact IH|]. intros rs. apply keeps_ret.
Qed.

Lemma keeps_sample_one : keeps_frame sample_one.
Proof.
  intros s. unfold sample_one.
  destruct (sample_configuration (config_space s)).
  apply frame_with_config_space.
Qed.

Lemma keeps_sample_size (n : nat) : keeps_frame (sample_size n).
Proof.
  intros s. unfold sample_size.
  destruct (sample_configuration_size n (config_space s)).
  apply frame_with_config_space.
Qed.

Lemma keeps_shuffle {A} (x : list A) : keeps_frame (shuffle rand x).
Proof.
  unfold shuffle. generalize (length x - 1) as i. intros i. revert x.
  induction i as [|i IH]; intros x; cbn [shuffle_down].
  - apply keeps_ret.
  - apply keeps_bind; [apply keeps_rand|]. intros r.
    destruct (swap_items x (S i) _); [apply IH | apply keeps_raise].
Qed.

Lemma keeps_random_search (n : nat) (b : bool) :
  keeps_frame (_get_next_by_random_search n b).
Proof.
  unfold _get_next_by_random_search.
  destruct (Nat.eqb n 1).
  { apply keeps_bind; [apply keeps_sample_one|]. intros c.
    apply keeps_raise. }
  unfold random_search_on_list.
  apply keeps_bind; [apply keeps_sample_size|]. intros cfgs.
  destruct b; [|apply keeps_ret].
  apply keeps_get. intros s.
  apply keeps_bind; [apply keeps_rand_size|]. intros rnd. apply keeps_ret.
Qed.

Lemma keeps_local_searches (range : list nat)
      (acc : list (float * Configuration)) :
  keeps_frame (local_searches range acc).
Proof.
  revert acc. induction range as [|i range IH]; intros acc;
    cbn [local_searches].
  - apply keeps_ret.
  - apply keeps_get. intros s.
    apply keeps_bind.
    + destruct i, (incumbent s);
        try apply keeps_sample_one; apply keeps_ret.
    + intros start. apply keeps_get. intros s1.
      destruct (maximize (model s1) (eta s1) (config_space s1) start).
      apply IH.
Qed.

Lemma keeps_generate_pools : keeps_frame generate_pools.
Proof.
  unfold generate_pools.
  apply keeps_bind; [apply keeps_random_search|]. intros u.
  apply keeps_bind; [apply keeps_random_search|]. intros so.
  apply keeps_bind.
  - unfold _get_next_by_local_search.
    apply keeps_bind; [apply keeps_local_searches|]. intros l.
    apply keeps_bind; [apply keeps_shuffle|]. intros l'. apply keeps_ret.
  - intros lo. apply keeps_ret.
Qed.

(** The fields of the object in the state in which [choose_next] ends. *)
Lemma choose_next_final_state (X : Matrix) (Y : list float) (s : SMBO) :
  let s' := final_state (choose_next X Y s) in
  model s' = train (model s) X Y /\
  incumbent s' = incumbent s /\ runhistory s' = runhistory s /\
  scenario s' = scenario s /\ types s' = types s /\ inten s' = inten s /\
  rh2EPM s' = rh2EPM s /\ objective s' = objective s.
Proof.
  cbv zeta.
  set (s0 := with_model (train (model s) X Y) s).
  assert (K : forall v,
    frame (with_eta (Some v) s0)
          (final_state
             (bind generate_pools
                   (fun ab => ret (chain_zip (fst ab) (snd ab)))
                   (with_eta (Some v) s0)))).
  { intros v. apply keeps_bind; [apply keeps_generate_pools|].
    intros ab. apply keeps_ret. }
  assert (G : forall u : SMBO,
    match generate_pools u with
    | Returns a s' =>
        (let '(x, y) := a in fun s0 => Returns (chain_zip x y) s0) s'
    | Raises e s' => Raises e s'
    | Exits c s' => Exits c s'
    end = bind generate_pools (fun ab => ret (chain_zip (fst ab) (snd ab))) u).
  { intros u. unfold bind, ret.
    destruct (generate_pools u) as [[x y] ?| |]; reflexivity. }
  assert (Hret : forall v,
    let s' := final_state
                (bind generate_pools
                      (fun ab => ret (chain_zip (fst ab) (snd ab)))
                      (with_eta (Some v) s0)) in
    model s' = train (model s) X Y /\
    incumbent s' = incumbent s /\ runhistory s' = runhistory s /\
    scenario s' = scenario s /\ types s' = types s /\ inten s' = inten s /\
    rh2EPM s' = rh2EPM s /\ objective s' = objective s).
  { intros v. cbv zeta. specialize (K v). unfold frame in K. simpl in K.
    decompose [and] K. repeat split; assumption. }
  unfold choose_next, choose_next_pools.
  cbv [bind modify incumbent_value get ret raise]. fold s0. simpl.
  destruct (runhistory s) as [rh|] eqn:Hrh;
    [|repeat split; try reflexivity; exact Hrh].
  destruct (rh_empty rh); [rewrite G; apply Hret|].
  destruct (incumbent s) as [inc|] eqn:Hinc;
    [|repeat split; try reflexivity; assumption].
  destruct (get_cost rh inc);
    [rewrite G; apply Hret
    |repeat split; try reflexivity; assumption].
Qed.

(** X3.  However [choose_next] ends (it returns or it raises), it has
    retrained the model on (X, Y) exactly once, and it has left as they
    were: the values of the incumbent, the runs and the aggregate costs
    that the run history holds, the scenario, the type vector, the
    intensifier, the transform and the objective of the object.
    Provenance tags are left out of the comparison: line 357 writes the
    tag on the object that the local search returns, which can be the
    incumbent itself. *)
Theorem choose_next_leaves (X : Matrix) (Y : list float) (s : SMBO) :
  let s' := final_state (choose_next X Y s) in
  model s' = train (model s) X Y /\
  option_map values (incumbent s') = option_map values (incumbent s) /\
  option_map untagged_runs (runhistory s') =
  option_map untagged_runs (runhistory s) /\
  option_map untagged_costs (runhistory s') =
  option_map untagged_costs (runhistory s) /\
  scenario s' = scenario s /\ types s' = types s /\ inten s' = inten s /\
  rh2EPM s' = rh2EPM s /\ objective s' = objective s.
Proof.
  pose proof (choose_next_final_state X Y s) as H. cbv zeta in *.
  destruct H as (Hm & Hi & Hr & Hrest).
  split; [exact Hm|]. rewrite Hi, Hr.
  repeat (split; [reflexivity|]). exact Hrest.
Qed.

(** X2.  [choose_next] fails before it draws anything: on an object that
    has no run history it raises AttributeError, and on one whose run
    history is not empty and holds no cost for the incumbent (or that has
    no incumbent) it raises the error of [get_cost]; in both cases the
    model has been retrained, and the generator and the sampler of the
    configuration space are untouched. *)
Theorem choose_next_fails_before_sampling (X : Matrix) (Y : list float)
        (s : SMBO) :
  (runhistory s = None ->
   choose_next X Y s =
   Raises (AttributeError "runhistory")
          (with_model (train (model s) X Y) s)) /\
  (forall rh,
     runhistory s = Some rh -> rh_empty rh = false ->
     (incumbent s = None \/
      exists inc, incumbent s = Some inc /\ get_cost rh inc = None) ->
     choose_next X Y s =
     Raises UnknownConfigError (with_model (train (model s) X Y) s)).
Proof.
  split.
  - intros H. unfold choose_next, choose_next_pools.
    cbv [bind modify incumbent_value get ret raise]. simpl.
    now rewrite H.
  - intros rh Hrh He Hinc. unfold choose_next, choose_next_pools.
    cbv [bind modify incumbent_value get ret raise]. simpl.
    rewrite Hrh, He.
    destruct Hinc as [-> | (inc & -> & ->)]; reflexivity.
Qed.
End KeepsFrame.

(* ================================================================= *)
(** ** Further properties: what the generators return *)

Lemma chain_zip_perm {A} (a b : list A) :
  length a = length b -> Permutation (chain_zip a b) (a ++ b).
Proof.
  revert b. induction a as [|x a IH]; intros [|y b] H; simpl in H;
    try discriminate.
  - constructor.
  - simpl. apply perm_skip.
    eapply perm_trans; [apply perm_skip, IH; lia|].
    apply (Permutation_middle a b y).
Qed.

Lemma map_snd_combine {A B} (l : list A) (l' : list B) :
  length l = length l' -> map snd (combine l l') = l'.
Proof.
  revert l'. induction l as [|x l IH]; intros [|y l'] H; simpl in H;
    try discriminate; simpl.
  - reflexivity.
  - now rewrite IH by lia.
Qed.

Lemma in_scored_rows {A C} (f : A -> float) (g : A -> C) (l : list A)
      (rnd : list float) (a r : float) (c : C) :
  In ((a, r), c) (combine (combine (map f l) rnd) (map g l)) ->
  exists c0, In c0 l /\ a = f c0 /\ c = g c0.
Proof.
  revert rnd. induction l as [|x l IH]; intros [|r0 rnd] H; simpl in H;
    try contradiction.
  destruct H as [H|H].
  - injection H as <- _ <-. exists x. simpl. auto.
  - destruct (IH rnd H) as (c0 & Hin & Ha & Hc).
    exists c0. simpl. auto.
Qed.

Section GeneratorResults.
Context {T : Types} {E : Env}.

(** The candidates gathered by the local searches extend the list that
    is passed in; each new one carries the tag of the local search. *)
Lemma local_searches_extend (range : list nat) :
  forall (acc l : list (float * Configuration)) (s s' : SMBO),
    local_searches range acc s = Returns l s' ->
    exists l', l = acc ++ l' /\
               Forall (fun x => tagged "Local Search" (snd x)) l'.
Proof.
  induction range as [|i range IH]; intros acc l s s' H;
    cbn [local_searches] in H.
  - injection H as <- _. exists []. split; [now rewrite app_nil_r|].
    constructor.
  - unfold bind at 1, get at 1 in H. unfold bind at 1 in H.
    destruct (match i with
              | O => match incumbent s with
                     | Some inc => ret inc
                     | None => sample_one
                     end
              | S _ => sample_one
              end s) as [start s1| |] eqn:Hstart; try discriminate H.
    unfold bind at 1, get at 1 in H.
    destruct (maximize (model s1) (eta s1) (config_space s1) start)
      as [c a].
    destruct (IH _ _ _ _ H) as (l' & -> & Ht).
    exists ((a, set_origin "Local Search" c) :: l').
    split; [now rewrite <- app_assoc|].
    constructor; [reflexivity | exact Ht].
Qed.

Context `{!EnvContracts E}.

(** What the scored random search returns. *)
Lemma random_search_sorted_inv (n : nat) (s : SMBO) :
  n <> 1 ->
  exists rand_configs s1 out s2,
    sample_size n s = Returns rand_configs s1 /\
    _get_next_by_random_search n true s = Returns out s2 /\
    Permutation (map snd out)
                (map (set_origin "Random Search (sorted)") rand_configs) /\
    Forall (fun ac =>
              exists c0, In c0 rand_configs /\
                snd ac = set_origin "Random Search (sorted)" c0 /\
                fst ac = EI (model s) (eta s)
                            (get_array (impute_inactive_values c0)))
           out.
Proof.
  intros Hn.
  destruct (random_search_sorted s Hn)
    as (cfgs & s1 & rnd & s2 & Hs & Hr & Lc & Lr & F & H).
  exists cfgs, s1. eexists _, s2.
  split; [exact Hs|]. split; [exact H|].
  set (rows := combine _ _).
  assert (Hperm : Permutation (rev (lexsort_rows rows)) rows).
  { eapply perm_trans; [apply Permutation_sym, Permutation_rev|].
    apply stable_sort_perm. }
  split.
  - rewrite map_map. cbn [snd].
    change (fun x : Row => snd x) with (@snd (float * float) Configuration).
    eapply perm_trans; [apply Permutation_map, Hperm|].
    subst rows. unfold Row. rewrite map_snd_combine; [apply Permutation_refl|].
    rewrite length_combine, !length_map, Lc, Lr. lia.
  - apply Forall_forall. intros ac Hac.
    apply in_map_iff in Hac. destruct Hac as ([[a r] c] & <- & Hin).
    apply (Permutation_in _ Hperm) in Hin. subst rows.
    apply in_scored_rows in Hin. destruct Hin as (c0 & H0 & Ha & Hc).
    exists c0. cbn [fst snd]. auto.
Qed.

(** X5.  For [num_points >= 2], where the sample is a list, the scored
    random search returns the configurations that it sampled, each one
    once and tagged 'Random Search (sorted)', and pairs each of them with
    its own acquisition value: the value of EI, as bound when the search
    is called, on the array of the configuration with its inactive values
    imputed. *)
Theorem sorted_search_pairs (n : nat) (s : SMBO) :
  2 <= n ->
  exists rand_configs s1 out s2,
    sample_size n s = Returns rand_configs s1 /\
    _get_next_by_random_search n true s = Returns out s2 /\
    Permutation (map snd out)
                (map (set_origin "Random Search (sorted)") rand_configs) /\
    Forall (fun ac =>
              exists c0, In c0 rand_configs /\
                snd ac = set_origin "Random Search (sorted)" c0 /\
                fst ac = EI (model s) (eta s)
                            (get_array (impute_inactive_values c0)))
           out.
Proof.
  intros Hn.
  destruct (@random_search_sorted_inv n s)
    as (cfgs & s1 & out & s2 & H1 & H2 & H3 & H4); [lia|].
  exists cfgs, s1, out, s2. auto.
Qed.

(** X8.  When the object has an incumbent, the local optimum that
    [local_search.maximize] reaches from the incumbent is among the
    candidates that [_get_next_by_local_search] returns, for every
    [num_points >= 1]; every candidate returned is tagged 'Local Search'. *)
Theorem local_search_from_incumbent (n : nat) (s : SMBO)
        (inc : Configuration) :
  incumbent s = Some inc -> 1 <= n ->
  exists out s',
    _get_next_by_local_search n s = Returns out s' /\
    In (snd (maximize (model s) (eta s) (config_space s) inc),
        set_origin "Local Search"
          (fst (maximize (model s) (eta s) (config_space s) inc))) out /\
    Forall (fun x => tagged "Local Search" (snd x)) out.
Proof.
  intros Hinc Hn.
  destruct (local_searches_framed (seq 0 n) [] s) as (raw & s1 & Hraw & _ & _).
  destruct (shuffle_framed raw s1) as (sh & s2 & Hsh & _ & _).
  exists (sort_by_acq_desc sh), s2.
  assert (Hrun : _get_next_by_local_search n s =
                 Returns (sort_by_acq_desc sh) s2).
  { unfold _get_next_by_local_search, bind. now rewrite Hraw, Hsh. }
  split; [exact Hrun|].
  assert (Hperm : Permutation (sort_by_acq_desc sh) raw).
  { eapply perm_trans; [apply sort_by_acq_desc_perm|].
    unfold shuffle in Hsh. now apply shuffle_down_perm in Hsh. }
  destruct (local_searches_extend _ _ _ Hraw) as (l' & Hl & Htag).
  simpl in Hl. subst raw.
  split.
  - apply (Permutation_in _ (Permutation_sym Hperm)).
    destruct n as [|n]; [lia|].
    revert Hraw. cbn [seq local_searches].
    unfold bind at 1, get at 1. rewrite Hinc.
    unfold bind at 1, ret at 1. unfold bind at 1, get at 1.
    destruct (maximize (model s) (eta s) (config_space s) inc) as [c a].
    intros Hraw.
    destruct (local_searches_extend _ _ _ Hraw) as (l2 & Hl2 & _).
    rewrite Hl2. cbn [fst snd app]. now left.
  - eapply Permutation_Forall; [apply Permutation_sym, Hperm | exact Htag].
Qed.

(** X4.  Every challenger that [choose_next] returns carries a
    provenance tag: the candidates merged by acquisition value are tagged
    'Random Search (sorted)' or 'Local Search', the unscored ones 'Random
    Search'.  The challenger sequence contains each candidate of the two
    pools exactly once. *)
Theorem challengers_are_tagged (X : Matrix) (Y : list float) (s : SMBO)
        (v : float) :
  incumbent_value s = Returns v s ->
  exists by_acq unscored s',
    choose_next_pools X Y s = Returns (by_acq, unscored) s' /\
    choose_next X Y s = Returns (chain_zip by_acq unscored) s' /\
    Forall (fun c => tagged "Random Search (sorted)" c \/
                     tagged "Local Search" c) by_acq /\
    Forall (tagged "Random Search") unscored /\
    Permutation (chain_zip by_acq unscored) (by_acq ++ unscored).
Proof.
  intros Hv.
  destruct (choose_next_pools_steps X Y Hv)
    as (u & s1 & so & s2 & lo & s3 & H1 & H2 & H3 & L1 & L2 & L3 & _ & _ & H).
  cbv zeta in H1.
  eexists _, _, s3. split; [exact H|].
  split; [apply choose_next_of_pools; exact H|].
  assert (Tu : Forall (tagged "Random Search") (map snd u)).
  { revert H1. rewrite random_search_eq by discriminate.
    unfold random_search_on_list, bind, sample_size, ret.
    destruct (sample_configuration_size 1010 _) as [l c].
    intros H1. injection H1 as <- _.
    rewrite map_map. apply Forall_forall. intros x Hx.
    apply in_map_iff in Hx. destruct Hx as (c0 & <- & _). reflexivity. }
  assert (Tso : Forall (fun x => tagged "Random Search (sorted)" (snd x)) so).
  { destruct (@random_search_sorted_inv 1000 s1)
      as (cfgs & s1' & out & s2' & _ & Hout & _ & Hpairs); [discriminate|].
    rewrite H2 in Hout. injection Hout as <- _.
    eapply Forall_impl; [|exact Hpairs].
    intros ac (c0 & _ & -> & _). reflexivity. }
  assert (Tlo : Forall (fun x => tagged "Local Search" (snd x)) lo).
  { destruct (local_searches_framed (seq 0 10) [] s2)
      as (raw & t1 & Hraw & _ & _).
    destruct (shuffle_framed raw t1) as (sh & t2 & Hsh & _ & _).
    assert (Hrun : _get_next_by_local_search 10 s2 =
                   Returns (sort_by_acq_desc sh) t2).
    { unfold _get_next_by_local_search, bind. now rewrite Hraw, Hsh. }
    rewrite H3 in Hrun. injection Hrun as -> _.
    destruct (local_searches_extend _ _ _ Hraw) as (l' & Hl & Htag).
    simpl in Hl. subst raw.
    eapply Permutation_Forall; [|exact Htag].
    apply Permutation_sym.
    eapply perm_trans; [apply sort_by_acq_desc_perm|].
    unfold shuffle in Hsh. now apply shuffle_down_perm in Hsh. }
  split; [|split; [exact Tu|]].
  - apply Forall_forall. intros c Hc.
    apply in_map_iff in Hc. destruct Hc as (x & <- & Hx).
    apply (Permutation_in _ (sort_by_acq_desc_perm (so ++ lo))) in Hx.
    apply in_app_or in Hx. destruct Hx as [Hx|Hx].
    + left. rewrite Forall_forall in Tso. now apply Tso.
    + right. rewrite Forall_forall in Tlo. now apply Tlo.
  - apply chain_zip_perm. rewrite !length_map.
    rewrite (Permutation_length (sort_by_acq_desc_perm (so ++ lo))).
    rewrite length_app, L1, L2, L3. reflexivity.
Qed.
End GeneratorResults.

(* ================================================================= *)
(** ** Further properties: the initial design and the loop *)

Lemma bind_returns {S A B} (m : M S A) (k : A -> M S B) (s s' : S) (b : B) :
  bind m k s = Returns b s' ->
  exists a s1, m s = Returns a s1 /\ k a s1 = Returns b s'.
Proof.
  unfold bind. destruct (m s) as [a s1| |]; try discriminate. eauto.
Qed.

Lemma py_index_In {A} (l : list A) (i : Z) (x : A) :
  py_index l i = Some x -> In x l.
Proof.
  unfold py_index. destruct (norm_index (length l) i); [|discriminate].
  apply nth_error_In.
Qed.

Lemma StatusType_eqb_refl (st : StatusType) : StatusType_eqb st st = true.
Proof. now destruct st. Qed.

Section InitialDesign.
Context {T : Types} {E : Env}.

(** What a first run that returns has done. *)
Lemma initial_run_inv (p p1 : Process) (conf : Configuration)
      (inst : string) (seed : Z) (result : RunResult) :
  initial_run p = Returns (conf, inst, seed, result) p1 ->
  conf = get_default_configuration (config_space (self p)) /\
  In inst (train_insts (scenario (self p))) /\
  (deterministic (scenario (self p)) = true -> seed = 0%Z) /\
  (exists w,
     executor_run conf inst (cutoff (scenario (self p))) seed
                  (dict_get (instance_specific (scenario (self p))) inst "0")
                  w = (result, world p1)) /\
  incumbent (self p1) = Some conf /\
  runhistory (self p1) = runhistory (self p) /\
  objective (self p1) = objective (self p).
Proof.
  unfold initial_run. rewrite bind_gets, bind_on_self_modify.
  intros H.
  apply bind_returns in H. destruct H as (z & q1 & Hz & H).
  unfold on_self, randint in Hz. cbn [self with_self] in Hz.
  destruct (_ <=? 0)%Z; [discriminate Hz|].
  destruct (rng_randint 0 _ _) as [z' g]. injection Hz as -> <-.
  destruct (py_index (train_insts (scenario (self p))) z) as [i|] eqn:Hi;
    [|discriminate H].
  rewrite bind_ret in H.
  apply bind_returns in H. destruct H as (sd & q2 & Hsd & H).
  apply bind_returns in H. destruct H as (res & q3 & Hex & H).
  injection H as <- <- <- <- <-.
  unfold on_world in Hex.
  destruct (executor_run _ _ _ _ _ (world q2)) as [r w3] eqn:Hrun.
  injection Hex as -> <-.
  assert (Hq2 : self q2 = with_rng g (with_incumbent
                  (Some (get_default_configuration (config_space (self p))))
                  (self p)) /\
                (deterministic (scenario (self p)) = true -> sd = 0%Z)).
  { destruct (deterministic (scenario (self p))).
    - injection Hsd as <- <-. split; [reflexivity | reflexivity].
    - unfold on_world in Hsd.
      destruct (random_randint 0 MAXINT _) as [sd' w2].
      injection Hsd as <- <-. split; [reflexivity | discriminate]. }
  destruct Hq2 as [Hself Hdet].
  split; [reflexivity|]. split; [now apply py_index_In in Hi|].
  split; [exact Hdet|]. split; [exists (world q2); exact Hrun|].
  cbn [self with_world]. rewrite Hself. cbn. auto.
Qed.

(** X10.  The first run is a run of the default configuration of the
    configuration space on one of the scenario's training instances, with
    the scenario's cutoff and with the instance-specific string of that
    instance, or "0" when it has none; its seed is 0 when the scenario is
    deterministic.  When it is made the default configuration is already
    the incumbent, and the run history is as it was. *)
Theorem first_run_arguments (p p1 : Process) (conf : Configuration)
        (inst : string) (seed : Z) (result : RunResult) :
  initial_run p = Returns (conf, inst, seed, result) p1 ->
  conf = get_default_configuration (config_space (self p)) /\
  In inst (train_insts (scenario (self p))) /\
  (deterministic (scenario (self p)) = true -> seed = 0%Z) /\
  (exists w,
     executor_run conf inst (cutoff (scenario (self p))) seed
                  (dict_get (instance_specific (scenario (self p))) inst "0")
                  w = (result, world p1)) /\
  incumbent (self p1) = Some conf /\
  runhistory (self p1) = runhistory (self p).
Proof.
  intros H.
  destruct (initial_run_inv _ H) as (Hc & Hin & Hd & Hw & Hi & Hr & _).
  repeat (split; [assumption|]). exact Hr.
Qed.

(** X9.  When the status of the first run is the value of
    [StatusType.CRASHED or StatusType.ABORT], [run_initial_design] leaves
    the process with exit code 42 right after the run: nothing has been
    added to the run history, and the default configuration has already
    been made the incumbent. *)
Theorem first_run_failure_exits (p p1 : Process) (conf : Configuration)
        (inst : string) (seed : Z) (status : StatusType)
        (cost runtime : float) (info : AdditionalInfo) :
  initial_run p =
  Returns (conf, inst, seed, (status, cost, runtime, info)) p1 ->
  status = py_or status_truth CRASHED ABORT ->
  run_initial_design p = Exits 42%Z p1 /\
  runhistory (self p1) = runhistory (self p) /\
  incumbent (self p1) = Some conf.
Proof.
  intros H Hst.
  destruct (initial_run_inv _ H) as (_ & _ & _ & _ & Hinc & Hrh & _).
  split; [|now split].
  rewrite (run_initial_design_outcome _ H). cbn [fst].
  now rewrite <- Hst, StatusType_eqb_refl.
Qed.

Context `{!EnvContracts E}.

(** X11.  When the statements of [run] before the loop return, the run
    history holds exactly one run, the first run of the default
    configuration as the executor reported it, and for the default
    configuration the aggregate cost [default_perf]: the value of
    [self.objective] on the default configuration, the run history
    holding that one run, and the set of its one (instance, seed) pair.
    The default configuration is the incumbent.  The first [choose_next]
    of [run] therefore binds [eta] to [default_perf]: it does not take
    the branch of the empty run history. *)
Theorem loop_starts_with_default_cost (p p1 : Process) :
  run_prologue p = Returns tt p1 ->
  let default_conf := get_default_configuration (config_space (self p)) in
  exists inst seed status cost runtime info w,
    let rh1 :=
      {| data := [({| rk_config := default_conf; rk_instance := inst;
                      rk_seed := seed |},
                   {| rv_cost := cost; rv_time := runtime;
                      rv_status := status;
                      rv_additional_info := info |})];
         cost_per_config := [] |} in
    let default_perf :=
      objective_call (objective (self p)) default_conf rh1 [(inst, seed)] in
    executor_run default_conf inst (cutoff (scenario (self p))) seed
                 (dict_get (instance_specific (scenario (self p))) inst "0")
                 w = ((status, cost, runtime, info), world p1) /\
    runhistory (self p1) = Some (update_cost rh1 default_conf default_perf) /\
    incumbent (self p1) = Some default_conf /\
    get_cost (update_cost rh1 default_conf default_perf) default_conf
    = Some default_perf /\
    incumbent_value (self p1) = Returns default_perf (self p1).
Proof.
  unfold run_prologue. unfold bind at 1, modify at 1.
  rewrite bind_on_self_modify.
  set (p0 := with_self _ _). unfold run_initial_design.
  intros H.
  apply bind_returns in H.
  destruct H as ([[[conf inst] seed] [[[st cost] rt] info]] & q & Hi & H).
  apply bind_returns in H. destruct H as ([] & q' & Ha & H).
  rewrite abort_if_first_run_failed_spec in Ha.
  destruct (StatusType_eqb _ _); [discriminate Ha|]. injection Ha as <-.
  destruct (initial_run_inv _ Hi) as (Hc & _ & _ & (w & Hw) & Hinc & Hrh & Ho).
  assert (Hrh' : runhistory (self q) = Some RunHistory_new)
    by (rewrite Hrh; reflexivity).
  pose proof (record_initial_run_fresh conf inst seed st cost rt info q
                Hrh' eq_refl) as Hrec.
  cbv zeta in Hrec. rewrite Hrec in H. injection H as <-.
  change (config_space (self p0)) with (config_space (self p)) in Hc.
  change (scenario (self p0)) with (scenario (self p)) in Hw.
  change (objective (self p0)) with (objective (self p)) in Ho.
  subst conf. cbv zeta.
  set (conf := get_default_configuration (config_space (self p))) in *.
  assert (Hruns : forall rv,
    py_set (get_runs_for_config
              {| data := [({| rk_config := conf; rk_instance := inst;
                              rk_seed := seed |}, rv)];
                 cost_per_config := cost_per_config RunHistory_new |} conf)
    = [(inst, seed)]).
  { intros rv. unfold get_runs_for_config, config_eqb.
    cbn [data filter fst rk_config]. rewrite values_eqb_refl. reflexivity. }
  rewrite Hruns, Ho.
  exists inst, seed, st, cost, rt, info, w.
  cbn [self with_self world runhistory with_runhistory incumbent].
  assert (Hcost : forall rh0 v, get_cost (update_cost rh0 conf v) conf = Some v).
  { intros rh0 v. unfold get_cost, update_cost, config_eqb.
    cbn [cost_per_config find fst]. now rewrite values_eqb_refl. }
  split; [exact Hw|]. split; [reflexivity|]. split; [exact Hinc|].
  split; [apply Hcost|].
  eapply incumbent_value_cost;
    [reflexivity | reflexivity | exact Hinc | apply Hcost].
Qed.
End InitialDesign.

Section LoopFacts.
Context {T : Types} {E : Env}.

(** A pass through the loop body that returns leaves the incumbent and
    the run history that the intensifier returned. *)
Lemma iterate_sets_incumbent (p p' : Process) :
  iterate p = Returns tt p' ->
  exists inc rh,
    incumbent (self p') = Some inc /\ runhistory (self p') = Some rh.
Proof.
  unfold iterate. intros H.
  apply bind_returns in H. destruct H as (t0 & q0 & _ & H).
  rewrite bind_gets in H.
  destruct (runhistory (self q0)) as [rh|]; [|discriminate H].
  rewrite bind_ret in H.
  destruct (transform _ _ _ _) as [[[X Y] m'] g'].
  rewrite bind_on_self_modify in H.
  apply bind_returns in H. destruct H as (ch & q1 & _ & H).
  apply bind_returns in H. destruct H as (t1 & q2 & _ & H).
  rewrite bind_gets in H.
  apply bind_returns in H. destruct H as ([inc rh'] & q3 & _ & H).
  unfold on_self, modify in H. injection H as <-.
  exists inc, rh'. split; reflexivity.
Qed.


(** The loop, when it returns, has made a pass last, possibly followed
    by the budget test that broke it. *)
Lemma main_loop_returns (max_iters : Z) (fuel : nat) :
  forall (iteration it : Z) (br : Break) (p p' : Process),
    main_loop fuel iteration max_iters p = Some (Returns (it, br) p') ->
    exists q q',
      iterate q = Returns tt q' /\
      ((br = MaxItersReached /\ it = max_iters /\ (iteration <= it)%Z /\
        p' = q') \/
       (br = BudgetExhausted /\ (iteration < it)%Z /\
        poll_budget q' = Returns true p')).
Proof.
  induction fuel as [|fuel IH]; intros iteration it br p p' H;
    [discriminate H|].
  cbn [main_loop] in H.
  destruct (iterate p) as [[] p1| |] eqn:Hit; try discriminate H.
  destruct (iteration =? max_iters)%Z eqn:Heq.
  - apply Z.eqb_eq in Heq. injection H as <- <- <-.
    exists p, p1. split; [exact Hit|]. left.
    repeat split; [exact Heq | lia].
  - destruct (poll_budget p1) as [[|] p2| |] eqn:Hp; try discriminate H.
    + injection H as <- <- <-.
      exists p, p1. split; [exact Hit|]. right.
      repeat split; [lia | exact Hp].
    + apply IH in H. destruct H as (q & q' & Hq & Hcase).
      exists q, q'. split; [exact Hq|].
      destruct Hcase as [(H1 & H2 & H3 & H4)|(H1 & H2 & H3)].
      * left. repeat split; try assumption. lia.
      * right. repeat split; try assumption. lia.
Qed.

(** X13.  With [max_iters <= 0] the test on [iteration] never ends the
    loop: when [run] returns, it returns right after a budget test that
    found a counter negative. *)
Theorem nonpositive_max_iters_stops_on_budget (fuel : nat) (max_iters : Z)
        (p p' : Process) (r : option Configuration) :
  (max_iters < 1)%Z ->
  run fuel max_iters p = Some (Returns r p') ->
  exists q q',
    iterate q = Returns tt q' /\ poll_budget q' = Returns true p' /\
    r = incumbent (self p').
Proof.
  intros Hm H. unfold run in H.
  destruct (run_prologue p) as [[] p1| |]; try discriminate H.
  destruct (main_loop fuel 1 max_iters p1) as [[[it br] p2| |]|] eqn:Hl;
    try discriminate H.
  injection H as <- <-.
  apply main_loop_returns in Hl. destruct Hl as (q & q' & Hq & Hcase).
  exists q, q'. split; [exact Hq|].
  destruct Hcase as [(_ & H2 & H3 & _)|(_ & _ & H3)]; [lia|].
  split; [exact H3 | reflexivity].
Qed.



(** When reading a budget counter does not change the world, the
    budget test at the end of the loop body leaves the process as it is
    and breaks the loop exactly when one of the three counters is
    strictly negative. *)
Theorem poll_budget_negative (p : Process) :
  (forall w, snd (get_remaing_time_budget w) = w) ->
  (forall w, snd (get_remaining_ta_budget w) = w) ->
  (forall w, snd (get_remaining_ta_runs w) = w) ->
  poll_budget p =
  Returns (negative (fst (get_remaing_time_budget (world p)))
           || negative (fst (get_remaining_ta_budget (world p)))
           || negative (fst (get_remaining_ta_runs (world p)))) p /\
  forall x, negative x = true <-> (x < 0)%Q.
Proof.
  intros H1 H2 H3. split.
  2:{ intros x. unfold negative.
      destruct (Qcompare x 0) eqn:C.
      - apply Qeq_alt in C. split; [discriminate | lra].
      - apply Qlt_alt in C. split; [auto | reflexivity].
      - apply Qgt_alt in C. split; [discriminate | lra]. }
  pose proof (H1 (world p)) as K1. pose proof (H2 (world p)) as K2.
  pose proof (H3 (world p)) as K3.
  destruct (get_remaing_time_budget (world p)) as [t w1] eqn:E1.
  destruct (get_remaining_ta_budget (world p)) as [b w2] eqn:E2.
  destruct (get_remaining_ta_runs (world p)) as [r w3] eqn:E3.
  cbn [fst snd] in *. subst w1 w2 w3.
  assert (Hp : with_world (world p) p = p) by (now destruct p).
  unfold poll_budget.
  rewrite (bind_on_world _ _ p E1), Hp, (bind_on_world _ _ p E2), Hp,
          (bind_on_world _ _ p E3), Hp, (bind_on_world _ _ p E1), Hp.
  destruct (negative t); [reflexivity|].
  rewrite (bind_on_world _ _ p E2), Hp.
  destruct (negative b); [reflexivity|].
  rewrite (bind_on_world _ _ p E3), Hp. reflexivity.
Qed.
End LoopFacts.

(* ================================================================= *)
(** ** Further properties: construction, and [run] as a fresh start *)

Section MoreConstruction.
Context {T : Types} {E : Env}.

(** X1.  Construction never leaves the process.  It returns exactly when
    the [rng] argument is a RandomState, an int that numpy accepts as a
    seed (0 to 2**32 - 1), or None with such a seed drawn from numpy's
    global generator, and every hyperparameter of the configuration space
    is categorical, constant, uniform float or uniform integer.  A seed
    outside that range raises ValueError; an [rng] argument of another
    type, or else a hyperparameter of another class, raises TypeError. *)
Theorem construction_outcomes (sc : Scenario) (rng_arg : RngArg)
        (w : World) :
  match SMBO__init__ sc rng_arg w with
  | Returns _ _ =>
      rng_check rng_arg w = RngAccepted /\
      forallb supported (get_hyperparameters (cs sc)) = true
  | Raises e _ =>
      (e = ValueError /\ rng_check rng_arg w = RngBadSeed) \/
      (exists msg, e = TypeError msg) /\
      (rng_check rng_arg w = RngBadType \/
       rng_check rng_arg w = RngAccepted /\
       forallb supported (get_hyperparameters (cs sc)) = false)
  | Exits _ _ => False
  end.
Proof.
  unfold SMBO__init__. unfold bind at 1.
  set (pick := match rng_arg with RngNone => _ | _ => _ end).
  assert (Hp : (exists rng0 w0, pick w = Returns rng0 w0 /\
                                rng_check rng_arg w = RngAccepted) \/
               (exists w0, pick w = Raises ValueError w0 /\
                           rng_check rng_arg w = RngBadSeed) \/
               (exists msg, pick w = Raises (TypeError msg) w /\
                            rng_check rng_arg w = RngBadType)).
  { subst pick. unfold rng_check, new_RandomState.
    destruct rng_arg; unfold bind, ret, raise.
    - destruct (np_random_randint 10000 w) as [z w1]. simpl.
      destruct (valid_seed z); [left | right; left]; eauto.
    - destruct (valid_seed seed); [left | right; left]; eauto.
    - left. eauto.
    - right. right. eauto. }
  destruct Hp as [(rng0 & w0 & -> & Hr)|[(w0 & -> & Hr)|(msg & -> & Hr)]].
  - unfold bind at 1.
    destruct (forallb supported (get_hyperparameters (cs sc))) eqn:Hs.
    + rewrite (build_types_supported sc w0 Hs).
      destruct (rng_randint 0 1234567980 rng0).
      destruct (build_rh2EPM sc _). unfold ret. auto.
    + destruct (build_types_unsupported sc w0 Hs) as [msg ->].
      right. split; [eauto | auto].
  - left. auto.
  - right. split; [eauto | auto].
Qed.
End MoreConstruction.

Section FreshStart.
Context {T : Types} {E : Env}.

(** [choose_next] does not read the threshold that the object holds when
    it is called. *)
Lemma choose_next_forgets_eta (X : Matrix) (Y : list float)
      (e : option float) (s : SMBO) :
  match choose_next X Y s with
  | Returns l s' => choose_next X Y (with_eta e s) = Returns l s'
  | Raises x _ => exists s', choose_next X Y (with_eta e s) = Raises x s'
  | Exits c _ => exists s', choose_next X Y (with_eta e s) = Exits c s'
  end.
Proof.
  unfold choose_next, choose_next_pools.
  cbv [bind modify incumbent_value get ret raise].
  cbn [runhistory incumbent with_model with_eta model].
  assert (K : forall v,
    with_eta (Some v) (with_model (train (model s) X Y) (with_eta e s)) =
    with_eta (Some v) (with_model (train (model s) X Y) s))
    by reflexivity.
  destruct (runhistory s) as [rh|]; [|eauto].
  destruct (rh_empty rh).
  - change (generate_pools _) with
      (generate_pools
         (with_eta (Some 0%Q) (with_model (train (model s) X Y) s))) at 2.
    destruct (generate_pools _) as [[a b] s1| |]; eauto.
  - destruct (incumbent s) as [inc|]; [|eauto].
    destruct (get_cost rh inc) as [c|]; [|eauto].
    change (generate_pools _) with
      (generate_pools
         (with_eta (Some c) (with_model (train (model s) X Y) s))) at 2.
    destruct (generate_pools _) as [[a b] s1| |]; eauto.
Qed.

Lemma outcome_cases {S A} (o : Outcome S A) :
  match o with
  | Returns a q => o = Returns a q
  | Raises x _ => exists q, o = Raises x q
  | Exits c _ => exists q, o = Exits c q
  end.
Proof. destruct o; eauto. Qed.

Lemma on_self_forgets {A B} (m : M SMBO A) (k : A -> M Process B)
      (pa pb : Process) :
  world pa = world pb ->
  match m (self pa) with
  | Returns l s' => m (self pb) = Returns l s'
  | Raises x _ => exists s', m (self pb) = Raises x s'
  | Exits c _ => exists s', m (self pb) = Exits c s'
  end ->
  match bind (on_self m) k pa with
  | Returns a q => bind (on_self m) k pb = Returns a q
  | Raises x _ => exists q, bind (on_self m) k pb = Raises x q
  | Exits c _ => exists q, bind (on_self m) k pb = Exits c q
  end.
Proof.
  intros Hw H. unfold bind, on_self, with_self.
  destruct (m (self pa)) as [l s'|x s'|c s'].
  - rewrite H, Hw. apply outcome_cases.
  - destruct H as [s2 ->]. eauto.
  - destruct H as [s2 ->]. eauto.
Qed.

(** Neither does a pass through the loop body. *)
Lemma iterate_forgets_eta (e : option float) (p : Process) :
  match iterate p with
  | Returns a q =>
      iterate (with_self (with_eta e (self p)) p) = Returns a q
  | Raises x _ =>
      exists q, iterate (with_self (with_eta e (self p)) p) = Raises x q
  | Exits c _ =>
      exists q, iterate (with_self (with_eta e (self p)) p) = Exits c q
  end.
Proof.
  unfold iterate.
  destruct (time_time (world p)) as [t0 w0] eqn:Ht0.
  rewrite (bind_on_world _ _ p Ht0).
  rewrite (bind_on_world _ _ (with_self (with_eta e (self p)) p) Ht0).
  rewrite !bind_gets.
  cbn [self world with_self with_world runhistory with_eta rh2EPM model rng].
  destruct (runhistory (self p)) as [rh|]; [|cbn; eauto].
  rewrite !bind_ret.
  destruct (transform (rh2EPM (self p)) rh (model (self p)) (rng (self p)))
    as [[[X Y] m'] g'].
  rewrite !bind_on_self_modify.
  apply on_self_forgets; [reflexivity|].
  exact (choose_next_forgets_eta X Y e
           (with_rng g' (with_model m' (self p)))).
Qed.

Lemma main_loop_forgets_eta (fuel : nat) (iteration max_iters : Z)
      (e : option float) (p : Process) :
  match main_loop fuel iteration max_iters p with
  | Some (Returns a q) =>
      main_loop fuel iteration max_iters
                (with_self (with_eta e (self p)) p) = Some (Returns a q)
  | Some (Raises x _) =>
      exists q, main_loop fuel iteration max_iters
                          (with_self (with_eta e (self p)) p)
                = Some (Raises x q)
  | Some (Exits c _) =>
      exists q, main_loop fuel iteration max_iters
                          (with_self (with_eta e (self p)) p)
                = Some (Exits c q)
  | None =>
      main_loop fuel iteration max_iters
                (with_self (with_eta e (self p)) p) = None
  end.
Proof.
  destruct fuel as [|fuel]; [reflexivity|].
  cbn [main_loop].
  pose proof (iterate_forgets_eta e p) as K.
  destruct (iterate p) as [a q|x q|c q].
  - rewrite K.
    match goal with
    | |- match ?o with _ => _ end =>
        destruct o as [[[? ?] ?|? ?|? ?]|]; eauto
    end.
  - destruct K as [q' ->]. eauto.
  - destruct K as [q' ->]. eauto.
Qed.

Lemma forgets_ret {A} (a : A) : forgets_eta (ret a).
Proof. intros e p. reflexivity. Qed.

Lemma forgets_raise {A} (x : Exn) : forgets_eta (raise x : M Process A).
Proof. intros e p. reflexivity. Qed.

Lemma forgets_bind {A B} (m : M Process A) (k : A -> M Process B) :
  forgets_eta m -> (forall a, forgets_eta (k a)) -> forgets_eta (bind m k).
Proof.
  intros Hm Hk e p. unfold bind. rewrite Hm.
  destruct (m p) as [a q|x q|c q]; simpl; [apply Hk | reflexivity..].
Qed.

Lemma forgets_gets_self {A} (k : SMBO -> M Process A) :
  (forall e s, k (with_eta e s) = k s) ->
  (forall s, forgets_eta (k s)) ->
  forgets_eta (bind (gets self) k).
Proof.
  intros H1 H2 e p. rewrite !bind_gets. cbn [set_eta self with_self].
  rewrite H1. apply H2.
Qed.

Lemma forgets_on_world {A} (f : World -> A * World) :
  forgets_eta (on_world f).
Proof.
  intros e p. unfold on_world. cbn [set_eta world with_self].
  destruct (f (world p)). reflexivity.
Qed.

Lemma forgets_on_self_modify (f : SMBO -> SMBO) :
  (forall e s, f (with_eta e s) = with_eta e (f s)) ->
  forgets_eta (on_self (modify f)).
Proof.
  intros H e p. unfold on_self, modify, set_eta. cbn [self with_self].
  rewrite H. reflexivity.
Qed.

Lemma forgets_randint (low high : Z) : forgets_eta (on_self (randint low high)).
Proof.
  intros e p. unfold on_self, randint, set_eta. cbn [self with_self rng with_eta].
  destruct (rng_randint low high (rng (self p))).
  destruct (high <=? low)%Z; reflexivity.
Qed.

Lemma forgets_initial_run : forgets_eta initial_run.
Proof.
  unfold initial_run.
  apply forgets_gets_self; [reflexivity|]. intros s.
  apply forgets_bind; [now apply forgets_on_self_modify|]. intros _.
  apply forgets_bind; [apply forgets_randint|]. intros z.
  apply forgets_bind.
  { destruct (py_index _ z); [apply forgets_ret | apply forgets_raise]. }
  intros inst. apply forgets_bind.
  { destruct (deterministic _); [apply forgets_ret | apply forgets_on_world]. }
  intros seed. apply forgets_bind; [apply forgets_on_world|].
  intros res. apply forgets_ret.
Qed.

Lemma forgets_run_initial_design : forgets_eta run_initial_design.
Proof.
  unfold run_initial_design.
  apply forgets_bind; [apply forgets_initial_run|].
  intros [[[conf inst] seed] [[[st cost] rt] info]].
  apply forgets_bind.
  { unfold abort_if_first_run_failed.
    destruct (existsb _ _); [|apply forgets_ret].
    intros e p. reflexivity. }
  intros _. unfold record_initial_run.
  apply forgets_gets_self; [reflexivity|]. intros s.
  apply forgets_bind.
  { destruct (runhistory s); [apply forgets_ret | apply forgets_raise]. }
  intros rh. apply forgets_bind.
  { destruct (rh_add rh _ _); [apply forgets_ret | apply forgets_raise]. }
  intros rh'.
  apply forgets_bind; [now apply forgets_on_self_modify|]. intros _.
  now apply forgets_on_self_modify.
Qed.

Lemma forgets_run_prologue : forgets_eta run_prologue.
Proof.
  unfold run_prologue.
  apply forgets_bind; [intros e p; reflexivity|]. intros _.
  apply forgets_bind; [now apply forgets_on_self_modify|]. intros _.
  apply forgets_run_initial_design.
Qed.

(** The statements of [run] before the loop overwrite the run history
    and the incumbent without reading them. *)
Lemma run_prologue_overwrites (h : option RunHistory)
      (inc : option Configuration) (e : option float) (p : Process) :
  run_prologue (left_behind h inc e p) = run_prologue (set_eta e p).
Proof. reflexivity. Qed.

(** X12.  [run] is a fresh start: its outcome does not depend on the run
    history, the incumbent or the threshold that the object holds when it
    is called.  The three are overwritten before they are read. *)
Theorem run_is_a_fresh_start (fuel : nat) (max_iters : Z)
        (h : option RunHistory) (inc : option Configuration)
        (e : option float) (p : Process) :
  same_run (run fuel max_iters p)
           (run fuel max_iters (left_behind h inc e p)).
Proof.
  unfold run. rewrite run_prologue_overwrites, forgets_run_prologue.
  destruct (run_prologue p) as [[] p1|x p1|c p1]; cbn [map_state same_run];
    try reflexivity.
  pose proof (main_loop_forgets_eta fuel 1 max_iters e p1) as K.
  unfold set_eta.
  destruct (main_loop fuel 1 max_iters p1) as [[[it br] q|x q|c q]|].
  - rewrite K. simpl. auto.
  - destruct K as [q' ->]. reflexivity.
  - destruct K as [q' ->]. reflexivity.
  - rewrite K. exact I.
Qed.
End FreshStart.

(* ================================================================= *)
(** ** Further properties: how far [choose_next] advances the generator *)

Section Draws.
Context {T : Types} {E : Env}.

Lemma rand_size_returns (n : nat) (s : SMBO) :
  exists rs t, rand_size n s = Returns rs t /\ length rs = n.
Proof.
  revert s. induction n as [|n IH]; intros s; cbn [rand_size].
  - exists [], s. split; reflexivity.
  - unfold bind at 1, rand.
    destruct (rng_rand (rng s)) as [r g].
    destruct (IH (with_rng g s)) as (rs & t & H & L).
    exists (r :: rs), t. unfold bind. rewrite H. simpl. now rewrite L.
Qed.

(** The draws depend on the generator only. *)
Lemma rand_size_rng (n : nat) :
  forall (s s2 t : SMBO) (rs : list float),
    rng s = rng s2 -> rand_size n s = Returns rs t ->
    exists t2, rand_size n s2 = Returns rs t2 /\ rng t2 = rng t.
Proof.
  induction n as [|n IH]; intros s s2 t rs Hg H; cbn [rand_size] in *.
  - injection H as <- <-. exists s2. split; [reflexivity | now symmetry].
  - unfold bind at 1, rand in H. unfold bind at 1, rand. rewrite <- Hg.
    destruct (rng_rand (rng s)) as [r g].
    apply bind_returns in H. destruct H as (rs' & t' & Hrs & H).
    injection H as <- <-.
    destruct (@IH (with_rng g s) (with_rng g s2) t' rs' eq_refl Hrs)
      as (t2 & H2 & Hg2).
    exists t2. unfold bind. rewrite H2. split; [reflexivity | exact Hg2].
Qed.

Lemma rand_size_app (n m : nat) :
  forall (s t1 t2 : SMBO) (rs1 rs2 : list float),
    rand_size n s = Returns rs1 t1 -> rand_size m t1 = Returns rs2 t2 ->
    rand_size (n + m) s = Returns (rs1 ++ rs2) t2.
Proof.
  induction n as [|n IH]; intros s t1 t2 rs1 rs2 H1 H2;
    cbn [rand_size Nat.add] in *.
  - injection H1 as <- <-. exact H2.
  - unfold bind at 1, rand in H1. unfold bind at 1, rand.
    destruct (rng_rand (rng s)) as [r g].
    apply bind_returns in H1. destruct H1 as (rs' & t' & Hrs & H1).
    injection H1 as <- <-.
    unfold bind. now rewrite (@IH _ _ _ _ _ Hrs H2).
Qed.

Lemma advances_O (s s' : SMBO) : rng s' = rng s -> advances 0 s s'.
Proof. intros H. exists [], s. split; [reflexivity | exact H]. Qed.

Lemma advances_trans (n m : nat) (s s1 s2 : SMBO) :
  advances n s s1 -> advances m s1 s2 -> advances (n + m) s s2.
Proof.
  intros (rs1 & t1 & H1 & G1) (rs2 & t2 & H2 & G2).
  destruct (@rand_size_rng m s1 t1 t2 rs2 G1 H2) as (t3 & H3 & G3).
  exists (rs1 ++ rs2), t3. split; [now apply rand_size_app with t1|].
  congruence.
Qed.

Lemma local_searches_rng (range : list nat) :
  forall (acc l : list (float * Configuration)) (s s' : SMBO),
    local_searches range acc s = Returns l s' -> rng s' = rng s.
Proof.
  induction range as [|i range IH]; intros acc l s s' H;
    cbn [local_searches] in H.
  - now injection H as _ <-.
  - unfold bind at 1, get at 1 in H. unfold bind at 1 in H.
    match type of H with
    | match ?m with _ => _ end = _ =>
        destruct m as [start s1| |] eqn:Hs; try discriminate H
    end.
    assert (Hg : rng s1 = rng s).
    { revert Hs. unfold sample_one, ret.
      destruct i, (incumbent s); cbn;
        try destruct (sample_configuration (config_space s)) as [c1 cs1];
        intros K; inversion K; subst; reflexivity. }
    unfold bind at 1, get at 1 in H.
    destruct (maximize (model s1) (eta s1) (config_space s1) start).
    apply IH in H. congruence.
Qed.

Context `{!EnvContracts E}.

(** X15.  A call of [choose_next] that returns has drawn from
    [self.rng] exactly 1009 times: 1000 tie-break keys for the scored
    random search and 9 indices for the shuffle of the 10 local-search
    candidates.  The configurations are sampled by the configuration
    space and leave [self.rng] alone. *)
Theorem choose_next_draws_1009 (X : Matrix) (Y : list float) (s : SMBO)
        (v : float) :
  incumbent_value s = Returns v s ->
  exists challengers s',
    choose_next X Y s = Returns challengers s' /\ advances 1009 s s'.
Proof.
  intros Hv.
  destruct (choose_next_pools_steps X Y Hv)
    as (u & s1 & so & s2 & lo & s3 & H1 & H2 & H3 & _ & _ & _ & _ & _ & H).
  cbv zeta in H1.
  eexists _, s3. split; [apply choose_next_of_pools; exact H|].
  set (s0 := with_eta (Some v) (with_model (train (model s) X Y) s)) in *.
  assert (A1 : advances 0 s0 s1).
  { apply advances_O. revert H1. rewrite random_search_eq by discriminate.
    unfold random_search_on_list, bind, sample_size, ret.
    destruct (sample_configuration_size 1010 (config_space s0)).
    intros K. now injection K as _ <-. }
  assert (A2 : advances 1000 s1 s2).
  { destruct (@random_search_sorted _ _ _ 1000 s1)
      as (cfgs & s1' & rnd & t2 & Hs & Hr & _ & _ & _ & Hrun);
      [discriminate|].
    rewrite H2 in Hrun. injection Hrun as _ <-.
    assert (Hg : rng s1' = rng s1).
    { revert Hs. unfold sample_size.
      destruct (sample_configuration_size 1000 (config_space s1)).
      intros K. now injection K as _ <-. }
    destruct (@rand_size_rng 1000 s1' s1 _ _ Hg Hr) as (t & Ht & Hgt).
    exists rnd, t. split; [exact Ht | now symmetry]. }
  assert (A3 : advances 9 s2 s3).
  { destruct (local_searches_framed (seq 0 10) [] s2)
      as (raw & t1 & Hraw & Lraw & _).
    destruct (shuffle_framed raw t1) as (sh & t2 & Hsh & _ & _).
    assert (Hrun : _get_next_by_local_search 10 s2 =
                   Returns (sort_by_acq_desc sh) t2).
    { unfold _get_next_by_local_search, bind. now rewrite Hraw, Hsh. }
    rewrite H3 in Hrun. injection Hrun as _ <-.
    unfold shuffle in Hsh. apply shuffle_down_perm in Hsh.
    destruct Hsh as (_ & rs & Hrs).
    simpl in Lraw. rewrite Lraw in Hrs. cbn [Nat.sub] in Hrs.
    apply local_searches_rng in Hraw.
    destruct (@rand_size_rng 9 t1 s2 _ _ Hraw Hrs) as (t & Ht & Hgt).
    exists rs, t. split; [exact Ht | now symmetry]. }
  pose proof (advances_trans A1 (advances_trans A2 A3)) as A.
  cbn [Nat.add] in A.
  destruct A as (rs & t & Hrs & Hg).
  destruct (@rand_size_rng 1009 s0 s _ _ eq_refl Hrs) as (t' & Ht' & Hg').
  exists rs, t'. split; [exact Ht' | congruence].
Qed.
End Draws.

(* ================================================================= *)
(** ** The random-search stage of [choose_next] *)

Section RandomSearchStage.
Context {T : Types} {E : Env} `{!EnvContracts E}.

(** Every draw of [self.rng.rand(n)] lies in the half-open unit
    interval. *)
Lemma rand_size_unit (n : nat) :
  forall (s t : SMBO) (rs : list float),
    rand_size n s = Returns rs t ->
    Forall (fun r => (0 <= r /\ r < 1)%Q) rs.
Proof.
  induction n as [|n IH]; intros s t rs H; cbn [rand_size] in H.
  - injection H as <- _. constructor.
  - unfold bind at 1, rand in H.
    pose proof (rand_unit (rng s)) as Hu.
    destruct (rng_rand (rng s)) as [r g]. cbn [fst] in Hu.
    apply bind_returns in H. destruct H as (rs' & t' & Hrs & H).
    injection H as <- _.
    constructor; [exact Hu | exact (IH _ _ _ Hrs)].
Qed.

Lemma sample_size_rng (n : nat) (s s' : SMBO) (l : list Configuration) :
  sample_size n s = Returns l s' -> rng s' = rng s.
Proof.
  unfold sample_size.
  destruct (sample_configuration_size n (config_space s)).
  intros K. now injection K as _ <-.
Qed.

(** The unscored random search does not draw from [self.rng], and every
    pair it returns carries the dummy acquisition value 0. *)
Lemma random_search_unsorted_inv (n : nat) (s s' : SMBO)
      (l : list (float * Configuration)) :
  n <> 1 ->
  _get_next_by_random_search n false s = Returns l s' ->
  rng s' = rng s /\ Forall (fun x => fst x = 0%Q) l.
Proof.
  intros Hn. rewrite (random_search_eq _ Hn).
  unfold random_search_on_list. intros H.
  apply bind_returns in H. destruct H as (cfgs & s1 & Hs & H).
  injection H as <- <-.
  split; [exact (sample_size_rng _ _ Hs)|].
  apply Forall_forall. intros x Hx.
  apply in_map_iff in Hx. destruct Hx as (c0 & <- & _). reflexivity.
Qed.

(** C5, as the code has it.  In a call to [choose_next] the random search
    is run twice: a first draw of 1010 configurations that are not scored
    (each carries the dummy value 0), and a second, separate draw of 1000
    configurations that are scored.  The scored ones come back in
    descending order of acquisition value, and two of them with the same
    value come in descending order of their tie-break keys, not in the
    order in which they were sampled.  The keys are 1000 draws of
    [self.rng.rand], numpy's uniform generator on the half-open unit
    interval, made after the scoring; they are the first 1000 draws of
    the generator as it stands when [choose_next] is called, whatever the
    configurations sampled and their acquisition values are.
    [choose_next] merges the scored pairs with the local-search
    candidates and interleaves the result with the unscored draw. *)
Theorem random_search_stage (X : Matrix) (Y : list float) (s : SMBO)
        (v : float) :
  incumbent_value s = Returns v s ->
  exists unscored s1 rand_configs s1' random s2 rows local s3,
    let s0 := with_eta (Some v) (with_model (train (model s) X Y) s) in
    _get_next_by_random_search 1010 false s0 = Returns unscored s1 /\
    length unscored = 1010 /\
    Forall (fun x => fst x = 0%Q) unscored /\
    sample_size 1000 s1 = Returns rand_configs s1' /\
    length rand_configs = 1000 /\
    rand_size 1000 s1' = Returns random s2 /\
    length random = 1000 /\
    Forall (fun r => (0 <= r /\ r < 1)%Q) random /\
    (forall u : SMBO, rng u = rng s ->
       exists t, rand_size 1000 u = Returns random t) /\
    Permutation rows
      (combine
         (combine
            (map (fun c => EI (model s0) (Some v)
                              (get_array (impute_inactive_values c)))
                 rand_configs)
            random)
         (map (set_origin "Random Search (sorted)") rand_configs)) /\
    length rows = 1000 /\
    StronglySorted
      (fun a b : Row =>
         (fst (fst b) < fst (fst a) \/
          (fst (fst b) == fst (fst a) /\ snd (fst b) <= snd (fst a)))%Q)
      rows /\
    _get_next_by_random_search 1000 true s1 =
    Returns (map (fun r : Row => (fst (fst r), snd r)) rows) s2 /\
    _get_next_by_local_search 10 s2 = Returns local s3 /\
    choose_next X Y s =
    Returns
      (chain_zip
         (map snd (sort_by_acq_desc
                     (map (fun r : Row => (fst (fst r), snd r)) rows
                      ++ local)))
         (map snd unscored))
      s3.
Proof.
  intros Hv.
  destruct (choose_next_pools_steps X Y Hv)
    as (u & s1 & so & s2 & lo & s3 & H1 & H2 & H3 & L1 & _ & _ & F1 & _ & H).
  cbv zeta in H1, F1.
  set (s0 := with_eta (Some v) (with_model (train (model s) X Y) s)) in *.
  destruct (@random_search_sorted _ _ _ 1000 s1)
    as (cfgs & s1' & rnd & s2' & Hs & Hr & Lc & Lr & F2 & H2');
    [discriminate|].
  rewrite H2 in H2'. injection H2' as -> <-.
  destruct (@random_search_unsorted_inv 1010 s0 s1 u) as [G1 Z1];
    [discriminate | exact H1 |].
  rewrite (frame_model F1), (frame_eta F1) in H2, H.
  change (eta s0) with (Some v) in H2, H.
  exists u, s1, cfgs, s1', rnd, s2.
  exists (rev (lexsort_rows
                 (combine
                    (combine
                       (map (fun c => EI (model s0) (Some v)
                                         (get_array (impute_inactive_values c)))
                            cfgs)
                       rnd)
                    (map (set_origin "Random Search (sorted)") cfgs)))).
  exists lo, s3. cbv zeta.
  split; [exact H1|]. split; [exact L1|]. split; [exact Z1|].
  split; [exact Hs|]. split; [exact Lc|]. split; [exact Hr|].
  split; [exact Lr|]. split; [exact (rand_size_unit _ _ Hr)|].
  split.
  { intros t Ht.
    assert (Hg : rng s1' = rng t).
    { rewrite (sample_size_rng _ _ Hs), G1, Ht. reflexivity. }
    destruct (@rand_size_rng _ _ 1000 s1' t _ _ Hg Hr) as (t2 & Ht2 & _).
    exists t2. exact Ht2. }
  split; [|split; [|split; [|split; [exact H2|split; [exact H3|]]]]].
  - eapply perm_trans; [apply Permutation_sym, Permutation_rev|].
    apply stable_sort_perm.
  - rewrite length_rev. unfold lexsort_rows.
    rewrite stable_sort_length, !length_combine, !length_map, Lc, Lr.
    reflexivity.
  - eapply StronglySorted_weaken;
      [|apply StronglySorted_rev, lexsort_rows_sorted].
    intros a b Hab. now apply lex_le_spec in Hab.
  - apply choose_next_of_pools. exact H.
Qed.
End RandomSearchStage.

(* ================================================================= *)
(** ** The further properties on concrete inputs *)

Lemma choose_next_fails_before_sampling_witness :
  (runhistory (toy_smbo 1 0) = None /\
   choose_next [] [] (toy_smbo 1 0) =
   Raises (AttributeError "runhistory")
          (with_model (train (model (toy_smbo 1 0)) [] []) (toy_smbo 1 0))) /\
  (runhistory toy_orphan = Some toy_history /\
   rh_empty toy_history = false /\ incumbent toy_orphan = None /\
   choose_next [] [] toy_orphan =
   Raises UnknownConfigError
          (with_model (train (model toy_orphan) [] []) toy_orphan)).
Proof.
  split.
  - split; [reflexivity|].
    now apply (choose_next_fails_before_sampling [] [] (toy_smbo 1 0)).
  - repeat (split; [reflexivity|]).
    apply (choose_next_fails_before_sampling [] [] toy_orphan)
      with toy_history; [reflexivity | reflexivity | now left].
Defined.

Lemma challengers_are_tagged_witness :
  EnvContracts toy_env /\
  incumbent_value toy_tuned = Returns (7 # 2)%Q toy_tuned /\
  exists by_acq unscored s',
    choose_next [] [] toy_tuned = Returns (chain_zip by_acq unscored) s' /\
    Forall (fun c => tagged "Random Search (sorted)" c \/
                     tagged "Local Search" c) by_acq /\
    Forall (tagged "Random Search") unscored.
Proof.
  assert (Hv : incumbent_value toy_tuned = Returns (7 # 2)%Q toy_tuned)
    by reflexivity.
  split; [exact toy_contracts|]. split; [exact Hv|].
  destruct (challengers_are_tagged [] [] Hv)
    as (a & u & s' & _ & H & Ha & Hu & _).
  exists a, u, s'. auto.
Defined.

Lemma sorted_search_pairs_witness :
  EnvContracts toy_env /\ 2 <= 3 /\
  exists rand_configs s1 out s2,
    sample_size 3 toy_tuned = Returns rand_configs s1 /\
    _get_next_by_random_search 3 true toy_tuned = Returns out s2 /\
    Permutation (map snd out)
                (map (set_origin "Random Search (sorted)") rand_configs).
Proof.
  split; [exact toy_contracts|]. split; [lia|].
  destruct (@sorted_search_pairs _ _ _ 3 toy_tuned)
    as (cfgs & s1 & out & s2 & H1 & H2 & H3 & _); [lia|].
  exists cfgs, s1, out, s2. auto.
Defined.

Lemma shuffle_permutes_witness :
  EnvContracts toy_env /\
  exists x' rs s',
    shuffle rand [1; 2; 3; 4] toy_tuned = Returns x' s' /\
    Permutation x' [1; 2; 3; 4] /\
    rand_size 3 toy_tuned = Returns rs s'.
Proof.
  split; [exact toy_contracts|].
  exact (shuffle_permutes [1; 2; 3; 4] toy_tuned).
Defined.

Lemma local_search_from_incumbent_witness :
  incumbent toy_tuned = Some (toy_config 0) /\ 1 <= 10 /\
  exists out s',
    _get_next_by_local_search 10 toy_tuned = Returns out s' /\
    In (0%Q, set_origin "Local Search" (toy_config 0)) out.
Proof.
  split; [reflexivity|]. split; [lia|].
  destruct (@local_search_from_incumbent _ _ _ 10 toy_tuned (toy_config 0)
              eq_refl) as (out & s' & H & Hin & _); [lia|].
  exists out, s'. split; [exact H | exact Hin].
Defined.

Lemma first_run_failure_exits_witness :
  exists p1,
    initial_run (toy_started CRASHED 100) =
    Returns (toy_config 0, "inst1"%string, 0%Z, (CRASHED, 1%Q, 1%Q, tt)) p1 /\
    CRASHED = py_or status_truth CRASHED ABORT /\
    run_initial_design (toy_started CRASHED 100) = Exits 42%Z p1 /\
    runhistory (self p1) = Some RunHistory_new.
Proof.
  eexists.
  assert (H : initial_run (toy_started CRASHED 100) =
              Returns (toy_config 0, "inst1"%string, 0%Z,
                       (CRASHED, 1%Q, 1%Q, tt)) _)
    by (vm_compute; reflexivity).
  split; [exact H|]. split; [reflexivity|].
  destruct (first_run_failure_exits _ H eq_refl) as (Hexit & Hrh & _).
  split; [exact Hexit | exact Hrh].
Defined.

Lemma first_run_arguments_witness :
  exists p1,
    initial_run (toy_started SUCCESS 100) =
    Returns (toy_config 0, "inst1"%string, 0%Z, (SUCCESS, 1%Q, 1%Q, tt)) p1 /\
    In "inst1"%string (train_insts (scenario (self (toy_started SUCCESS 100))))
    /\ incumbent (self p1) = Some (toy_config 0).
Proof.
  eexists.
  assert (H : initial_run (toy_started SUCCESS 100) =
              Returns (toy_config 0, "inst1"%string, 0%Z,
                       (SUCCESS, 1%Q, 1%Q, tt)) _)
    by (vm_compute; reflexivity).
  split; [exact H|].
  destruct (first_run_arguments _ H) as (_ & Hin & _ & _ & Hinc & _).
  split; [exact Hin | exact Hinc].
Defined.

Lemma loop_starts_with_default_cost_witness :
  EnvContracts toy_env /\
  exists p1,
    run_prologue (toy_process SUCCESS 100) = Returns tt p1 /\
    exists inst seed status cost runtime info,
      let rh1 :=
        {| data := [({| rk_config := toy_config 0; rk_instance := inst;
                        rk_seed := seed |},
                     {| rv_cost := cost; rv_time := runtime;
                        rv_status := status;
                        rv_additional_info := info |})];
           cost_per_config := [] |} in
      let default_perf :=
        objective_call average_cost (toy_config 0) rh1 [(inst, seed)] in
      runhistory (self p1) =
      Some (update_cost rh1 (toy_config 0) default_perf) /\
      incumbent_value (self p1) = Returns default_perf (self p1).
Proof.
  split; [exact toy_contracts|].
  destruct (run_prologue (toy_process SUCCESS 100)) as [[] p1|x p1|c p1]
    eqn:H; [|vm_compute in H; discriminate H..].
  destruct (loop_starts_with_default_cost _ H)
    as (inst & seed & st & cost & rt & info & w & _ & Hr & _ & _ & Hv).
  exists p1. split; [reflexivity|].
  exists inst, seed, st, cost, rt, info. split; [exact Hr | exact Hv].
Defined.

Lemma nonpositive_max_iters_stops_on_budget_witness :
  (0 < 1)%Z /\
  exists r p',
    run 5 0 (toy_process SUCCESS 1) = Some (Returns r p') /\
    exists q q',
      iterate q = Returns tt q' /\ poll_budget q' = Returns true p'.
Proof.
  split; [lia|].
  destruct (run 5 0 (toy_process SUCCESS 1)) as [[r p'|x p'|c p']|] eqn:H;
    [|vm_compute in H; discriminate H..].
  exists r, p'. split; [reflexivity|].
  destruct (@nonpositive_max_iters_stops_on_budget _ _ 5 0%Z _ _ _
              eq_refl H) as (q & q' & Hq & Hp & _).
  exists q, q'. auto.
Defined.


Lemma poll_budget_negative_witness :
  (forall w, snd (get_remaing_time_budget w) = w) /\
  (forall w, snd (get_remaining_ta_budget w) = w) /\
  (forall w, snd (get_remaining_ta_runs w) = w) /\
  poll_budget (toy_process SUCCESS (-5)) =
  Returns true (toy_process SUCCESS (-5)) /\
  poll_budget (toy_process SUCCESS 0) =
  Returns false (toy_process SUCCESS 0).
Proof.
  assert (H1 : forall w : World, snd (get_remaing_time_budget w) = w)
    by reflexivity.
  assert (H2 : forall w : World, snd (get_remaining_ta_budget w) = w)
    by reflexivity.
  assert (H3 : forall w : World, snd (get_remaining_ta_runs w) = w)
    by reflexivity.
  split; [exact H1|]. split; [exact H2|]. split; [exact H3|].
  split.
  - exact (proj1 (poll_budget_negative (toy_process SUCCESS (-5)) H1 H2 H3)).
  - exact (proj1 (poll_budget_negative (toy_process SUCCESS 0) H1 H2 H3)).
Defined.

Lemma choose_next_draws_1009_witness :
  EnvContracts toy_env /\
  incumbent_value toy_tuned = Returns (7 # 2)%Q toy_tuned /\
  exists challengers s',
    choose_next [] [] toy_tuned = Returns challengers s' /\
    advances 1009 toy_tuned s'.
Proof.
  assert (Hv : incumbent_value toy_tuned = Returns (7 # 2)%Q toy_tuned)
    by reflexivity.
  split; [exact toy_contracts|]. split; [exact Hv|].
  exact (choose_next_draws_1009 [] [] Hv).
Defined.

Lemma random_search_stage_witness :
  EnvContracts toy_env /\
  incumbent_value toy_tuned = Returns (7 # 2)%Q toy_tuned /\
  exists unscored s1 random rows local challengers s2 s3,
    _get_next_by_random_search 1010 false
      (with_eta (Some (7 # 2)%Q) toy_tuned) = Returns unscored s1 /\
    length unscored = 1010 /\
    _get_next_by_random_search 1000 true s1 =
    Returns (map (fun r : Row => (fst (fst r), snd r)) rows) s2 /\
    length rows = 1000 /\
    (exists t, rand_size 1000 toy_tuned = Returns random t) /\
    _get_next_by_local_search 10 s2 = Returns local s3 /\
    choose_next [] [] toy_tuned = Returns challengers s3.
Proof.
  assert (Hv : incumbent_value toy_tuned = Returns (7 # 2)%Q toy_tuned)
    by reflexivity.
  split; [exact toy_contracts|]. split; [exact Hv|].
  destruct (random_search_stage [] [] Hv)
    as (u & s1 & cfgs & s1' & rnd & s2 & rows & lo & s3 &
        H1 & L1 & _ & _ & _ & _ & _ & _ & Hk & _ & Lr & _ & H2 & H3 & H).
  exists u, s1, rnd, rows, lo. eexists. exists s2, s3.
  split; [exact H1|]. split; [exact L1|]. split; [exact H2|].
  split; [exact Lr|]. split; [exact (Hk toy_tuned eq_refl)|].
  split; [exact H3 | exact H].
Defined.
